(** * ZerodhaEMAScanner: the signal rule, the EMA and the position lifecycle

    A shallow embedding of [src/src/zerodha_client.cpp] and
    [src/src/csv_parser.cpp].  A C++ [double] is
    an IEEE 754 binary64 number, which is what Rocq's primitive [float] is:
    comparisons and arithmetic below are the machine's, NaN, infinities and
    signed zeros included.  [std::string] is [string], [std::vector] is
    [list], and [std::map<std::string, ActivePosition>] is a [gmap]. *)

From Stdlib Require Import ZArith Floats Uint63 Bool.
From stdpp Require Import gmap strings list fin_maps sorting.
From Stdlib Require DecimalString DecimalN.

Open Scope Z_scope.

(** ** The C++ [double] *)

Module Double.

Abbreviation double := float.

Definition lt (x y : double) : bool := PrimFloat.ltb x y.
Definition gt (x y : double) : bool := PrimFloat.ltb y x.
Definition le (x y : double) : bool := PrimFloat.leb x y.
Definition ge (x y : double) : bool := PrimFloat.leb y x.

(** [std::min(a, b)] is [(b < a) ? b : a]; [std::max(a, b)] is
    [(a < b) ? b : a]. *)
Definition std_min (a b : double) : double := if lt b a then b else a.
Definition std_max (a b : double) : double := if lt a b then b else a.

(** The conversion of an [int] to [double]; exact on 32-bit values. *)
Definition of_int (n : Z) : double :=
  if (n <? 0)%Z
  then PrimFloat.opp (PrimFloat.of_uint63 (Uint63.of_Z (- n)))
  else PrimFloat.of_uint63 (Uint63.of_Z n).

Definition zero : double := 0%float.
Definition one : double := 1%float.
Definition two : double := 2%float.

Definition is_nan (x : double) : bool :=
  match Prim2SF x with
  | S754_nan => true
  | _ => false
  end.

(** Neither an infinity nor a NaN. *)
Definition is_finite (x : double) : bool :=
  match Prim2SF x with
  | S754_zero _ | S754_finite _ _ _ => true
  | _ => false
  end.

End Double.
Import Double.

(** ** Data model ([include/zerodha_client.h]) *)

Record CandleData := mkCandle {
  timestamp : string;
  open : double;
  high : double;
  low : double;
  close : double;
  volume : Z;
  oi : Z
}.

Record TradeSetting := mkSetting {
  ts_symbol : string;
  ts_quantity : Z;
  ts_timeframe : string;
  ts_ema_period : Z
}.

Record LastThreeCandles := mkLastThree {
  last_open : double; last_high : double; last_low : double;
  last_close : double; last_ema : double;
  second_open : double; second_high : double; second_low : double;
  second_close : double; second_ema : double;
  third_open : double; third_high : double; third_low : double;
  third_close : double; third_ema : double
}.

(** The constructor [LastThreeCandles()] sets every field to 0. *)
Definition LastThreeCandles_default : LastThreeCandles :=
  mkLastThree zero zero zero zero zero
              zero zero zero zero zero
              zero zero zero zero zero.

Record TradeSignal := mkSignal {
  sig_symbol : string;
  sig_action : string;
  sig_entry_price : double;
  sig_stop_loss : double;
  sig_target : double;
  sig_quantity : Z
}.

(** ** Characters and numbers: [std::stoi], [std::to_string] *)

(** The characters the parsers name. *)
Module Char.
Import Stdlib.Strings.Ascii.
Definition comma : ascii := ","%char.
Definition newline : ascii := "010"%char.
Definition quote : ascii := "034"%char.
Definition space : ascii := " "%char.
Definition tab : ascii := "009"%char.
Definition carriage_return : ascii := "013"%char.
Definition vertical_tab : ascii := "011"%char.
Definition form_feed : ascii := "012"%char.
Definition brace : ascii := "{"%char.
Definition bracket : ascii := "["%char.
Definition minus : ascii := "-"%char.
Definition plus : ascii := "+"%char.
End Char.

(** [isspace] in the C locale: what [strtol] skips before the number. *)
Definition isspace (a : Ascii.ascii) : bool :=
  Ascii.eqb a Char.space || Ascii.eqb a Char.tab || Ascii.eqb a Char.newline
  || Ascii.eqb a Char.vertical_tab || Ascii.eqb a Char.form_feed
  || Ascii.eqb a Char.carriage_return.

Fixpoint skip_spaces (s : string) : string :=
  match s with
  | EmptyString => EmptyString
  | String a rest => if isspace a then skip_spaces rest else s
  end.

(** The decimal digits at the head of [s], read onto [value]; what comes
    after them is ignored. *)
Fixpoint read_digits (value : Z) (s : string) : Z :=
  match s with
  | EmptyString => value
  | String a rest =>
      match Ascii.is_nat a with
      | Some digit => read_digits (10 * value + Z.of_nat digit) rest
      | None => value
      end
  end.

Definition starts_with_digit (s : string) : bool :=
  match s with
  | EmptyString => false
  | String a _ => if Ascii.is_nat a is Some _ then true else false
  end.

Definition INT_MAX : Z := 2147483647.
Definition INT_MIN : Z := -2147483648.

(** The number after the sign: [None] stands for the exception,
    [std::invalid_argument] without a digit and [std::out_of_range] for a
    value no [int] holds. *)
Definition stoi_number (negative : bool) (digits : string) : option Z :=
  if starts_with_digit digits then
    let magnitude := read_digits 0 digits in
    let value := if negative then - magnitude else magnitude in
    if (INT_MIN <=? value) && (value <=? INT_MAX) then Some value else None
  else None.

Definition stoi (str : string) : option Z :=
  match skip_spaces str with
  | EmptyString => None
  | String a rest =>
      if Ascii.eqb a Char.minus then stoi_number true rest
      else if Ascii.eqb a Char.plus then stoi_number false rest
      else stoi_number false (String a rest)
  end.

(** [std::to_string] of an unsigned number. *)
Definition to_string (n : N) : string :=
  DecimalString.NilZero.string_of_uint (N.to_uint n).

(** [std::to_string] of an [int]. *)
Definition to_string_int (z : Z) : string :=
  if z <? 0 then String Char.minus (to_string (Z.to_N (- z)))
  else to_string (Z.to_N z).

(** ** The signal generator, [ZerodhaClient::analyzeStrategy] *)

Definition buy_conditions (data : LastThreeCandles) : bool :=
  lt (third_open data) (third_close data) &&
  lt (second_open data) (second_close data) &&
  gt (second_close data) (second_ema data) &&
  gt (third_close data) (third_ema data) &&
  gt (last_close data) (last_ema data) &&
  gt (last_close data) (second_high data).

Definition sell_conditions (data : LastThreeCandles) : bool :=
  gt (third_open data) (third_close data) &&
  gt (second_open data) (second_close data) &&
  lt (second_close data) (second_ema data) &&
  lt (third_close data) (third_ema data) &&
  lt (last_close data) (last_ema data) &&
  lt (last_close data) (second_low data).

Definition analyzeStrategy (symbol : string) (data : LastThreeCandles)
  : TradeSignal :=
  if buy_conditions data then
    let stop_loss := std_min (second_low data) (third_low data) in
    mkSignal symbol "BUY" (last_close data) stop_loss
      (last_close data + two * (last_close data - stop_loss))%float 1
  else if sell_conditions data then
    let stop_loss := std_max (second_high data) (third_high data) in
    mkSignal symbol "SELL" (last_close data) stop_loss
      (last_close data - two * (stop_loss - last_close data))%float 1
  else
    mkSignal symbol "" zero zero zero 1.

(** ** The EMA calculator, [ZerodhaClient::calculateEMA] *)

Definition ema_multiplier (period : Z) : double :=
  (two / (of_int period + one))%float.

(** The body of the [for] loop: [prev] is [ema_values[i-1]], the element
    pushed last.  Each operation rounds to binary64 on its own (no fused
    multiply-add). *)
Definition ema_next (multiplier price prev : double) : double :=
  (price * multiplier + prev * (one - multiplier))%float.

Fixpoint ema_loop (multiplier prev : double) (prices : list double)
  : list double :=
  match prices with
  | [] => []
  | price :: rest =>
      let ema := ema_next multiplier price prev in
      ema :: ema_loop multiplier ema rest
  end.

Definition calculateEMA (prices : list double) (period : Z) : list double :=
  match prices with
  | [] => []
  | first :: rest =>
      if (period <=? 0)%Z then []
      else first :: ema_loop (ema_multiplier period) first rest
  end.

(** ** The candle window, [ZerodhaClient::getLastThreeCandles] *)

(** [std::setfill('0') << std::setw(2)] before an [int]. *)
Definition two_wide (n : Z) : string :=
  let digits := to_string_int n in
  if (String.length digits <? 2)%nat then "0" +:+ digits else digits.

(** The lambda [format5MinTimestamp]: the text it returns, or [None] when
    [std::stoi] throws [std::invalid_argument], which nothing catches.  The
    division of [minute / 5] is that of [int], towards zero. *)
Definition format5MinTimestamp (timestamp : string) : option string :=
  if (16 <=? String.length timestamp)%nat then
    let date_part := String.substring 0 10 timestamp in
    let time_part := String.substring 11 5 timestamp in
    hour ← stoi (String.substring 0 2 time_part);
    minute ← stoi (String.substring 3 2 time_part);
    let rounded_minute := (Z.quot minute 5 * 5)%Z in
    Some (date_part +:+ " " +:+ two_wide hour +:+ ":"
          +:+ two_wide rounded_minute)
  else Some timestamp.

(** How a call of [getLastThreeCandles] ends: with a snapshot; by the
    exception of [format5MinTimestamp]; or in undefined behaviour, on a read
    past the end of a vector ([candles[i]] and [ema_values[i]] are unchecked
    reads). *)
Inductive Window :=
  | Snapshot (data : LastThreeCandles)
  | StampThrows
  | OutOfBounds.

(** One of the three lines printed before the snapshot is filled: the
    timestamp is formatted first, then [ema_values[i]] is read (the operands
    of [<<] are evaluated from left to right). *)
Definition print_candle (candles : list CandleData) (ema_values : list double)
    (i : nat) (next : CandleData → double → Window) : Window :=
  match candles !! i with
  | None => OutOfBounds
  | Some candle =>
      match format5MinTimestamp (timestamp candle) with
      | None => StampThrows
      | Some _ =>
          match ema_values !! i with
          | None => OutOfBounds
          | Some ema => next candle ema
          end
      end
  end.

Definition getLastThreeCandles (candles : list CandleData)
    (ema_values : list double) : Window :=
  if bool_decide (3 ≤ length candles)%nat && bool_decide (3 ≤ length ema_values)%nat
  then
    let last_idx := (length candles - 1)%nat in
    let second_idx := (length candles - 2)%nat in
    let third_idx := (length candles - 3)%nat in
    print_candle candles ema_values third_idx (λ c_third e_third,
    print_candle candles ema_values second_idx (λ c_second e_second,
    print_candle candles ema_values last_idx (λ c_last e_last,
      Snapshot (mkLastThree
        (open c_last) (high c_last) (low c_last) (close c_last) e_last
        (open c_second) (high c_second) (low c_second) (close c_second)
        e_second
        (open c_third) (high c_third) (low c_third) (close c_third)
        e_third))))
  else Snapshot LastThreeCandles_default.

(** ** Positions, orders and the client's state *)

Record Instrument := mkInstrument {
  instrument_token : string;
  tradingsymbol : string;
  inst_name : string;
  exchange : string;
  instrument_type : string
}.

Record ActivePosition := mkPosition {
  pos_symbol : string;
  entry_order_id : string;
  stop_loss_order_id : string;
  target_order_id : string;
  pos_action : string;
  pos_entry_price : double;
  pos_stop_loss : double;
  pos_target : double;
  pos_quantity : Z;
  stop_loss_placed : bool;
  target_placed : bool
}.

(** The constructor [ActivePosition()]. *)
Definition ActivePosition_default : ActivePosition :=
  mkPosition "" "" "" "" "" zero zero zero 0 false false.

(** The form posted to [https://api.kite.trade/orders/regular]: the keys of
    [order_data], numbers before [std::to_string]. *)
Record OrderRequest := mkOrder {
  ord_tradingsymbol : string;
  ord_exchange : string;
  ord_transaction_type : string;
  ord_order_type : string;
  ord_quantity : Z;
  ord_product : string;
  ord_validity : string;
  ord_trigger_price : option double;
  ord_price : option double;
  ord_tag : string
}.

(** What the order functions read of a [cpr::Response]: the status code, and
    of [nlohmann::json::parse(response.text)] either an exception
    ([JsonThrows]: a parse error, or a type error at [json["status"]] or at
    the conversion of [json["data"]["order_id"]] to a string), or the string
    at ["status"] with the order id. *)
Inductive JsonBody :=
  | JsonThrows
  | JsonObject (status : string) (order_id : option string).

Record Response := mkResponse {
  status_code : Z;
  text : JsonBody
}.

(** What [parseHistoricalDataResponse] meets in the body of an answer:
    candles under ["status"] = ["success"]; another status; or an exception
    of the JSON library, at the parse or at a conversion, after [read]
    candles were pushed, which the function catches and then returns. *)
Inductive HistoricalBody :=
  | CandlesParsed (candles : list CandleData)
  | CandlesFailed
  | CandlesThrow (read : list CandleData).

Record HistoricalResponse := mkHistorical {
  historical_status_code : Z;
  historical_body : HistoricalBody
}.

(** An answer with status 200 and these candles. *)
Definition served (candles : list CandleData) : HistoricalResponse :=
  mkHistorical 200 (CandlesParsed candles).

(** The candles an answer gives to the caller of [getHistoricalData]. *)
Definition candles_of (response : HistoricalResponse) : list CandleData :=
  if (historical_status_code response =? 200)%Z then
    match historical_body response with
    | CandlesParsed candles => candles
    | CandlesFailed => []
    | CandlesThrow read => read
    end
  else [].

(** The two upstream services as one step of the loop meets them: the
    answer to the request [getHistoricalData] makes for a symbol and a
    timeframe, and the gateway's answer to an order.  Answers are functions
    of the request, and every step takes a market of its own: within one
    exit check or one symbol's evaluation no request is made twice, so no
    behaviour of the services is left out. *)
Record Market := mkMarket {
  historical : string → string → HistoricalResponse;
  order_reply : OrderRequest → Response
}.

(** Lines appended to [OrderLog.txt], the file taken to open. *)
Inductive LogEvent :=
  | LogOrder (symbol action order_id : string) (price : double)
      (quantity : Z) (order_type : string)
  | LogStopLossHit (symbol : string) (price : double)
  | LogTargetHit (symbol : string) (price : double).

(** The lines written to [std::cerr]: by the order functions, by
    [getHistoricalData] and [parseHistoricalDataResponse], by the functions
    that fill the instruments cache, and for a file that cannot be opened. *)
Inductive ErrorReport :=
  | ErrNotLoggedIn (what : string)
  | ErrOrderFailed (what : string)
  | ErrOrderResponse (what : string)
  | ErrOrderStatus (what : string) (status : Z)
  | ErrNoInstrumentToken (symbol : string)
  | ErrHistoricalStatus (symbol : string) (status : Z)
  | ErrHistoricalText (symbol : string)
  | ErrHistoricalFailed
  | ErrHistoricalResponse
  | ErrInstrumentsResponse
  | ErrInstrumentsFetch
  | ErrFileOpen (what : string).

(** The fields of [ZerodhaClient] the trading loop uses, with the effects
    it has on the outside: the order log, the orders posted and the error
    stream. *)
Record ZerodhaClient := mkClient {
  access_token_ : string;
  trade_settings_ : list TradeSetting;
  instruments_cache_ : gmap string Instrument;
  active_positions_ : gmap string ActivePosition;
  order_log : list LogEvent;
  orders_posted : list OrderRequest;
  cerr : list ErrorReport
}.

Definition set_positions (f : gmap string ActivePosition → gmap string ActivePosition)
    (c : ZerodhaClient) : ZerodhaClient :=
  mkClient (access_token_ c) (trade_settings_ c) (instruments_cache_ c)
    (f (active_positions_ c)) (order_log c) (orders_posted c) (cerr c).

(** ** A state monad over the client *)

Definition M (A : Type) : Type := ZerodhaClient → A * ZerodhaClient.

#[global] Instance M_ret : MRet M := λ A a c, (a, c).
#[global] Instance M_bind : MBind M :=
  λ A B f m c, let '(a, c') := m c in f a c'.

Definition get : M ZerodhaClient := λ c, (c, c).
Definition modify (f : ZerodhaClient → ZerodhaClient) : M unit :=
  λ c, (tt, f c).
Definition exec {A} (m : M A) (c : ZerodhaClient) : ZerodhaClient := (m c).2.
Definition eval {A} (m : M A) (c : ZerodhaClient) : A := (m c).1.

Fixpoint for_each {A} (body : A → M unit) (l : list A) : M unit :=
  match l with
  | [] => mret tt
  | x :: rest => body x ;; for_each body rest
  end.

Definition append_log (e : LogEvent) : M unit :=
  modify (λ c, mkClient (access_token_ c) (trade_settings_ c)
    (instruments_cache_ c) (active_positions_ c) (order_log c ++ [e])
    (orders_posted c) (cerr c)).

Definition report (e : ErrorReport) : M unit :=
  modify (λ c, mkClient (access_token_ c) (trade_settings_ c)
    (instruments_cache_ c) (active_positions_ c) (order_log c)
    (orders_posted c) (cerr c ++ [e])).

(** [makePostRequest] to the orders endpoint. *)
Definition makePostRequest (mkt : Market) (order_data : OrderRequest)
  : M Response :=
  modify (λ c, mkClient (access_token_ c) (trade_settings_ c)
    (instruments_cache_ c) (active_positions_ c) (order_log c)
    (orders_posted c ++ [order_data]) (cerr c)) ;;
  mret (order_reply mkt order_data).

Definition isLoggedIn (c : ZerodhaClient) : bool :=
  negb (String.eqb (access_token_ c) "").

Definition getInstrumentToken (c : ZerodhaClient) (symbol : string) : string :=
  match instruments_cache_ c !! symbol with
  | Some it => instrument_token it
  | None =>
      match instruments_cache_ c !! ("NSE:" +:+ symbol) with
      | Some it => instrument_token it
      | None => ""
      end
  end.

Definition getMatchedSymbols (c : ZerodhaClient) : list string :=
  ts_symbol <$>
    filter (λ setting, is_Some (instruments_cache_ c !! ts_symbol setting))
      (trade_settings_ c).

Definition parseHistoricalDataResponse (body : HistoricalBody)
  : M (list CandleData) :=
  match body with
  | CandlesParsed candles => mret candles
  | CandlesFailed => report ErrHistoricalFailed ;; mret []
  | CandlesThrow read => report ErrHistoricalResponse ;; mret read
  end.

(** On a status other than 200 two lines are written, the status and the
    text of the answer. *)
Definition getHistoricalData (mkt : Market) (symbol timeframe : string)
  : M (list CandleData) :=
  c ← get;
  if negb (isLoggedIn c)
  then report (ErrNotLoggedIn "historical data") ;; mret []
  else if String.eqb (getInstrumentToken c symbol) ""
  then report (ErrNoInstrumentToken symbol) ;; mret []
  else
    let response := historical mkt symbol timeframe in
    if (historical_status_code response =? 200)%Z
    then parseHistoricalDataResponse (historical_body response)
    else
      report (ErrHistoricalStatus symbol (historical_status_code response)) ;;
      report (ErrHistoricalText symbol) ;;
      mret [].

(** ** Position bookkeeping *)

Definition addActivePosition (symbol entry_order_id : string)
    (signal : TradeSignal) : M unit :=
  let position :=
    mkPosition symbol entry_order_id "" "" (sig_action signal)
      (sig_entry_price signal) (sig_stop_loss signal) (sig_target signal)
      (sig_quantity signal) false false in
  modify (set_positions (λ m, <[symbol := position]> m)).

Definition hasActivePosition (c : ZerodhaClient) (symbol : string) : bool :=
  bool_decide (is_Some (active_positions_ c !! symbol)).

Definition removeActivePosition (symbol : string) : M unit :=
  c ← get;
  if hasActivePosition c symbol
  then modify (set_positions (λ m, delete symbol m))
  else mret tt.

(** [active_positions_[symbol].field = true]: [operator[]] inserts a
    default position when the key is absent. *)
Definition update_position (symbol : string)
    (f : ActivePosition → ActivePosition) : M unit :=
  modify (set_positions (λ m,
    <[symbol := f (default ActivePosition_default (m !! symbol))]> m)).

Definition set_stop_loss_placed (p : ActivePosition) : ActivePosition :=
  mkPosition (pos_symbol p) (entry_order_id p) (stop_loss_order_id p)
    (target_order_id p) (pos_action p) (pos_entry_price p) (pos_stop_loss p)
    (pos_target p) (pos_quantity p) true (target_placed p).

Definition set_target_placed (p : ActivePosition) : ActivePosition :=
  mkPosition (pos_symbol p) (entry_order_id p) (stop_loss_order_id p)
    (target_order_id p) (pos_action p) (pos_entry_price p) (pos_stop_loss p)
    (pos_target p) (pos_quantity p) (stop_loss_placed p) true.

Definition logOrder (symbol action order_id : string) (price : double)
    (quantity : Z) (order_type : string) : M unit :=
  append_log (LogOrder symbol action order_id price quantity order_type).

Definition logStopLossHit (symbol : string) (price : double) : M unit :=
  append_log (LogStopLossHit symbol price).

Definition logTargetHit (symbol : string) (price : double) : M unit :=
  append_log (LogTargetHit symbol price).

(** ** Orders *)

Definition opposite (action : string) : string :=
  if String.eqb action "BUY" then "SELL" else "BUY".

(** The tail shared by the three order functions: read the response, and on
    success run [on_success] with the order id. *)
Definition handle_order_response (what : string) (response : Response)
    (on_success : string → M unit) : M bool :=
  if (status_code response =? 200)%Z then
    match text response with
    | JsonThrows => report (ErrOrderResponse what) ;; mret false
    | JsonObject status order_id =>
        if String.eqb status "success" then
          match order_id with
          | None => report (ErrOrderResponse what) ;; mret false
          | Some order_id => on_success order_id ;; mret true
          end
        else report (ErrOrderFailed what) ;; mret false
    end
  else report (ErrOrderStatus what (status_code response)) ;; mret false.

Definition placeStopLossOrder (mkt : Market) (symbol action : string)
    (stop_loss : double) (quantity : Z) : M bool :=
  c ← get;
  if negb (isLoggedIn c) then report (ErrNotLoggedIn "stop loss") ;; mret false
  else
    let order_data :=
      mkOrder symbol "NSE" (opposite action) "SL" quantity "MIS" "DAY"
        (Some stop_loss) (Some stop_loss) "TradingBot_SL" in
    response ← makePostRequest mkt order_data;
    handle_order_response "stop loss" response (λ order_id,
      logOrder symbol (opposite action) order_id stop_loss quantity "STOPLOSS").

Definition placeTargetOrder (mkt : Market) (symbol action : string)
    (target : double) (quantity : Z) : M bool :=
  c ← get;
  if negb (isLoggedIn c) then report (ErrNotLoggedIn "target") ;; mret false
  else
    let order_data :=
      mkOrder symbol "NSE" (opposite action) "LIMIT" quantity "MIS" "DAY"
        None (Some target) "TradingBot_TARGET" in
    response ← makePostRequest mkt order_data;
    handle_order_response "target" response (λ order_id,
      logOrder symbol (opposite action) order_id target quantity "TARGET").

Definition entry_transaction_type (action : string) : string :=
  if String.eqb action "BUY" || String.eqb action "BUY_STOPLOSS"
     || String.eqb action "SELL_TARGET"
  then "BUY" else "SELL".

Definition entry_order (signal : TradeSignal) : OrderRequest :=
  mkOrder (sig_symbol signal) "NSE"
    (entry_transaction_type (sig_action signal)) "MARKET"
    (sig_quantity signal) "MIS" "DAY" None None
    ("TradingBot_" +:+ sig_action signal).

Definition placeOrder (mkt : Market) (signal : TradeSignal) : M bool :=
  c ← get;
  if negb (isLoggedIn c) then report (ErrNotLoggedIn "order") ;; mret false
  else if String.eqb (sig_action signal) "" then mret false
  else
    response ← makePostRequest mkt (entry_order signal);
    handle_order_response "order" response (λ order_id,
      logOrder (sig_symbol signal) (sig_action signal) order_id
        (sig_entry_price signal) (sig_quantity signal) "ENTRY" ;;
      addActivePosition (sig_symbol signal) order_id signal ;;
      sl_ok ← placeStopLossOrder mkt (sig_symbol signal) (sig_action signal)
                (sig_stop_loss signal) (sig_quantity signal);
      (if sl_ok : bool
       then update_position (sig_symbol signal) set_stop_loss_placed
       else report (ErrOrderFailed "stop loss leg")) ;;
      tg_ok ← placeTargetOrder mkt (sig_symbol signal) (sig_action signal)
                (sig_target signal) (sig_quantity signal);
      (if tg_ok : bool
       then update_position (sig_symbol signal) set_target_placed
       else report (ErrOrderFailed "target leg"))).

(** ** The exit check, [ZerodhaClient::checkPositionStatus] *)

(** A [std::map] is walked in the order of its keys, which for
    [std::string] is the lexicographic order on bytes. *)
Definition key_le (a b : string * ActivePosition) : Prop :=
  String.leb a.1 b.1 = true.

#[global] Instance key_le_dec : RelDecision key_le.
Proof. intros a b. unfold key_le. apply _. Defined.

Definition positions_in_order (m : gmap string ActivePosition)
  : list (string * ActivePosition) :=
  merge_sort key_le (map_to_list m).

(** The body of the first loop; it returns [positions_to_remove]. *)
Definition check_position (mkt : Market) (positions_to_remove : list string)
    (entry : string * ActivePosition) : M (list string) :=
  let '(symbol, position) := entry in
  candles ← getHistoricalData mkt symbol "5minute";
  match last candles with
  | None => mret positions_to_remove
  | Some back =>
      let current_price := close back in
      if String.eqb (pos_action position) "BUY"
         && le current_price (pos_stop_loss position)
      then logStopLossHit symbol current_price ;;
           mret (positions_to_remove ++ [symbol])
      else if String.eqb (pos_action position) "SELL"
         && ge current_price (pos_stop_loss position)
      then logStopLossHit symbol current_price ;;
           mret (positions_to_remove ++ [symbol])
      else if String.eqb (pos_action position) "BUY"
         && ge current_price (pos_target position)
      then logTargetHit symbol current_price ;;
           mret (positions_to_remove ++ [symbol])
      else if String.eqb (pos_action position) "SELL"
         && le current_price (pos_target position)
      then logTargetHit symbol current_price ;;
           mret (positions_to_remove ++ [symbol])
      else mret positions_to_remove
  end.

Fixpoint check_positions (mkt : Market) (positions_to_remove : list string)
    (entries : list (string * ActivePosition)) : M (list string) :=
  match entries with
  | [] => mret positions_to_remove
  | entry :: rest =>
      positions_to_remove ← check_position mkt positions_to_remove entry;
      check_positions mkt positions_to_remove rest
  end.

Definition checkPositionStatus (mkt : Market) : M unit :=
  c ← get;
  positions_to_remove ←
    check_positions mkt [] (positions_in_order (active_positions_ c));
  for_each removeActivePosition positions_to_remove.

(** ** The trading loop, [ZerodhaClient::runTradingLoop] *)

(** The setting the loop reads for a symbol: the first one of that name,
    and ["5minute"] with period 20 when there is none. *)
Definition setting_for (c : ZerodhaClient) (symbol : string) : string * Z :=
  match filter (λ setting, ts_symbol setting = symbol) (trade_settings_ c) with
  | setting :: _ => (ts_timeframe setting, ts_ema_period setting)
  | [] => ("5minute", 20)
  end.

(** How a part of the loop ends: it runs to its end, or an exception
    leaves it.  Neither [runTradingLoop] nor [main] has a handler, so the
    program ends where the exception was thrown. *)
Inductive Ending := Completed | Thrown.

Fixpoint until_thrown {A} (body : A → M Ending) (l : list A) : M Ending :=
  match l with
  | [] => mret Completed
  | x :: rest =>
      ending ← body x;
      match ending with
      | Completed => until_thrown body rest
      | Thrown => mret Thrown
      end
  end.

(** The body of the loop over the matched symbols.  The EMA series it
    hands to [getLastThreeCandles] is as long as the candles or empty, so
    no read is out of bounds here ([loop_window_defined] below). *)
Definition process_symbol (mkt : Market) (symbol : string) : M Ending :=
  c ← get;
  if hasActivePosition c symbol then mret Completed
  else
    let '(timeframe, ema_period) := setting_for c symbol in
    candles ← getHistoricalData mkt symbol timeframe;
    if bool_decide (3 ≤ length candles)%nat then
      let close_prices := close <$> candles in
      let ema_values := calculateEMA close_prices ema_period in
      match getLastThreeCandles candles ema_values with
      | OutOfBounds => mret Completed
      | StampThrows => mret Thrown
      | Snapshot last_three =>
          let signal := analyzeStrategy symbol last_three in
          if negb (String.eqb (sig_action signal) "")
          then placeOrder mkt signal ;; mret Completed
          else mret Completed
      end
    else mret Completed.

(** What one iteration of [while (true)] sees: the local time, the market
    during the exit check, and the market while the [i]-th matched symbol is
    processed. *)
Record Tick := mkTick {
  tm_hour : Z;
  tm_min : Z;
  exit_market : Market;
  symbol_market : nat → Market
}.

Definition market_closed (t : Tick) : bool :=
  (tm_hour t <? 13)%Z || ((tm_hour t =? 13)%Z && (tm_min t <? 40)%Z)
  || (15 <? tm_hour t)%Z || ((tm_hour t =? 15)%Z && (30 <? tm_min t)%Z).

Fixpoint process_symbols (t : Tick) (i : nat) (symbols : list string)
  : M Ending :=
  match symbols with
  | [] => mret Completed
  | symbol :: rest =>
      ending ← process_symbol (symbol_market t i) symbol;
      match ending with
      | Completed => process_symbols t (S i) rest
      | Thrown => mret Thrown
      end
  end.

Definition trading_tick (t : Tick) : M Ending :=
  if market_closed t then mret Completed
  else
    checkPositionStatus (exit_market t) ;;
    c ← get;
    process_symbols t 0 (getMatchedSymbols c).

(** The loop never returns: [ticks] are the iterations run so far, up to
    the one an exception ends, if any. *)
Definition runTradingLoop (ticks : list Tick) : M Ending :=
  until_thrown trading_tick ticks.

(** ** Reading the log and the position table *)

(** An accepted entry order for [symbol], as [placeOrder] logs it. *)
Definition is_entry (symbol : string) (e : LogEvent) : bool :=
  match e with
  | LogOrder s _ _ _ _ order_type =>
      String.eqb s symbol && String.eqb order_type "ENTRY"
  | _ => false
  end.

(** A stop-loss or target hit for [symbol]. *)
Definition is_exit (symbol : string) (e : LogEvent) : bool :=
  match e with
  | LogStopLossHit s _ | LogTargetHit s _ => String.eqb s symbol
  | LogOrder _ _ _ _ _ _ => false
  end.

(** Entries accepted and not yet closed by a hit, by the log. *)
Definition live_positions (symbol : string) (log : list LogEvent) : Z :=
  Z.of_nat (length (filter (λ e, is_entry symbol e = true) log))
  - Z.of_nat (length (filter (λ e, is_exit symbol e = true) log)).

(** Positions held for [symbol] in the table. *)
Definition position_count (c : ZerodhaClient) (symbol : string) : nat :=
  length (filter (λ entry, entry.1 = symbol)
            (map_to_list (active_positions_ c))).

(** The client as [main] hands it to the loop: logged in or not, settings
    and instruments loaded, no position. *)
Definition initial_client (access_token : string)
    (settings : list TradeSetting) (instruments : gmap string Instrument)
  : ZerodhaClient :=
  mkClient access_token settings instruments ∅ [] [] [].

(** The steps the loop is made of, in any order. *)
Inductive LoopStep :=
  | ExitCheck (mkt : Market)
  | Evaluate (mkt : Market) (symbol : string).

Definition run_step (s : LoopStep) : M Ending :=
  match s with
  | ExitCheck mkt => checkPositionStatus mkt ;; mret Completed
  | Evaluate mkt symbol => process_symbol mkt symbol
  end.

(** The gateway took the entry order: status 200, ["status"] is
    ["success"], and an order id came back. *)
Definition entry_accepted (r : Response) : bool :=
  (status_code r =? 200)%Z &&
  match text r with
  | JsonObject status (Some _) => String.eqb status "success"
  | _ => false
  end.

(** The events a run appended to the log. *)
Definition new_events (before after : ZerodhaClient) : list LogEvent :=
  drop (length (order_log before)) (order_log after).

Definition about (symbol : string) (e : LogEvent) : bool :=
  match e with
  | LogOrder s _ _ _ _ _ | LogStopLossHit s _ | LogTargetHit s _ =>
      String.eqb s symbol
  end.

(** The client after [placeOrder] met a refusal: one more order posted, one
    more line on the error stream, nothing else touched. *)
Definition refused (c : ZerodhaClient) (order : OrderRequest)
    (err : ErrorReport) : ZerodhaClient :=
  mkClient (access_token_ c) (trade_settings_ c) (instruments_cache_ c)
    (active_positions_ c) (order_log c) (orders_posted c ++ [order])
    (cerr c ++ [err]).

(** The event the four-way test of [checkPositionStatus] logs for a
    position at a price, if any. *)
Definition exit_event (symbol : string) (position : ActivePosition)
    (current_price : double) : option LogEvent :=
  if String.eqb (pos_action position) "BUY"
     && le current_price (pos_stop_loss position)
  then Some (LogStopLossHit symbol current_price)
  else if String.eqb (pos_action position) "SELL"
     && ge current_price (pos_stop_loss position)
  then Some (LogStopLossHit symbol current_price)
  else if String.eqb (pos_action position) "BUY"
     && ge current_price (pos_target position)
  then Some (LogTargetHit symbol current_price)
  else if String.eqb (pos_action position) "SELL"
     && le current_price (pos_target position)
  then Some (LogTargetHit symbol current_price)
  else None.

(** The same with the price fetched: the close of the last candle. *)
Definition position_event (c : ZerodhaClient) (mkt : Market)
    (entry : string * ActivePosition) : option LogEvent :=
  back ← last (eval (getHistoricalData mkt entry.1 "5minute") c);
  exit_event entry.1 entry.2 (close back).

Definition with_log (c : ZerodhaClient) (log : list LogEvent)
  : ZerodhaClient :=
  mkClient (access_token_ c) (trade_settings_ c) (instruments_cache_ c)
    (active_positions_ c) log (orders_posted c) (cerr c).

(** [std::stoi] throws on the timestamp of the candle. *)
Definition stamp_throws (candle : CandleData) : bool :=
  if format5MinTimestamp (timestamp candle) is Some _ then false else true.

(** The client with more lines on the error stream, nothing else touched. *)
Definition complain (errs : list ErrorReport) (c : ZerodhaClient)
  : ZerodhaClient :=
  mkClient (access_token_ c) (trade_settings_ c) (instruments_cache_ c)
    (active_positions_ c) (order_log c) (orders_posted c) (cerr c ++ errs).

(** The lines and the orders a run added. *)
Definition new_errors (before after : ZerodhaClient) : list ErrorReport :=
  drop (length (cerr before)) (cerr after).

Definition new_orders (before after : ZerodhaClient) : list OrderRequest :=
  drop (length (orders_posted before)) (orders_posted after).

(** What one call of [getHistoricalData] writes to the error stream. *)
Definition fetch_errors (c : ZerodhaClient) (mkt : Market)
    (symbol timeframe : string) : list ErrorReport :=
  new_errors c (exec (getHistoricalData mkt symbol timeframe) c).

(** The log and the table agree: a symbol has one live entry when it has
    a position and none when it has not. *)
Definition book_consistent (c : ZerodhaClient) : Prop :=
  ∀ s, live_positions s (order_log c)
       = if hasActivePosition c s then 1%Z else 0%Z.

(** An event that neither opens nor closes a position. *)
Definition quiet (e : LogEvent) : Prop :=
  ∀ s, is_entry s e = false ∧ is_exit s e = false.

(** ** A running example: one symbol, INFY *)

Definition infy_instruments : gmap string Instrument :=
  {[ "INFY" := mkInstrument "408065" "INFY" "INFOSYS" "NSE" "EQ" ]}.

(** A logged-in client holding one INFY position. *)
Definition infy_holding (action : string) (stop_loss target : double)
  : ZerodhaClient :=
  mkClient "token" [mkSetting "INFY" 50 "5minute" 20] infy_instruments
    {[ "INFY" := mkPosition "INFY" "order-1" "" "" action 95 stop_loss
                   target 1 true true ]}
    [] [] [].

Definition flat_candle (price : double) : CandleData :=
  mkCandle "2025-07-18T11:55:00+0530" price price price price 100 0.

(** A market whose last close is [price] and whose gateway accepts. *)
Definition market_at (price : double) : Market :=
  mkMarket (λ _ _, served [flat_candle price])
    (λ _, mkResponse 200 (JsonObject "success" (Some "order-2"))).

(** Four rising candles, a BUY pattern under a 20-period EMA. *)
Definition rising_candles : list CandleData :=
  [mkCandle "2025-07-18T11:40:00+0530" 9.5 10.5 9 10 100 0;
   mkCandle "2025-07-18T11:45:00+0530" 11 12.5 10.5 12 100 0;
   mkCandle "2025-07-18T11:50:00+0530" 13 14.5 12.5 14 100 0;
   mkCandle "2025-07-18T11:55:00+0530" 15 16.5 14.5 16 100 0].

Definition rising_market : Market :=
  mkMarket (λ _ _, served rising_candles)
    (λ _, mkResponse 200 (JsonObject "success" (Some "order-1"))).

(** The INFY setting asks for 50 shares. *)
Definition infy_client : ZerodhaClient :=
  initial_client "token" [mkSetting "INFY" 50 "5minute" 20] infy_instruments.

(** One position at most for [symbol], in the table and by the log. *)
Definition one_position (c : ZerodhaClient) (symbol : string) : Prop :=
  (position_count c symbol ≤ 1)%nat
  ∧ live_positions symbol (order_log c) = Z.of_nat (position_count c symbol).

(** ** Orders and positions, spelled out *)

(** The order id of a reply the order functions take as a success: status
    200, ["status"] is ["success"], and an id under ["data"]. *)
Definition accepted_id (r : Response) : option string :=
  if (status_code r =? 200)%Z then
    match text r with
    | JsonObject status (Some order_id) =>
        if String.eqb status "success" then Some order_id else None
    | _ => None
    end
  else None.

(** The forms [placeStopLossOrder] and [placeTargetOrder] post for a
    signal. *)
Definition stop_loss_order (signal : TradeSignal) : OrderRequest :=
  mkOrder (sig_symbol signal) "NSE" (opposite (sig_action signal)) "SL"
    (sig_quantity signal) "MIS" "DAY"
    (Some (sig_stop_loss signal)) (Some (sig_stop_loss signal))
    "TradingBot_SL".

Definition target_order (signal : TradeSignal) : OrderRequest :=
  mkOrder (sig_symbol signal) "NSE" (opposite (sig_action signal)) "LIMIT"
    (sig_quantity signal) "MIS" "DAY" None (Some (sig_target signal))
    "TradingBot_TARGET".

(** The position [placeOrder] leaves for a signal whose entry got
    [order_id], the two flags telling which legs were accepted. *)
Definition opened_position (signal : TradeSignal) (order_id : string)
    (stop_loss_ok target_ok : bool) : ActivePosition :=
  mkPosition (sig_symbol signal) order_id "" "" (sig_action signal)
    (sig_entry_price signal) (sig_stop_loss signal) (sig_target signal)
    (sig_quantity signal) stop_loss_ok target_ok.

(** The line an accepted leg adds to the log. *)
Definition leg_event (signal : TradeSignal) (price : double)
    (order_type : string) (r : Response) : list LogEvent :=
  match accepted_id r with
  | Some order_id =>
      [LogOrder (sig_symbol signal) (opposite (sig_action signal)) order_id
         price (sig_quantity signal) order_type]
  | None => []
  end.

(** [c'] comes after [c]: same login, settings and instruments, and the
    three streams only grew. *)
Definition evolves (c c' : ZerodhaClient) : Prop :=
  access_token_ c' = access_token_ c
  ∧ trade_settings_ c' = trade_settings_ c
  ∧ instruments_cache_ c' = instruments_cache_ c
  ∧ order_log c `prefix_of` order_log c'
  ∧ orders_posted c `prefix_of` orders_posted c'
  ∧ cerr c `prefix_of` cerr c'.

(** An order as the trading loop posts them. *)
Definition loop_order (matched : list string) (o : OrderRequest) : Prop :=
  ord_tradingsymbol o ∈ matched
  ∧ ord_exchange o = "NSE" ∧ ord_product o = "MIS" ∧ ord_validity o = "DAY"
  ∧ ((ord_order_type o = "MARKET" ∧ ord_tag o = "TradingBot_" +:+ ord_transaction_type o
      ∧ ord_trigger_price o = None ∧ ord_price o = None)
     ∨ (ord_order_type o = "SL" ∧ ord_tag o = "TradingBot_SL"
        ∧ ord_trigger_price o = ord_price o ∧ is_Some (ord_price o))
     ∨ (ord_order_type o = "LIMIT" ∧ ord_tag o = "TradingBot_TARGET"
        ∧ ord_trigger_price o = None ∧ is_Some (ord_price o)))
  ∧ (ord_transaction_type o = "BUY" ∨ ord_transaction_type o = "SELL").

(** A position as the trading loop holds them. *)
Definition loop_position (matched : list string) (key : string)
    (p : ActivePosition) : Prop :=
  pos_symbol p = key
  ∧ key ∈ matched
  ∧ stop_loss_order_id p = "" ∧ target_order_id p = ""
  ∧ ((pos_action p = "BUY"
      ∧ pos_target p
        = (pos_entry_price p
           + two * (pos_entry_price p - pos_stop_loss p))%float)
     ∨ (pos_action p = "SELL"
        ∧ pos_target p
          = (pos_entry_price p
             - two * (pos_stop_loss p - pos_entry_price p))%float)).

(** One step of the loop, as far as the three properties above go. *)
Definition keeps_discipline (matched : list string)
    (c c' : ZerodhaClient) : Prop :=
  evolves c c'
  ∧ (Forall (loop_order matched) (orders_posted c) →
     Forall (loop_order matched) (orders_posted c'))
  ∧ (map_Forall (loop_position matched) (active_positions_ c) →
     map_Forall (loop_position matched) (active_positions_ c')).

(** A gateway that accepts the entry and the target leg and answers the
    stop-loss leg with HTTP 500. *)
Definition stop_loss_refusing : Market :=
  mkMarket (λ _ _, served rising_candles)
    (λ order,
       if String.eqb (ord_order_type order) "SL"
       then mkResponse 500 JsonThrows
       else mkResponse 200 (JsonObject "success" (Some "order-7"))).

(** ** Text: [std::getline], [CSVParser::splitCSVLine], [CSVParser::trim] *)

(** One [std::getline(stream, part, delim)] on a stream holding [s]: the
    characters before the first [delim], and what is left after it, or
    [None] when the end of the stream came first. *)
Fixpoint getline (delim : Ascii.ascii) (s : string) : string * option string :=
  match s with
  | EmptyString => (EmptyString, None)
  | String a rest =>
      if Ascii.eqb a delim then (EmptyString, Some rest)
      else let '(part, after) := getline delim rest in (String a part, after)
  end.

(** [while (std::getline(stream, part, delim)) parts.push_back(part)]: a
    read on an exhausted stream fails and ends the loop.  [fuel] bounds the
    number of reads; the length of [s] plus one is always enough. *)
Fixpoint read_all (delim : Ascii.ascii) (fuel : nat) (s : string) : list string :=
  match fuel with
  | O => []
  | S fuel =>
      match s with
      | EmptyString => []
      | String _ _ =>
          let '(part, after) := getline delim s in
          part :: match after with
                  | Some rest => read_all delim fuel rest
                  | None => []
                  end
      end
  end.

Definition comma : Ascii.ascii := Char.comma.
Definition newline : Ascii.ascii := Char.newline.
Definition quote : Ascii.ascii := Char.quote.

Definition splitCSVLine (line : string) : list string :=
  read_all comma (S (String.length line)) line.

(** The lines of a file or of a string stream, as the
    [while (std::getline(file, line))] loops see them. *)
Definition read_lines (content : string) : list string :=
  read_all newline (S (String.length content)) content.

(** The set [" \t\r\n"] of [trim]. *)
Definition is_space (a : Ascii.ascii) : bool :=
  Ascii.eqb a Char.space || Ascii.eqb a Char.tab
  || Ascii.eqb a Char.carriage_return || Ascii.eqb a Char.newline.

(** [str.find_first_not_of(" \t\r\n")] and [str.find_last_not_of(...)],
    [None] for [npos]. *)
Fixpoint find_first_not_of (s : string) : option nat :=
  match s with
  | EmptyString => None
  | String a rest =>
      if is_space a then S <$> find_first_not_of rest else Some O
  end.

Fixpoint find_last_not_of (s : string) : option nat :=
  match s with
  | EmptyString => None
  | String a rest =>
      match find_last_not_of rest with
      | Some i => Some (S i)
      | None => if is_space a then None else Some O
      end
  end.

(** [str.substr(pos, npos)]: everything from [pos] on. *)
Definition substr_from (pos : nat) (str : string) : string :=
  String.substring pos (String.length str - pos) str.

(** [end - start + 1] is computed on [size_t]: were [end] to be [npos],
    the sum would wrap around to [2^64 - start], which is no character for
    [start] zero and more than the string holds otherwise. *)
Definition trim (str : string) : string :=
  match find_first_not_of str with
  | None => EmptyString
  | Some start =>
      match find_last_not_of str with
      | None =>
          if (start =? 0)%nat then EmptyString else substr_from start str
      | Some last_index =>
          String.substring start (last_index - start + 1) str
      end
  end.

(** Whitespace only; no whitespace at either end. *)
Fixpoint all_space (s : string) : bool :=
  match s with
  | EmptyString => true
  | String a rest => is_space a && all_space rest
  end.

Definition starts_clean (s : string) : bool :=
  match s with
  | EmptyString => true
  | String a _ => negb (is_space a)
  end.

Fixpoint ends_clean (s : string) : bool :=
  match s with
  | EmptyString => true
  | String a EmptyString => negb (is_space a)
  | String _ rest => ends_clean rest
  end.

Definition trimmed (s : string) : bool := starts_clean s && ends_clean s.

(** The two halves of [trim], by recursion on the string. *)
Fixpoint lstrip (s : string) : string :=
  match s with
  | EmptyString => EmptyString
  | String a rest => if is_space a then lstrip rest else s
  end.

Fixpoint rstrip (s : string) : string :=
  match s with
  | EmptyString => EmptyString
  | String a rest =>
      match rstrip rest with
      | EmptyString => if is_space a then EmptyString else String a EmptyString
      | kept => String a kept
      end
  end.

(** No character of [s] is [a]. *)
Fixpoint free_of (a : Ascii.ascii) (s : string) : bool :=
  match s with
  | EmptyString => true
  | String b rest => negb (Ascii.eqb b a) && free_of a rest
  end.

(** The parts written one after the other with [delim] between them, as the
    CSV writers do with [<< "," <<]. *)
Fixpoint join_with (delim : Ascii.ascii) (parts : list string) : string :=
  match parts with
  | [] => EmptyString
  | [part] => part
  | part :: rest => part +:+ String delim (join_with delim rest)
  end.

Definition join_fields (fields : list string) : string :=
  join_with comma fields.

(** ** [CSVParser::parseCSVString] and [CSVParser::parseCredentials] *)

(** [row[headers[i]] = trim(parts[i])] for [i] below both sizes. *)
Definition csv_row (headers parts : list string) : gmap string string :=
  foldl (λ row cell, <[cell.1 := trim cell.2]> row) ∅ (zip headers parts).

Definition parseCSVString (csvText : string) : list (gmap string string) :=
  match filter (λ line, line ≠ EmptyString) (read_lines csvText) with
  | [] => []
  | first_line :: lines =>
      let headers := trim <$> splitCSVLine first_line in
      (λ line, csv_row headers (splitCSVLine line)) <$> lines
  end.

(** The file as [std::ifstream] finds it: [None] when it cannot be opened,
    its content otherwise. *)
Definition credentials_line (credentials : gmap string string)
    (line : string) : gmap string string :=
  match splitCSVLine line with
  | key :: value :: _ => <[trim key := trim value]> credentials
  | _ => credentials
  end.

Definition parseCredentials (file : option string) : gmap string string :=
  match file with
  | None => ∅
  | Some content =>
      foldl credentials_line ∅
        (filter (λ line, line ≠ EmptyString) (read_lines content))
  end.

(** The two fields [loadCredentials] writes. *)
Record Credentials := mkCredentials {
  api_key_ : string;
  api_secret_ : string
}.

Definition loadCredentials (file : option string) (client : Credentials)
  : bool * Credentials :=
  let credentials := parseCredentials file in
  match credentials !! "API_KEY" with
  | Some key =>
      match credentials !! "API_SECRET" with
      | Some secret => (true, mkCredentials key secret)
      | None => (false, mkCredentials key (api_secret_ client))
      end
  | None => (false, client)
  end.

(** ** The instruments cache *)

(** Of the client the functions below write [instruments_cache_] and the
    error stream. *)
Definition set_instruments
    (f : gmap string Instrument → gmap string Instrument)
    (c : ZerodhaClient) : ZerodhaClient :=
  mkClient (access_token_ c) (trade_settings_ c) (f (instruments_cache_ c))
    (active_positions_ c) (order_log c) (orders_posted c) (cerr c).

(** [instruments_cache_[inst.tradingsymbol] = inst]. *)
Definition add_instrument (cache : gmap string Instrument)
    (inst : Instrument) : gmap string Instrument :=
  <[tradingsymbol inst := inst]> cache.

Definition row_instrument (row : gmap string string) : option Instrument :=
  match row !! "instrument_token", row !! "tradingsymbol" with
  | Some token, Some symbol =>
      Some (mkInstrument token symbol
              (default EmptyString (row !! "name"))
              (default EmptyString (row !! "exchange"))
              (default EmptyString (row !! "instrument_type")))
  | _, _ => None
  end.

Definition is_nse_equity (inst : Instrument) : bool :=
  String.eqb (exchange inst) "NSE" && String.eqb (instrument_type inst) "EQ".

Definition add_row (cache : gmap string Instrument)
    (row : gmap string string) : gmap string Instrument :=
  match row_instrument row with
  | Some inst => if is_nse_equity inst then add_instrument cache inst else cache
  | None => cache
  end.

Definition parseInstrumentsResponse (response_text : string) : M bool :=
  match parseCSVString response_text with
  | [] => report ErrInstrumentsResponse ;; mret false
  | rows =>
      modify (set_instruments (λ _, foldl add_row ∅ rows));;
      c ← get;
      mret (negb (bool_decide (instruments_cache_ c = ∅)))
  end.

(** The answer to a [makeRequest]: here the body is text. *)
Record HttpReply := mkReply {
  reply_status_code : Z;
  reply_text : string
}.

Definition urls_to_try : list string :=
  [ "https://api.kite.trade/instruments/NSE";
    "https://api.kite.trade/instruments";
    "https://api.kite.trade/instruments/NFO" ].

(** The two formats [fetchInstruments] hands on to the parser. *)
Definition recognised (response_text : string) : bool :=
  String.prefix "instrument_token,exchange_token" response_text
  || match response_text with
     | String a _ => Ascii.eqb a Char.brace || Ascii.eqb a Char.bracket
     | EmptyString => false
     end.

(** The loop over [urls_to_try]; [true] stands for its [return true]. *)
Fixpoint try_urls (http : string → HttpReply) (urls : list string) : M bool :=
  match urls with
  | [] => mret false
  | url :: rest =>
      let response := http url in
      if (reply_status_code response =? 200)
         && negb (String.eqb (reply_text response) EmptyString)
         && recognised (reply_text response)
      then
        parsed ← parseInstrumentsResponse (reply_text response);
        if parsed : bool then mret true else try_urls http rest
      else try_urls http rest
  end.

Definition common_symbols : list string :=
  [ "RELIANCE"; "TCS"; "HDFCBANK"; "INFY"; "ICICIBANK"; "HINDUNILVR"; "ITC";
    "SBIN"; "BHARTIARTL"; "KOTAKBANK" ].

Definition fallback_instrument (i : nat) (symbol : string) : Instrument :=
  mkInstrument (to_string (1000000 + N.of_nat i)) symbol symbol "NSE" "EQ".

Definition fetchInstruments (http : string → HttpReply) : M bool :=
  c ← get;
  if negb (isLoggedIn c)
  then report (ErrNotLoggedIn "instruments") ;; mret false
  else
    fetched ← try_urls http urls_to_try;
    if fetched : bool then mret true
    else
      report ErrInstrumentsFetch ;;
      modify (set_instruments (λ _,
        foldl add_instrument ∅ (imap fallback_instrument common_symbols)));;
      mret true.

(** ** The instruments file *)

Definition symbol_le {A} (a b : string * A) : Prop :=
  String.leb a.1 b.1 = true.

#[global] Instance symbol_le_dec {A} : RelDecision (@symbol_le A).
Proof. intros a b. unfold symbol_le. apply _. Defined.

(** A [std::map] of instruments is gone through in the order of its keys. *)
Definition instruments_in_order (m : gmap string Instrument)
  : list (string * Instrument) :=
  merge_sort symbol_le (map_to_list m).

Definition instruments_header : string :=
  "instrument_token,tradingsymbol,name,exchange,instrument_type,segment,lot_size,tick_size".

Definition quoted (name : string) : string :=
  String quote (name +:+ String quote EmptyString).

Definition instrument_fields (inst : Instrument) : list string :=
  [ instrument_token inst; tradingsymbol inst; quoted (inst_name inst);
    exchange inst; instrument_type inst; "NSE"; "1"; "0.05" ].

(** Lines written one after the other, each closed by a newline. *)
Fixpoint write_lines (lines : list string) : string :=
  match lines with
  | [] => EmptyString
  | line :: rest => line +:+ String newline (write_lines rest)
  end.

(** What [saveInstrumentsToCSV] writes, the file taken to open: [None] when
    it returns [false] and writes nothing. *)
Definition saveInstrumentsToCSV (c : ZerodhaClient) : option string :=
  if bool_decide (instruments_cache_ c = ∅) then None
  else
    Some (write_lines
            (instruments_header
             :: ((λ pair, join_fields (instrument_fields pair.2))
                   <$> instruments_in_order (instruments_cache_ c)))).

Definition line_instrument (line : string) : option Instrument :=
  match splitCSVLine line with
  | token :: symbol :: name :: exch :: type :: _ =>
      Some (mkInstrument token symbol name exch type)
  | _ => None
  end.

Definition add_line (cache : gmap string Instrument) (line : string)
  : gmap string Instrument :=
  match line_instrument line with
  | Some inst => add_instrument cache inst
  | None => cache
  end.

Definition loadInstrumentsFromCSV (file : option string) : M bool :=
  match file with
  | None => report (ErrFileOpen "instruments") ;; mret false
  | Some content =>
      let lines :=
        match (getline newline content).2 with
        | Some rest => read_lines rest
        | None => []
        end in
      modify (set_instruments (λ _,
        foldl add_line ∅ (filter (λ line, line ≠ EmptyString) lines)));;
      mret true
  end.

(** The instrument as it comes back from the file: the name keeps the
    quotes it was written in. *)
Definition reloaded (inst : Instrument) : Instrument :=
  mkInstrument (instrument_token inst) (tradingsymbol inst)
    (quoted (inst_name inst)) (exchange inst) (instrument_type inst).

Definition csv_safe (s : string) : bool :=
  free_of comma s && free_of newline s.

Definition instrument_safe (inst : Instrument) : bool :=
  csv_safe (instrument_token inst) && csv_safe (tradingsymbol inst)
  && csv_safe (inst_name inst) && csv_safe (exchange inst)
  && csv_safe (instrument_type inst).

(** Every entry is an NSE equity filed under its own trading symbol. *)
Definition nse_equities (cache : gmap string Instrument) : Prop :=
  map_Forall (λ symbol inst,
    tradingsymbol inst = symbol ∧ is_nse_equity inst = true) cache.

(** A cell a line of a CSV file gives back as it is: no comma, no newline,
    no whitespace at either end. *)
Definition clean_cell (s : string) : bool := csv_safe s && trimmed s.

(** Every instrument can be written to the instruments file and read
    back. *)
Definition file_safe (cache : gmap string Instrument) : Prop :=
  map_Forall (λ _ inst, instrument_safe inst = true) cache.

Definition credentials_file (pairs : list (string * string)) : string :=
  write_lines ((λ pair, join_fields [pair.1; pair.2]) <$> pairs).

(** ** [loadTradeSettings] *)

(** One [std::getline(ss, field, ',')] on the stream of a line: [None]
    when the read fails, the stream being exhausted. *)
Definition next_field (stream : option string)
  : option (string * option string) :=
  match stream with
  | Some (String a rest) => Some (getline comma (String a rest))
  | _ => None
  end.

(** What a line of the settings file comes to: it is passed over, or
    [std::stoi] throws, or it gives a setting. *)
Inductive LineOutcome :=
  | LineSkipped
  | LineThrows
  | LineSetting (setting : TradeSetting).

Definition read_numbers (symbol quantity_str timeframe ema_period_str : string)
  : LineOutcome :=
  match stoi quantity_str with
  | None => LineThrows
  | Some quantity =>
      match stoi ema_period_str with
      | None => LineThrows
      | Some ema_period =>
          LineSetting (mkSetting symbol quantity timeframe ema_period)
      end
  end.

Definition read_setting (line : string) : LineOutcome :=
  match next_field (Some line) with
  | None => LineSkipped
  | Some (symbol, stream) =>
      match next_field stream with
      | None => LineSkipped
      | Some (quantity_str, stream) =>
          match next_field stream with
          | None => LineSkipped
          | Some (timeframe, stream) =>
              match next_field stream with
              | None => LineSkipped
              | Some (ema_period_str, _) =>
                  read_numbers symbol quantity_str timeframe ema_period_str
              end
          end
      end
  end.

Definition set_trade_settings
    (f : list TradeSetting → list TradeSetting) (c : ZerodhaClient)
  : ZerodhaClient :=
  mkClient (access_token_ c) (f (trade_settings_ c)) (instruments_cache_ c)
    (active_positions_ c) (order_log c) (orders_posted c) (cerr c).

(** The loop over the lines; [false] when an exception ended it. *)
Fixpoint read_settings (lines : list string) : M bool :=
  match lines with
  | [] => mret true
  | line :: rest =>
      match read_setting line with
      | LineSkipped => read_settings rest
      | LineThrows => mret false
      | LineSetting setting =>
          modify (set_trade_settings (λ settings, settings ++ [setting]));;
          read_settings rest
      end
  end.

(** [loadTradeSettings]: [None] when an exception of [std::stoi] leaves
    it, no handler being in the way. *)
Definition loadTradeSettings (file : option string) : M (option bool) :=
  match file with
  | None => report (ErrFileOpen "trade settings") ;; mret (Some false)
  | Some content =>
      let lines :=
        match (getline newline content).2 with
        | Some rest => read_lines rest
        | None => []
        end in
      modify (set_trade_settings (λ _, []));;
      completed ← read_settings (filter (λ line, line ≠ EmptyString) lines);
      mret (if completed : bool then Some true else None)
  end.

(** A settings file as [loadTradeSettings] reads it: a first line, then
    [symbol,quantity,timeframe,ema_period] for each setting. *)
Definition setting_fields (setting : TradeSetting) : list string :=
  [ ts_symbol setting; to_string_int (ts_quantity setting);
    ts_timeframe setting; to_string_int (ts_ema_period setting) ].

Definition settings_file (header : string) (settings : list TradeSetting)
  : string :=
  write_lines (header :: (join_fields ∘ setting_fields <$> settings)).

Definition is_int (z : Z) : bool := (INT_MIN <=? z) && (z <=? INT_MAX).

Definition setting_safe (setting : TradeSetting) : bool :=
  csv_safe (ts_symbol setting) && csv_safe (ts_timeframe setting)
  && is_int (ts_quantity setting) && is_int (ts_ema_period setting).

(** The fields still to be read from the stream of a line. *)
Definition fields_from (stream : option string) : list string :=
  match stream with
  | Some s => splitCSVLine s
  | None => []
  end.

(** What a stretch of the loop did about [symbol] when it left its position
    alone: it logged nothing about it, and posted at most [n] orders for
    it, MARKET orders all. *)
Definition left_alone (symbol : string) (n : nat) (c c' : ZerodhaClient)
  : Prop :=
  active_positions_ c' !! symbol = active_positions_ c !! symbol
  ∧ ∃ events orders,
      order_log c' = order_log c ++ events
      ∧ orders_posted c' = orders_posted c ++ orders
      ∧ filter (λ e, about symbol e = true) events = []
      ∧ (length (filter (λ o, ord_tradingsymbol o = symbol) orders) ≤ n)%nat
      ∧ Forall (λ o, ord_tradingsymbol o = symbol → ord_order_type o = "MARKET")
          orders.

(** The fetches of one iteration inside the trading window: one for each
    position held, in [checkPositionStatus], and one for each matched
    symbol without a position, in the loop over the symbols. *)
Definition fetches_of_a_tick (c : ZerodhaClient) : nat :=
  size (active_positions_ c)
  + length (filter (λ s, hasActivePosition c s = false) (getMatchedSymbols c)).

(** * Properties *)

(** ** Binary64 facts *)

Section Binary64.

Lemma SFcompare_antisym (a b : spec_float) :
  SFcompare b a = option_map CompOpp (SFcompare a b).
Proof.
  destruct a as [sa|sa| |sa ma ea], b as [sb|sb| |sb mb eb]; simpl;
    try reflexivity; try (destruct sa; reflexivity);
    try (destruct sb; reflexivity);
    try (destruct sa, sb; reflexivity).
  destruct sa, sb; simpl; try reflexivity;
    rewrite (Z.compare_antisym ea eb);
    destruct (ea ?= eb)%Z; simpl; try reflexivity;
    rewrite (Pos.compare_cont_antisym ma mb Eq); simpl;
    try rewrite CompOpp_involutive; reflexivity.
Qed.

Lemma lt_asym (x y : double) : lt x y = true → lt y x = false.
Proof.
  unfold lt. rewrite !FloatAxioms.ltb_spec. unfold SFltb.
  rewrite (SFcompare_antisym (Prim2SF x) (Prim2SF y)).
  destruct (SFcompare (Prim2SF x) (Prim2SF y)) as [[]|]; simpl; congruence.
Qed.

Lemma gt_lt (x y : double) : gt x y = lt y x.
Proof. reflexivity. Qed.

Lemma SFcompare_refl (x : spec_float) :
  x ≠ S754_nan → SFcompare x x = Some Eq.
Proof.
  destruct x as [s|s| |s m e]; intros Hx; simpl; try done.
  - by destruct s.
  - destruct s; rewrite Z.compare_refl, Pos.compare_cont_refl; reflexivity.
Qed.

Lemma SFcompare_defined (x y : spec_float) :
  x ≠ S754_nan → y ≠ S754_nan → is_Some (SFcompare x y).
Proof.
  destruct x as [s|s| |s m e], y as [s'|s'| |s' m' e']; intros Hx Hy;
    simpl; try done; eauto.
Qed.

Lemma is_nan_false (x : double) : is_nan x = false → Prim2SF x ≠ S754_nan.
Proof. unfold is_nan. by destruct (Prim2SF x). Qed.

Lemma is_finite_not_nan (x : double) :
  is_finite x = true → Prim2SF x ≠ S754_nan.
Proof. unfold is_finite. by destruct (Prim2SF x). Qed.

Lemma le_refl (x : double) : is_nan x = false → le x x = true.
Proof.
  intros Hx. unfold le. rewrite FloatAxioms.leb_spec. unfold SFleb.
  by rewrite SFcompare_refl by by apply is_nan_false.
Qed.

Lemma lt_le (x y : double) : lt x y = true → le x y = true.
Proof.
  unfold lt, le. rewrite FloatAxioms.ltb_spec, FloatAxioms.leb_spec.
  unfold SFltb, SFleb.
  by destruct (SFcompare (Prim2SF x) (Prim2SF y)) as [[]|].
Qed.

Lemma not_lt_le (x y : double) :
  is_nan x = false → is_nan y = false → lt y x = false → le x y = true.
Proof.
  intros Hx Hy. unfold lt, le.
  rewrite FloatAxioms.ltb_spec, FloatAxioms.leb_spec.
  unfold SFltb, SFleb.
  rewrite (SFcompare_antisym (Prim2SF y) (Prim2SF x)).
  destruct (SFcompare_defined (Prim2SF y) (Prim2SF x)) as [cmp ->];
    [by apply is_nan_false | by apply is_nan_false |].
  by destruct cmp.
Qed.

(** Away from NaN, [std::min] is below both arguments and [std::max] above
    both. *)
Lemma std_min_below (a b : double) :
  is_nan a = false → is_nan b = false →
  le (std_min a b) a = true ∧ le (std_min a b) b = true.
Proof.
  intros Ha Hb. unfold std_min. destruct (lt b a) eqn:Hlt.
  - split; [by apply lt_le | by apply le_refl].
  - split; [by apply le_refl | by apply not_lt_le].
Qed.

Lemma std_max_above (a b : double) :
  is_nan a = false → is_nan b = false →
  ge (std_max a b) a = true ∧ ge (std_max a b) b = true.
Proof.
  intros Ha Hb. unfold std_max, ge. destruct (lt a b) eqn:Hlt.
  - split; [by apply lt_le | by apply le_refl].
  - split; [by apply le_refl | by apply not_lt_le].
Qed.

End Binary64.

(** ** The signal rule *)

Lemma buy_conditions_iff (data : LastThreeCandles) :
  buy_conditions data = true ↔
    lt (third_open data) (third_close data) = true ∧
    lt (second_open data) (second_close data) = true ∧
    gt (second_close data) (second_ema data) = true ∧
    gt (third_close data) (third_ema data) = true ∧
    gt (last_close data) (last_ema data) = true ∧
    gt (last_close data) (second_high data) = true.
Proof. unfold buy_conditions. rewrite !andb_true_iff. tauto. Qed.

Lemma sell_conditions_iff (data : LastThreeCandles) :
  sell_conditions data = true ↔
    gt (third_open data) (third_close data) = true ∧
    gt (second_open data) (second_close data) = true ∧
    lt (second_close data) (second_ema data) = true ∧
    lt (third_close data) (third_ema data) = true ∧
    lt (last_close data) (last_ema data) = true ∧
    lt (last_close data) (second_low data) = true.
Proof. unfold sell_conditions. rewrite !andb_true_iff. tauto. Qed.

Lemma buy_excludes_sell (data : LastThreeCandles) :
  buy_conditions data = true → sell_conditions data = false.
Proof.
  rewrite buy_conditions_iff. intros (Hthird & _).
  apply not_true_is_false. rewrite sell_conditions_iff.
  intros (Hthird' & _). rewrite gt_lt in Hthird'.
  apply lt_asym in Hthird. congruence.
Qed.

(** C6: no snapshot satisfies the BUY rule and the SELL rule at once, so
    one evaluation fires at most one of the two branches. *)
Theorem buy_sell_mutually_exclusive (data : LastThreeCandles) :
  ¬ ((lt (third_open data) (third_close data) = true ∧
      lt (second_open data) (second_close data) = true ∧
      gt (second_close data) (second_ema data) = true ∧
      gt (third_close data) (third_ema data) = true ∧
      gt (last_close data) (last_ema data) = true ∧
      gt (last_close data) (second_high data) = true)
     ∧
     (gt (third_open data) (third_close data) = true ∧
      gt (second_open data) (second_close data) = true ∧
      lt (second_close data) (second_ema data) = true ∧
      lt (third_close data) (third_ema data) = true ∧
      lt (last_close data) (last_ema data) = true ∧
      lt (last_close data) (second_low data) = true))
  ∧ buy_conditions data && sell_conditions data = false.
Proof.
  split.
  - rewrite <- buy_conditions_iff, <- sell_conditions_iff.
    intros [Hb Hs]. apply buy_excludes_sell in Hb. congruence.
  - destruct (buy_conditions data) eqn:Hb; [|reflexivity].
    simpl. by apply buy_excludes_sell.
Qed.

Lemma analyzeStrategy_buy (symbol : string) (data : LastThreeCandles) :
  buy_conditions data = true →
  analyzeStrategy symbol data =
    mkSignal symbol "BUY" (last_close data)
      (std_min (second_low data) (third_low data))
      (last_close data
       + two * (last_close data - std_min (second_low data) (third_low data)))%float
      1.
Proof. intros Hb. unfold analyzeStrategy. by rewrite Hb. Qed.

Lemma analyzeStrategy_sell (symbol : string) (data : LastThreeCandles) :
  sell_conditions data = true →
  analyzeStrategy symbol data =
    mkSignal symbol "SELL" (last_close data)
      (std_max (second_high data) (third_high data))
      (last_close data
       - two * (std_max (second_high data) (third_high data) - last_close data))%float
      1.
Proof.
  intros Hs. unfold analyzeStrategy.
  destruct (buy_conditions data) eqn:Hb.
  - apply buy_excludes_sell in Hb. congruence.
  - by rewrite Hs.
Qed.

Lemma analyzeStrategy_none (symbol : string) (data : LastThreeCandles) :
  buy_conditions data = false → sell_conditions data = false →
  analyzeStrategy symbol data = mkSignal symbol "" zero zero zero 1.
Proof. intros Hb Hs. unfold analyzeStrategy. by rewrite Hb, Hs. Qed.

(** C2: the signal is BUY exactly when the six BUY conditions hold, with
    entry at the last close, stop loss at [std::min] of the second and
    third lows (the lesser of the two, away from NaN) and target
    [entry + 2 * (entry - stop)]; it is SELL exactly when the six mirrored
    conditions hold, with stop loss at [std::max] of the second and third
    highs and target [entry - 2 * (stop - entry)]; otherwise the action is
    empty and no level is set. *)
Theorem analyzeStrategy_rule (symbol : string) (data : LastThreeCandles) :
  let signal := analyzeStrategy symbol data in
  (sig_action signal = "BUY" ↔
     lt (third_open data) (third_close data) = true ∧
     lt (second_open data) (second_close data) = true ∧
     gt (second_close data) (second_ema data) = true ∧
     gt (third_close data) (third_ema data) = true ∧
     gt (last_close data) (last_ema data) = true ∧
     gt (last_close data) (second_high data) = true)
  ∧ (sig_action signal = "BUY" →
     sig_entry_price signal = last_close data ∧
     sig_stop_loss signal = std_min (second_low data) (third_low data) ∧
     (is_nan (second_low data) = false → is_nan (third_low data) = false →
      le (sig_stop_loss signal) (second_low data) = true ∧
      le (sig_stop_loss signal) (third_low data) = true) ∧
     sig_target signal =
       (sig_entry_price signal
        + two * (sig_entry_price signal - sig_stop_loss signal))%float)
  ∧ (sig_action signal = "SELL" ↔
     gt (third_open data) (third_close data) = true ∧
     gt (second_open data) (second_close data) = true ∧
     lt (second_close data) (second_ema data) = true ∧
     lt (third_close data) (third_ema data) = true ∧
     lt (last_close data) (last_ema data) = true ∧
     lt (last_close data) (second_low data) = true)
  ∧ (sig_action signal = "SELL" →
     sig_entry_price signal = last_close data ∧
     sig_stop_loss signal = std_max (second_high data) (third_high data) ∧
     (is_nan (second_high data) = false → is_nan (third_high data) = false →
      ge (sig_stop_loss signal) (second_high data) = true ∧
      ge (sig_stop_loss signal) (third_high data) = true) ∧
     sig_target signal =
       (sig_entry_price signal
        - two * (sig_stop_loss signal - sig_entry_price signal))%float)
  ∧ (sig_action signal ≠ "BUY" → sig_action signal ≠ "SELL" →
     signal = mkSignal symbol "" zero zero zero 1)
  ∧ sig_symbol signal = symbol.
Proof.
  intros signal. subst signal.
  rewrite <- buy_conditions_iff, <- sell_conditions_iff.
  destruct (buy_conditions data) eqn:Hb.
  - pose proof (buy_excludes_sell data Hb) as Hs.
    rewrite (analyzeStrategy_buy symbol data Hb), Hs. simpl.
    repeat split; try done; by apply std_min_below.
  - destruct (sell_conditions data) eqn:Hs.
    + rewrite (analyzeStrategy_sell symbol data Hs). simpl.
      repeat split; try done; by apply std_max_above.
    + rewrite (analyzeStrategy_none symbol data Hb Hs). simpl.
      repeat split; try done.
Qed.

Lemma ema_loop_length (multiplier prev : double) (prices : list double) :
  length (ema_loop multiplier prev prices) = length prices.
Proof.
  revert prev. induction prices as [|p rest IH]; intros prev; simpl;
    [reflexivity | by rewrite IH].
Qed.

Lemma calculateEMA_length (prices : list double) (period : Z) :
  (0 < period)%Z → length (calculateEMA prices period) = length prices.
Proof.
  intros Hp. destruct prices as [|first rest]; simpl; [reflexivity|].
  rewrite (proj2 (Z.leb_gt period 0)) by lia. simpl.
  by rewrite ema_loop_length.
Qed.

(** The recurrence, on the list [prev :: ema_loop multiplier prev prices]. *)
(** ** The candle window *)

Lemma getLastThreeCandles_short (candles : list CandleData)
    (ema_values : list double) :
  (length candles < 3 ∨ length ema_values < 3)%nat →
  getLastThreeCandles candles ema_values = Snapshot LastThreeCandles_default.
Proof.
  intros Hshort. unfold getLastThreeCandles.
  destruct (bool_decide (3 ≤ length candles)%nat) eqn:Hc; simpl; [|done].
  destruct (bool_decide (3 ≤ length ema_values)%nat) eqn:He; simpl; [|done].
  apply bool_decide_eq_true in Hc, He. lia.
Qed.

Lemma print_candle_read (candles : list CandleData) (ema_values : list double)
    (i : nat) (next : CandleData → double → Window) (candle : CandleData)
    (ema : double) :
  candles !! i = Some candle → ema_values !! i = Some ema →
  print_candle candles ema_values i next
  = if stamp_throws candle then StampThrows else next candle ema.
Proof.
  intros Hcandle Hema. unfold print_candle, stamp_throws.
  rewrite Hcandle, Hema. by destruct (format5MinTimestamp _).
Qed.

Lemma getLastThreeCandles_aligned (candles : list CandleData)
    (ema_values : list double) :
  (3 ≤ length candles)%nat → (length candles ≤ length ema_values)%nat →
  ∃ c_third c_second c_last e_third e_second e_last,
    candles !! (length candles - 3)%nat = Some c_third ∧
    candles !! (length candles - 2)%nat = Some c_second ∧
    candles !! (length candles - 1)%nat = Some c_last ∧
    ema_values !! (length candles - 3)%nat = Some e_third ∧
    ema_values !! (length candles - 2)%nat = Some e_second ∧
    ema_values !! (length candles - 1)%nat = Some e_last ∧
    getLastThreeCandles candles ema_values =
      if stamp_throws c_third || stamp_throws c_second || stamp_throws c_last
      then StampThrows
      else
        Snapshot (mkLastThree
                    (open c_last) (high c_last) (low c_last) (close c_last)
                    e_last
                    (open c_second) (high c_second) (low c_second)
                    (close c_second) e_second
                    (open c_third) (high c_third) (low c_third)
                    (close c_third) e_third).
Proof.
  intros Hc He.
  destruct (lookup_lt_is_Some_2 candles (length candles - 3)%nat) as [c3 H3]; [lia|].
  destruct (lookup_lt_is_Some_2 candles (length candles - 2)%nat) as [c2 H2]; [lia|].
  destruct (lookup_lt_is_Some_2 candles (length candles - 1)%nat) as [c1 H1]; [lia|].
  destruct (lookup_lt_is_Some_2 ema_values (length candles - 3)%nat) as [e3 G3]; [lia|].
  destruct (lookup_lt_is_Some_2 ema_values (length candles - 2)%nat) as [e2 G2]; [lia|].
  destruct (lookup_lt_is_Some_2 ema_values (length candles - 1)%nat) as [e1 G1]; [lia|].
  exists c3, c2, c1, e3, e2, e1. repeat split; try done.
  unfold getLastThreeCandles.
  rewrite !bool_decide_eq_true_2 by lia. cbn [andb].
  rewrite (print_candle_read _ _ _ _ c3 e3 H3 G3).
  destruct (stamp_throws c3); [done|].
  rewrite (print_candle_read _ _ _ _ c2 e2 H2 G2).
  destruct (stamp_throws c2); [done|].
  rewrite (print_candle_read _ _ _ _ c1 e1 H1 G1).
  by destruct (stamp_throws c1).
Qed.

(** In the trading loop the window is read within bounds. *)
Lemma loop_window_defined (candles : list CandleData) (ema_period : Z) :
  getLastThreeCandles candles (calculateEMA (close <$> candles) ema_period)
  ≠ OutOfBounds.
Proof.
  destruct (decide (3 ≤ length candles)%nat) as [Hlen|Hlen].
  - destruct (decide (0 < ema_period)%Z) as [Hp|Hp].
    + destruct (getLastThreeCandles_aligned candles
                  (calculateEMA (close <$> candles) ema_period))
        as (c3 & c2 & c1 & ? & ? & ? & _ & _ & _ & _ & _ & _ & ->);
        [done | by rewrite calculateEMA_length, length_fmap |].
      by destruct (stamp_throws c3 || stamp_throws c2 || stamp_throws c1).
    + rewrite getLastThreeCandles_short; [done|]. right.
      destruct candles as [|first rest]; simpl; [lia|].
      rewrite (proj2 (Z.leb_le ema_period 0)) by lia. simpl. lia.
  - rewrite getLastThreeCandles_short; [done | lia].
Qed.

Lemma format5MinTimestamp_throws (timestamp : string) :
  format5MinTimestamp timestamp = None ↔
  (16 ≤ String.length timestamp)%nat
  ∧ (stoi (String.substring 0 2 (String.substring 11 5 timestamp)) = None
     ∨ stoi (String.substring 3 2 (String.substring 11 5 timestamp)) = None).
Proof.
  unfold format5MinTimestamp.
  destruct (16 <=? String.length timestamp)%nat eqn:Hlen.
  - apply Nat.leb_le in Hlen.
    destruct (stoi (String.substring 0 2 _)) as [hour|]; csimpl;
      [|by intuition].
    destruct (stoi (String.substring 3 2 _)) as [minute|]; csimpl;
      [|by intuition].
    split; [done|]. by intros [_ [?|?]].
  - apply Nat.leb_gt in Hlen. split; [done|]. intros [? _]. lia.
Qed.

(** C5, as the code has it: with at least three candles and an EMA series
    at least as long as the candles, the function first formats the
    timestamps of the three last candles, and [std::stoi] throws when a
    timestamp of 16 characters or more has no number at its hour or at its
    minute; otherwise the snapshot holds the candles and EMA values at the
    three last candle indices (with exactly three of each: third is index 0,
    second is index 1, last is index 2).  With fewer than three candles or
    fewer than three EMA values the result is the default-constructed
    snapshot, all fields 0, and not a separate insufficient-data result. *)
Theorem getLastThreeCandles_window (candles : list CandleData)
    (ema_values : list double) :
  ((3 ≤ length candles)%nat → (length candles ≤ length ema_values)%nat →
   ∃ c_third c_second c_last e_third e_second e_last,
     candles !! (length candles - 3)%nat = Some c_third ∧
     candles !! (length candles - 2)%nat = Some c_second ∧
     candles !! (length candles - 1)%nat = Some c_last ∧
     ema_values !! (length candles - 3)%nat = Some e_third ∧
     ema_values !! (length candles - 2)%nat = Some e_second ∧
     ema_values !! (length candles - 1)%nat = Some e_last ∧
     getLastThreeCandles candles ema_values =
       if stamp_throws c_third || stamp_throws c_second || stamp_throws c_last
       then StampThrows
       else
         Snapshot (mkLastThree
                     (open c_last) (high c_last) (low c_last) (close c_last)
                     e_last
                     (open c_second) (high c_second) (low c_second)
                     (close c_second) e_second
                     (open c_third) (high c_third) (low c_third)
                     (close c_third) e_third))
  ∧ (∀ c0 c1 c2 e0 e1 e2,
       stamp_throws c0 = false → stamp_throws c1 = false →
       stamp_throws c2 = false →
       getLastThreeCandles [c0; c1; c2] [e0; e1; e2] =
         Snapshot (mkLastThree
                     (open c2) (high c2) (low c2) (close c2) e2
                     (open c1) (high c1) (low c1) (close c1) e1
                     (open c0) (high c0) (low c0) (close c0) e0))
  ∧ (∀ candle,
       stamp_throws candle = true ↔
       (16 ≤ String.length (timestamp candle))%nat
       ∧ (stoi (String.substring 0 2
                  (String.substring 11 5 (timestamp candle))) = None
          ∨ stoi (String.substring 3 2
                    (String.substring 11 5 (timestamp candle))) = None))
  ∧ ((length candles < 3 ∨ length ema_values < 3)%nat →
     getLastThreeCandles candles ema_values = Snapshot LastThreeCandles_default).
Proof.
  split; [|split; [|split]].
  - apply getLastThreeCandles_aligned.
  - intros c0 c1 c2 e0 e1 e2 H0 H1 H2.
    destruct (getLastThreeCandles_aligned [c0; c1; c2] [e0; e1; e2])
      as (? & ? & ? & ? & ? & ? & ? & ? & ? & ? & ? & ? & ->);
      [simpl; lia | simpl; lia |].
    simpl in *. simplify_eq. by rewrite H0, H1, H2.
  - intros candle. rewrite <- format5MinTimestamp_throws.
    unfold stamp_throws. by destruct (format5MinTimestamp _).
  - apply getLastThreeCandles_short.
Qed.

(** The window of four candles closing at 1, 2, 3, 4 with their EMA values:
    the snapshot is made of the candles at indices 1, 2 and 3. *)
Lemma getLastThreeCandles_window_witness :
  getLastThreeCandles
    [mkCandle "2025-07-18T11:40:00+0530" 1 1 1 1 0 0;
     mkCandle "2025-07-18T11:45:00+0530" 2 2 2 2 0 0;
     mkCandle "2025-07-18T11:50:00+0530" 3 3 3 3 0 0;
     mkCandle "2025-07-18T11:55:00+0530" 4 4 4 4 0 0]
    [1%float; 2%float; 3%float; 4%float]
  = Snapshot (mkLastThree 4 4 4 4 4 3 3 3 3 3 2 2 2 2 2)
  ∧ getLastThreeCandles [mkCandle "2025-07-18T11:40:00+0530" 1 1 1 1 0 0]
      [1%float]
    = Snapshot LastThreeCandles_default.
Proof.
  pose proof (getLastThreeCandles_window
    [mkCandle "2025-07-18T11:40:00+0530" 1 1 1 1 0 0;
     mkCandle "2025-07-18T11:45:00+0530" 2 2 2 2 0 0;
     mkCandle "2025-07-18T11:50:00+0530" 3 3 3 3 0 0;
     mkCandle "2025-07-18T11:55:00+0530" 4 4 4 4 0 0]
    [1%float; 2%float; 3%float; 4%float]) as (Hwin & _ & _ & _).
  pose proof (getLastThreeCandles_window
    [mkCandle "2025-07-18T11:40:00+0530" 1 1 1 1 0 0] [1%float])
    as (_ & _ & _ & Hshort).
  split.
  - destruct Hwin as (c3 & c2 & c1 & e3 & e2 & e1 & H3 & H2 & H1 & G3 & G2 & G1 & Hw);
      [simpl; lia | simpl; lia |].
    simpl in *. simplify_eq. exact Hw.
  - apply Hshort. simpl. lia.
Defined.

(** C5 as stated fails three times.  With no candle at all the result is
    the very value returned for three genuine all-zero candles, so it marks
    nothing.  With three EMA values for four candles, which has
    [min (len candles) (len ema) >= 3], the function reads [ema_values[3]]
    past the end instead of producing a snapshot.  And with three candles
    and three EMA values, a timestamp without a number where the hour is
    expected makes [std::stoi] throw: no snapshot is produced. *)
Lemma getLastThreeCandles_no_insufficient_marker :
  ¬ (∀ candles ema_values candles' ema_values',
       (Nat.min (length candles) (length ema_values) < 3)%nat →
       (3 ≤ Nat.min (length candles') (length ema_values'))%nat →
       getLastThreeCandles candles ema_values
       ≠ getLastThreeCandles candles' ema_values')
  ∧ (3 ≤ Nat.min (length (replicate 4 (mkCandle "" 0 0 0 0 0 0)))
               (length [zero; zero; zero]))%nat
  ∧ getLastThreeCandles (replicate 4 (mkCandle "" 0 0 0 0 0 0))
      [zero; zero; zero] = OutOfBounds
  ∧ getLastThreeCandles
      (replicate 3 (mkCandle "2025-07-18T--:--:00+0530" 1 1 1 1 0 0))
      [one; one; one] = StampThrows.
Proof.
  split; [|split; [|split]].
  - intros Hmark.
    apply (Hmark [] [] (replicate 3 (mkCandle "" 0 0 0 0 0 0))
             [zero; zero; zero]); simpl; [lia | lia | reflexivity].
  - simpl. lia.
  - reflexivity.
  - reflexivity.
Qed.

(** ** The EMA *)

Lemma ema_loop_step (multiplier prev : double) (prices : list double)
    (i : nat) (price : double) :
  prices !! i = Some price →
  ∃ before,
    (prev :: ema_loop multiplier prev prices) !! i = Some before ∧
    ema_loop multiplier prev prices !! i
      = Some (ema_next multiplier price before).
Proof.
  revert prev i. induction prices as [|p rest IH]; intros prev i Hi;
    [by rewrite lookup_nil in Hi|].
  destruct i as [|i]; simpl in *.
  - simplify_eq. by exists prev.
  - destruct (IH (ema_next multiplier p prev) i Hi) as (before & Hb & He).
    exists before. by split.
Qed.

(** Multiplying a binary64 number by 1: the product of the mantissas is the
    mantissa shifted left by 52 bits, which rounding shifts back exactly. *)
Section TimesOne.

Lemma digits2_pos_shift52 (m : positive) :
  Zpos (digits2_pos (4503599627370496 * m))
  = (Zpos (digits2_pos m) + 52)%Z.
Proof.
  change (4503599627370496 * m)%positive with (Pos.iter xO m 52%positive).
  cbn [Pos.iter digits2_pos]. lia.
Qed.

Lemma shr_shift52 (m : positive) :
  SpecFloat.iter_pos shr_1 52
    (Build_shr_record (Zpos (4503599627370496 * m)) false false)
  = Build_shr_record (Zpos m) false false.
Proof. reflexivity. Qed.

Lemma SFmul_one_finite (s : bool) (m : positive) (e : Z) :
  valid_binary (S754_finite s m e) = true →
  SF64mul (S754_finite s m e) (S754_finite false 4503599627370496 (-52))
  = S754_finite s m e.
Proof.
  simpl. unfold bounded, canonical_mantissa. rewrite andb_true_iff.
  intros [Hcanon Hbound]. apply Z.eqb_eq in Hcanon.
  unfold SF64mul, SFmul, binary_round_aux.
  rewrite xorb_false_r, (Pos.mul_comm m).
  unfold shr_fexp at 1. unfold Zdigits2.
  rewrite digits2_pos_shift52.
  replace (Z.pos (digits2_pos m) + 52 + (e + -52))%Z
    with (Z.pos (digits2_pos m) + e)%Z by lia.
  rewrite Hcanon.
  replace (e - (e + -52))%Z with 52%Z by lia.
  unfold shr_record_of_loc, shr. rewrite shr_shift52.
  cbn [shr_m loc_of_shr_record round_nearest_even].
  unfold shr_fexp, Zdigits2.
  replace (e + -52 + 52)%Z with e by lia.
  rewrite Hcanon, Z.sub_diag. cbn [shr shr_record_of_loc shr_m].
  by rewrite Hbound.
Qed.

Lemma mul_one_r (x : double) :
  is_finite x = true → (x * one)%float = x.
Proof.
  unfold is_finite. intros Hfin. apply Prim2SF_inj.
  rewrite FloatAxioms.mul_spec.
  change (Prim2SF one) with (S754_finite false 4503599627370496 (-52)).
  pose proof (Prim2SF_valid x) as Hvalid.
  destruct (Prim2SF x) as [s|s| |s m e]; try discriminate.
  - simpl. by rewrite xorb_false_r.
  - by apply SFmul_one_finite.
Qed.

Lemma mul_zero_r (y : double) :
  is_finite y = true → ∃ s, Prim2SF (y * zero)%float = S754_zero s.
Proof.
  unfold is_finite. intros Hfin. rewrite FloatAxioms.mul_spec.
  change (Prim2SF zero) with (S754_zero false).
  destruct (Prim2SF y) as [s|s| |s m e]; try discriminate; simpl; eauto.
Qed.

(** Adding a zero to a finite number gives the number back, up to the
    sign of a zero. *)
Lemma add_zero_r (x z : double) (s : bool) :
  is_finite x = true → Prim2SF z = S754_zero s →
  Prim2SF (x + z)%float = Prim2SF x
  ∨ ∃ s1 s2, Prim2SF x = S754_zero s1 ∧ Prim2SF (x + z)%float = S754_zero s2.
Proof.
  unfold is_finite. intros Hfin Hz. rewrite FloatAxioms.add_spec, Hz.
  destruct (Prim2SF x) as [s1|s1| |s1 m e]; try discriminate; simpl.
  - right. exists s1. destruct s1, s; eauto.
  - by left.
Qed.

Lemma ema_next_period_one (price prev : double) :
  is_finite price = true → is_finite prev = true →
  PrimFloat.eqb (ema_next one price prev) price = true
  ∧ is_finite (ema_next one price prev) = true.
Proof.
  intros Hp Hprev. unfold ema_next.
  change (one - one)%float with zero.
  rewrite (mul_one_r price Hp).
  destruct (mul_zero_r prev Hprev) as [s Hz].
  rewrite FloatAxioms.eqb_spec. unfold SFeqb, is_finite.
  destruct (add_zero_r price (prev * zero)%float s Hp Hz)
    as [Heq | (s1 & s2 & Hx & Hsum)].
  - rewrite Heq, SFcompare_refl by by apply is_finite_not_nan. by split.
  - rewrite Hsum, Hx. by split.
Qed.

End TimesOne.

Lemma ema_loop_period_one (prev : double) (prices : list double) :
  is_finite prev = true →
  Forall (λ p, is_finite p = true) prices →
  Forall2 (λ e p, PrimFloat.eqb e p = true)
    (ema_loop one prev prices) prices.
Proof.
  intros Hprev Hall. revert prev Hprev.
  induction Hall as [|p rest Hp Hrest IH]; intros prev Hprev; simpl;
    [constructor|].
  destruct (ema_next_period_one p prev Hp Hprev) as [Heq Hfin].
  constructor; [exact Heq | by apply IH].
Qed.


(** C4, as the code has it: for a non-empty price sequence and a positive
    period the output has the length of the input, starts with the first
    price and follows
    [output[i] = price[i] * m + output[i-1] * (1 - m)], [m = 2 / (period + 1)];
    for an empty input or a period that is not positive it is empty; and for
    period 1, when every price is finite, [output[i] == price[i]] for all
    [i] as doubles compare. *)
Theorem calculateEMA_contract (prices : list double) (period : Z) :
  (prices ≠ [] → (0 < period)%Z →
   length (calculateEMA prices period) = length prices
   ∧ calculateEMA prices period !! 0%nat = prices !! 0%nat
   ∧ ∀ i price, prices !! S i = Some price →
       ∃ before,
         calculateEMA prices period !! i = Some before ∧
         calculateEMA prices period !! S i
           = Some (price * ema_multiplier period
                   + before * (one - ema_multiplier period))%float)
  ∧ (prices = [] ∨ (period ≤ 0)%Z → calculateEMA prices period = [])
  ∧ ema_multiplier 1 = one
  ∧ (Forall (λ p, is_finite p = true) prices →
     ∀ i price, prices !! i = Some price →
       ∃ e, calculateEMA prices 1 !! i = Some e
            ∧ PrimFloat.eqb e price = true).
Proof.
  split; [|split; [|split]].
  - intros Hne Hp. split; [by apply calculateEMA_length|].
    destruct prices as [|first rest]; [done|]. simpl.
    rewrite (proj2 (Z.leb_gt period 0)) by lia.
    split; [reflexivity|]. intros i price Hi. simpl in Hi.
    destruct (ema_loop_step (ema_multiplier period) first rest i price Hi)
      as (before & Hb & He).
    exists before. by split.
  - intros [-> | Hp]; [reflexivity|].
    destruct prices as [|first rest]; [reflexivity|]. simpl.
    by rewrite (proj2 (Z.leb_le period 0)).
  - reflexivity.
  - intros Hall i price Hi.
    destruct prices as [|first rest]; [by rewrite lookup_nil in Hi|].
    apply Forall_cons in Hall as [Hfirst Hrest].
    change (calculateEMA (first :: rest) 1)
      with (first :: ema_loop one first rest).
    destruct i as [|i]; simpl in *.
    + simplify_eq. exists price. split; [reflexivity|].
      rewrite FloatAxioms.eqb_spec. unfold SFeqb.
      by rewrite SFcompare_refl by by apply is_finite_not_nan.
    + pose proof (ema_loop_period_one first rest Hfirst Hrest) as Hloop.
      destruct (Forall2_lookup_r _ _ _ _ _ Hloop Hi) as (e & He & Heq).
      by exists e.
Qed.

(** The series 10, 12, 14: period 2 gives the recurrence with [m = 2/3],
    period 1 gives the prices back. *)
Lemma calculateEMA_contract_witness :
  length (calculateEMA [10%float; 12%float; 14%float] 2) = 3%nat
  ∧ calculateEMA [10%float; 12%float; 14%float] 0 = []
  ∧ ∃ e, calculateEMA [10%float; 12%float; 14%float] 1 !! 2%nat = Some e
         ∧ PrimFloat.eqb e 14%float = true.
Proof.
  pose proof (calculateEMA_contract [10%float; 12%float; 14%float] 2)
    as (Hpos & _).
  pose proof (calculateEMA_contract [10%float; 12%float; 14%float] 0)
    as (_ & Hempty & _).
  pose proof (calculateEMA_contract [10%float; 12%float; 14%float] 1)
    as (_ & _ & _ & Hone).
  split; [|split].
  - apply Hpos; [done | lia].
  - apply Hempty. right. lia.
  - apply (Hone ltac:(repeat constructor) 2%nat 14%float). reflexivity.
Defined.

(** C4 as stated fails for period 1 when a price is not finite: after an
    infinite price the next output is [inf * 0 = NaN], not the price. *)
Lemma calculateEMA_period_one_not_identity :
  [infinity; one] !! 1%nat = Some one
  ∧ calculateEMA [infinity; one] 1 !! 1%nat = Some nan
  ∧ PrimFloat.eqb nan one = false
  ∧ nan ≠ one.
Proof.
  repeat split; try reflexivity.
  intros Heq. apply (f_equal (λ x, PrimFloat.eqb x one)) in Heq.
  vm_compute in Heq. discriminate.
Qed.

(** ** Running the client *)

Ltac run_M :=
  unfold mbind, M_bind, mret, M_ret, get, modify, exec, eval in *;
  simpl in *.

Lemma complain_nil (c : ZerodhaClient) : complain [] c = c.
Proof. destruct c. unfold complain. simpl. by rewrite app_nil_r. Qed.

Lemma complain_complain (errs1 errs2 : list ErrorReport) (c : ZerodhaClient) :
  complain errs2 (complain errs1 c) = complain (errs1 ++ errs2) c.
Proof. unfold complain. simpl. by rewrite app_assoc. Qed.

Lemma new_errors_complain (errs : list ErrorReport) (c : ZerodhaClient) :
  new_errors c (complain errs c) = errs.
Proof. unfold new_errors, complain. simpl. by rewrite drop_app_length. Qed.

(** [getHistoricalData] returns candles and writes to the error stream;
    it touches nothing else. *)
Lemma getHistoricalData_run (mkt : Market) (symbol timeframe : string)
    (c : ZerodhaClient) :
  getHistoricalData mkt symbol timeframe c
  = (eval (getHistoricalData mkt symbol timeframe) c,
     complain (fetch_errors c mkt symbol timeframe) c).
Proof.
  unfold fetch_errors, eval, exec.
  assert (∃ candles errs,
            getHistoricalData mkt symbol timeframe c
            = (candles, complain errs c)) as (candles & errs & ->).
  { unfold getHistoricalData, parseHistoricalDataResponse, report. run_M.
    destruct (negb (isLoggedIn c)); [by eexists _, [_]|].
    destruct (String.eqb (getInstrumentToken c symbol) "");
      [by eexists _, [_]|].
    destruct (historical_status_code _ =? 200)%Z.
    - destruct (historical_body _); run_M;
        [exists candles, []; by rewrite complain_nil
        |by eexists _, [_] | by eexists _, [_]].
    - eexists _, [_; _]. unfold complain. simpl. by rewrite <- app_assoc. }
  cbn [fst snd]. by rewrite new_errors_complain.
Qed.

(** What a fetch returns and writes depends on the login and on the
    instruments only. *)
Lemma getHistoricalData_fields (mkt : Market) (symbol timeframe : string)
    (c c' : ZerodhaClient) :
  access_token_ c' = access_token_ c →
  instruments_cache_ c' = instruments_cache_ c →
  eval (getHistoricalData mkt symbol timeframe) c'
  = eval (getHistoricalData mkt symbol timeframe) c
  ∧ fetch_errors c' mkt symbol timeframe = fetch_errors c mkt symbol timeframe.
Proof.
  intros Htoken Hcache.
  unfold fetch_errors, new_errors, eval, exec, getHistoricalData,
    parseHistoricalDataResponse, report, isLoggedIn, getInstrumentToken.
  run_M. rewrite Htoken, Hcache.
  destruct (negb (negb (access_token_ c =? "")%string));
    [simpl; by rewrite !drop_app_length|].
  match goal with
  | |- context [if ?b then _ else _] => destruct b
  end; [simpl; by rewrite !drop_app_length|].
  destruct (historical_status_code _ =? 200)%Z.
  - destruct (historical_body _); run_M;
      (simpl; by rewrite ?drop_app_length, ?drop_all).
  - simpl. by rewrite <- !app_assoc, !drop_app_length.
Qed.

(** The candles of a fetch, by cases. *)
Lemma getHistoricalData_candles (mkt : Market) (symbol timeframe : string)
    (c : ZerodhaClient) :
  eval (getHistoricalData mkt symbol timeframe) c
  = if negb (isLoggedIn c) then []
    else if String.eqb (getInstrumentToken c symbol) "" then []
    else candles_of (historical mkt symbol timeframe).
Proof.
  unfold eval, getHistoricalData, parseHistoricalDataResponse, report,
    candles_of. run_M.
  destruct (negb (isLoggedIn c)); [done|].
  destruct (String.eqb (getInstrumentToken c symbol) ""); [done|].
  destruct (historical_status_code _ =? 200)%Z; [|done].
  by destruct (historical_body _).
Qed.

(** A request that is served writes nothing. *)
Lemma fetch_errors_served (mkt : Market) (symbol timeframe : string)
    (c : ZerodhaClient) (candles : list CandleData) :
  isLoggedIn c = true → getInstrumentToken c symbol ≠ "" →
  historical mkt symbol timeframe = served candles →
  fetch_errors c mkt symbol timeframe = [].
Proof.
  intros Hlogged Htoken Hserved.
  unfold fetch_errors, new_errors, exec, getHistoricalData. run_M.
  rewrite Hlogged. apply String.eqb_neq in Htoken. rewrite Htoken, Hserved.
  simpl. apply drop_all.
Qed.

Lemma handle_order_response_refused (what : string) (response : Response)
    (on_success : string → M unit) (c : ZerodhaClient) :
  entry_accepted response = false →
  ∃ err,
    handle_order_response what response on_success c
    = (false, mkClient (access_token_ c) (trade_settings_ c)
                (instruments_cache_ c) (active_positions_ c) (order_log c)
                (orders_posted c) (cerr c ++ [err])).
Proof.
  unfold entry_accepted, handle_order_response, report. intros Hrefused.
  destruct (status_code response =? 200)%Z; run_M; [|eauto].
  destruct (text response) as [|status [order_id|]]; run_M; eauto.
  - rewrite Hrefused. run_M. eauto.
  - destruct (String.eqb status "success"); run_M; eauto.
Qed.

Lemma placeOrder_refused (mkt : Market) (signal : TradeSignal)
    (c : ZerodhaClient) :
  isLoggedIn c = true → sig_action signal ≠ "" →
  entry_accepted (order_reply mkt (entry_order signal)) = false →
  ∃ err, placeOrder mkt signal c = (false, refused c (entry_order signal) err).
Proof.
  intros Hlogged Haction Hrefused. unfold placeOrder. run_M.
  rewrite Hlogged. simpl.
  destruct (String.eqb (sig_action signal) "") eqn:Hempty;
    [by apply String.eqb_eq in Hempty|].
  unfold makePostRequest. run_M.
  match goal with
  | |- context [handle_order_response ?w ?r ?k ?c'] =>
      destruct (handle_order_response_refused w r k c' Hrefused) as [err Herr]
  end.
  exists err. rewrite Herr. reflexivity.
Qed.

Lemma placeOrder_not_logged_in (mkt : Market) (signal : TradeSignal)
    (c : ZerodhaClient) :
  isLoggedIn c = false →
  placeOrder mkt signal c
  = (false, mkClient (access_token_ c) (trade_settings_ c)
              (instruments_cache_ c) (active_positions_ c) (order_log c)
              (orders_posted c) (cerr c ++ [ErrNotLoggedIn "order"])).
Proof. intros Hout. unfold placeOrder, report. run_M. by rewrite Hout. Qed.

(** ** The exit check *)

Lemma position_event_fields (c c' : ZerodhaClient) (mkt : Market)
    (entry : string * ActivePosition) :
  access_token_ c' = access_token_ c →
  instruments_cache_ c' = instruments_cache_ c →
  position_event c' mkt entry = position_event c mkt entry.
Proof.
  intros Htoken Hcache. unfold position_event.
  by destruct (getHistoricalData_fields mkt entry.1 "5minute" c c'
                 Htoken Hcache) as [-> _].
Qed.

Lemma with_log_with_log (c : ZerodhaClient) (l1 l2 : list LogEvent) :
  with_log (with_log c l1) l2 = with_log c l2.
Proof. reflexivity. Qed.

Lemma with_log_id (c : ZerodhaClient) : with_log c (order_log c) = c.
Proof. by destruct c. Qed.

Lemma check_position_run (mkt : Market) (acc : list string)
    (entry : string * ActivePosition) (c : ZerodhaClient) :
  check_position mkt acc entry c
  = (acc ++ match position_event c mkt entry with
            | Some _ => [entry.1]
            | None => []
            end,
     complain (fetch_errors c mkt entry.1 "5minute")
       (with_log c (order_log c ++ option_list (position_event c mkt entry)))).
Proof.
  destruct entry as [symbol position].
  unfold check_position, position_event. run_M.
  rewrite getHistoricalData_run. run_M.
  destruct (last _) as [back|]; simpl;
    [|by rewrite !app_nil_r, with_log_id].
  unfold exit_event, logStopLossHit, logTargetHit, append_log. run_M.
  repeat (match goal with
          | |- context [if ?b then _ else _] => destruct b; simpl
          end; try reflexivity).
  by rewrite !app_nil_r, with_log_id.
Qed.

(** The lines the fetches of one exit check write. *)
Lemma check_positions_run_log (mkt : Market)
    (entries : list (string * ActivePosition)) (acc : list string)
    (c : ZerodhaClient) (log : list LogEvent) (errs : list ErrorReport) :
  check_positions mkt acc entries (complain errs (with_log c log))
  = (acc ++ (fst <$> filter (λ e, is_Some (position_event c mkt e)) entries),
     complain
       (errs ++ concat ((λ e, fetch_errors c mkt e.1 "5minute") <$> entries))
       (with_log c (log ++ omap (position_event c mkt) entries))).
Proof.
  revert acc log errs.
  induction entries as [|entry rest IH]; intros acc log errs; simpl.
  - run_M. by rewrite !app_nil_r.
  - run_M. rewrite check_position_run.
    rewrite (position_event_fields c (complain errs (with_log c log)))
      by done.
    destruct (getHistoricalData_fields mkt entry.1 "5minute" c
                (complain errs (with_log c log)) eq_refl eq_refl) as [_ ->].
    change (with_log (complain errs (with_log c log)) ?l)
      with (complain errs (with_log c l)).
    rewrite complain_complain, IH, filter_cons. cbn [order_log complain with_log].
    destruct (position_event c mkt entry) as [ev|] eqn:Hev; simpl.
    + by rewrite <- !app_assoc.
    + by rewrite !app_nil_r, <- !app_assoc.
Qed.

Lemma check_positions_run (mkt : Market)
    (entries : list (string * ActivePosition)) (c : ZerodhaClient) :
  check_positions mkt [] entries c
  = (fst <$> filter (λ e, is_Some (position_event c mkt e)) entries,
     complain (concat ((λ e, fetch_errors c mkt e.1 "5minute") <$> entries))
       (with_log c (order_log c ++ omap (position_event c mkt) entries))).
Proof.
  rewrite <- (with_log_id c) at 1.
  rewrite <- (complain_nil (with_log c (order_log c))).
  by rewrite check_positions_run_log.
Qed.

Lemma set_positions_id (c : ZerodhaClient) :
  set_positions (λ m, m) c = c.
Proof. by destruct c. Qed.

Lemma removeActivePosition_run (symbol : string) (c : ZerodhaClient) :
  removeActivePosition symbol c = (tt, set_positions (delete symbol) c).
Proof.
  unfold removeActivePosition, hasActivePosition. run_M.
  case_bool_decide as Hhas; [reflexivity|].
  f_equal. destruct c as [tok settings cache positions log posted err].
  unfold set_positions. simpl in *. f_equal.
  symmetry. apply delete_id.
  destruct (positions !! symbol) eqn:Hl; [|done].
  exfalso. apply Hhas. eauto.
Qed.

Lemma remove_all_run (symbols : list string) (c : ZerodhaClient) :
  for_each removeActivePosition symbols c
  = (tt, set_positions (λ m, foldl (λ m s, delete s m) m symbols) c).
Proof.
  revert c. induction symbols as [|s rest IH]; intros c; simpl.
  - run_M. by rewrite set_positions_id.
  - run_M. rewrite removeActivePosition_run, IH. reflexivity.
Qed.

Lemma lookup_remove_all (symbols : list string)
    (m : gmap string ActivePosition) (s : string) :
  foldl (λ m s, delete s m) m symbols !! s
  = if bool_decide (s ∈ symbols) then None else m !! s.
Proof.
  revert m. induction symbols as [|s' rest IH]; intros m; simpl; [done|].
  rewrite IH. case_bool_decide as Hrest.
  - rewrite bool_decide_eq_true_2; [done | by right].
  - destruct (decide (s = s')) as [->|Hne].
    + rewrite bool_decide_eq_true_2 by left. apply lookup_delete_eq.
    + rewrite bool_decide_eq_false_2.
      * by apply lookup_delete_ne.
      * rewrite elem_of_cons. tauto.
Qed.

Lemma checkPositionStatus_run (mkt : Market) (c : ZerodhaClient) :
  let entries := positions_in_order (active_positions_ c) in
  checkPositionStatus mkt c
  = (tt,
     set_positions
       (λ m, foldl (λ m s, delete s m) m
               (fst <$> filter (λ e, is_Some (position_event c mkt e)) entries))
       (complain
          (concat ((λ e, fetch_errors c mkt e.1 "5minute") <$> entries))
          (with_log c (order_log c ++ omap (position_event c mkt) entries)))).
Proof.
  intros entries. unfold checkPositionStatus. run_M.
  fold entries. rewrite check_positions_run, remove_all_run. reflexivity.
Qed.

Lemma positions_in_order_elem (m : gmap string ActivePosition)
    (s : string) (p : ActivePosition) :
  (s, p) ∈ positions_in_order m ↔ m !! s = Some p.
Proof.
  unfold positions_in_order. rewrite merge_sort_Permutation.
  apply elem_of_map_to_list.
Qed.

Lemma positions_in_order_NoDup (m : gmap string ActivePosition) :
  NoDup (positions_in_order m).*1.
Proof.
  unfold positions_in_order. rewrite merge_sort_Permutation.
  apply NoDup_fst_map_to_list.
Qed.

Lemma position_event_about (c : ZerodhaClient) (mkt : Market)
    (entry : string * ActivePosition) (ev : LogEvent) (s : string) :
  position_event c mkt entry = Some ev →
  about s ev = String.eqb entry.1 s
  ∧ is_exit s ev = String.eqb entry.1 s
  ∧ is_entry s ev = false.
Proof.
  unfold position_event, exit_event.
  destruct (last _) as [back|]; simpl; [|done].
  repeat (match goal with
          | |- context [if ?b then _ else _] => destruct b; simpl
          end; try (intros [= <-]; done)).
Qed.

(** The events of one exit check that concern [s]. *)
Lemma events_about_symbol (c : ZerodhaClient) (mkt : Market)
    (entries : list (string * ActivePosition)) (s : string) :
  NoDup entries.*1 →
  filter (λ e, about s e = true) (omap (position_event c mkt) entries)
  = match list_find (λ e, e.1 = s) entries with
    | Some (_, entry) => option_list (position_event c mkt entry)
    | None => []
    end.
Proof.
  induction entries as [|entry rest IH]; intros Hnodup; csimpl; [done|].
  apply NoDup_cons in Hnodup as [Hfresh Hnodup].
  specialize (IH Hnodup).
  destruct (decide (entry.1 = s)) as [Heq|Hne].
  - assert (filter (λ e, about s e = true)
              (omap (position_event c mkt) rest) = []) as Hrest.
    { rewrite IH. destruct (list_find _ rest) as [[i e]|] eqn:Hfind; [|done].
      apply list_find_Some in Hfind as (Hi & He & _).
      exfalso. apply Hfresh. rewrite Heq, <- He.
      apply list_elem_of_fmap. exists e. split; [done|].
      by eapply list_elem_of_lookup_2. }
    destruct (position_event c mkt entry) as [ev|] eqn:Hev; csimpl.
    + rewrite filter_cons, Hrest.
      destruct (position_event_about c mkt entry ev s Hev) as (-> & _).
      rewrite decide_True; [done|]. by apply String.eqb_eq.
    + exact Hrest.
  - destruct (list_find _ rest) as [[i e]|] eqn:Hfind; csimpl in *.
    + destruct (position_event c mkt entry) as [ev|] eqn:Hev; csimpl;
        [|exact IH].
      rewrite filter_cons.
      destruct (position_event_about c mkt entry ev s Hev) as (-> & _).
      rewrite decide_False; [exact IH|].
      rewrite String.eqb_eq. done.
    + destruct (position_event c mkt entry) as [ev|] eqn:Hev; csimpl;
        [|exact IH].
      rewrite filter_cons.
      destruct (position_event_about c mkt entry ev s Hev) as (-> & _).
      rewrite decide_False; [exact IH|].
      rewrite String.eqb_eq. done.
Qed.

Lemma removed_symbol (c : ZerodhaClient) (mkt : Market)
    (entries : list (string * ActivePosition)) (s : string) :
  NoDup entries.*1 →
  filter (λ x, x = s)
    (fst <$> filter (λ e, is_Some (position_event c mkt e)) entries)
  = match list_find (λ e, e.1 = s) entries with
    | Some (_, entry) =>
        if position_event c mkt entry is Some _ then [s] else []
    | None => []
    end.
Proof.
  induction entries as [|entry rest IH]; intros Hnodup; csimpl; [done|].
  apply NoDup_cons in Hnodup as [Hfresh Hnodup].
  specialize (IH Hnodup).
  rewrite filter_cons.
  destruct (decide (entry.1 = s)) as [Heq|Hne].
  - assert (filter (λ x, x = s)
              (fst <$> filter (λ e, is_Some (position_event c mkt e)) rest)
            = []) as Hrest.
    { rewrite IH. destruct (list_find _ rest) as [[i e]|] eqn:Hfind; [|done].
      apply list_find_Some in Hfind as (Hi & He & _).
      exfalso. apply Hfresh. rewrite Heq, <- He.
      apply list_elem_of_fmap. exists e. split; [done|].
      by eapply list_elem_of_lookup_2. }
    destruct (position_event c mkt entry) as [ev|] eqn:Hev.
    + rewrite decide_True by eauto. csimpl.
      rewrite filter_cons, decide_True by done. by rewrite Hrest, Heq.
    + rewrite decide_False by (by intros [? ?]). exact Hrest.
  - assert (filter (λ x, x = s)
              (fst <$> filter (λ e, is_Some (position_event c mkt e)) rest)
            = match list_find (λ e, e.1 = s) rest with
              | Some (_, entry) =>
                  if position_event c mkt entry is Some _ then [s] else []
              | None => []
              end) as Hrest by exact IH.
    destruct (position_event c mkt entry) as [ev|] eqn:Hev.
    + rewrite decide_True by eauto. csimpl.
      rewrite filter_cons, decide_False by done. rewrite Hrest.
      by destruct (list_find _ rest) as [[i e]|].
    + rewrite decide_False by (by intros [? ?]). rewrite Hrest.
      by destruct (list_find _ rest) as [[i e]|].
Qed.

Lemma find_position (m : gmap string ActivePosition) (s : string)
    (p : ActivePosition) :
  m !! s = Some p →
  ∃ i, list_find (λ e, e.1 = s) (positions_in_order m) = Some (i, (s, p)).
Proof.
  intros Hm.
  assert ((s, p) ∈ positions_in_order m) as Hin
    by by apply positions_in_order_elem.
  destruct (list_find_elem_of (λ e, e.1 = s) _ _ Hin eq_refl)
    as [[i [s' p']] Hfind].
  exists i. rewrite Hfind.
  apply list_find_Some in Hfind as (Hi & Hs & _). simpl in Hs. subst s'.
  apply list_elem_of_lookup_2, positions_in_order_elem in Hi.
  by simplify_eq.
Qed.

Lemma find_no_position (m : gmap string ActivePosition) (s : string) :
  m !! s = None →
  list_find (λ e, e.1 = s) (positions_in_order m) = None.
Proof.
  intros Hm. apply list_find_None, Forall_forall.
  intros [s' p] Hin Hs. simpl in Hs. subst s'.
  apply positions_in_order_elem in Hin. congruence.
Qed.

(** What one exit check does about a symbol that has a position. *)
Lemma checkPositionStatus_symbol (mkt : Market) (c : ZerodhaClient)
    (symbol : string) (position : ActivePosition) :
  active_positions_ c !! symbol = Some position →
  let c' := exec (checkPositionStatus mkt) c in
  let event := position_event c mkt (symbol, position) in
  new_events c c' =
    omap (position_event c mkt) (positions_in_order (active_positions_ c))
  ∧ filter (λ e, about symbol e = true) (new_events c c') = option_list event
  ∧ filter (λ s, s = symbol)
      (eval (check_positions mkt []
               (positions_in_order (active_positions_ c))) c)
    = (if event is Some _ then [symbol] else [])
  ∧ active_positions_ c' !! symbol
    = (if event is Some _ then None else Some position).
Proof.
  intros Hpos c' event. subst c'. unfold exec, eval, new_events.
  rewrite checkPositionStatus_run, check_positions_run. simpl.
  rewrite drop_app_length.
  pose proof (positions_in_order_NoDup (active_positions_ c)) as Hnodup.
  destruct (find_position _ _ _ Hpos) as [i Hfind].
  split; [reflexivity|]. split; [|split].
  - by rewrite events_about_symbol, Hfind.
  - by rewrite removed_symbol, Hfind.
  - rewrite lookup_remove_all.
    pose proof (removed_symbol c mkt _ symbol Hnodup) as Hremoved.
    rewrite Hfind in Hremoved. fold event in Hremoved.
    case_bool_decide as Hin.
    + destruct event; [done|].
      assert (symbol ∈ filter (λ x, x = symbol)
                (fst <$> filter (λ e, is_Some (position_event c mkt e))
                   (positions_in_order (active_positions_ c)))) as Hin'
        by by apply list_elem_of_filter.
      rewrite Hremoved in Hin'. by apply elem_of_nil in Hin'.
    + destruct event; [|done].
      exfalso. apply Hin.
      assert (symbol ∈ [symbol]) as Hin' by left.
      rewrite <- Hremoved in Hin'.
      by apply list_elem_of_filter in Hin' as [_ ?].
Qed.

Lemma position_event_price (c : ZerodhaClient) (mkt : Market)
    (symbol : string) (position : ActivePosition) (back : CandleData) :
  last (eval (getHistoricalData mkt symbol "5minute") c) = Some back →
  position_event c mkt (symbol, position)
  = exit_event symbol position (close back).
Proof. intros Hlast. unfold position_event. simpl. by rewrite Hlast. Qed.

Lemma no_position_after (c : ZerodhaClient) (symbol : string) :
  active_positions_ c !! symbol = None → hasActivePosition c symbol = false.
Proof.
  intros Hnone. unfold hasActivePosition. rewrite Hnone.
  apply bool_decide_eq_false_2. by intros [? ?].
Qed.

(** C3, as the code has it: at the latest fetched close, a Buy position is
    closed with a stop-loss-hit event when [close <= stopLoss], and with a
    target-hit event when [close >= target] and not [close <= stopLoss]; a
    Sell position is closed with a stop-loss-hit event when
    [close >= stopLoss], and with a target-hit event when [close <= target]
    and not [close >= stopLoss]; on either hit that one event is logged for
    the symbol and the position leaves the table, so that the symbol is
    evaluated for a new signal again. *)
Theorem checkPositionStatus_exits (mkt : Market) (c : ZerodhaClient)
    (symbol : string) (position : ActivePosition) (back : CandleData) :
  active_positions_ c !! symbol = Some position →
  last (eval (getHistoricalData mkt symbol "5minute") c) = Some back →
  let price := close back in
  let c' := exec (checkPositionStatus mkt) c in
  let events := filter (λ e, about symbol e = true) (new_events c c') in
  (pos_action position = "BUY" →
   le price (pos_stop_loss position) = true →
   events = [LogStopLossHit symbol price]
   ∧ hasActivePosition c' symbol = false)
  ∧ (pos_action position = "BUY" →
     le price (pos_stop_loss position) = false →
     ge price (pos_target position) = true →
     events = [LogTargetHit symbol price]
     ∧ hasActivePosition c' symbol = false)
  ∧ (pos_action position = "SELL" →
     ge price (pos_stop_loss position) = true →
     events = [LogStopLossHit symbol price]
     ∧ hasActivePosition c' symbol = false)
  ∧ (pos_action position = "SELL" →
     ge price (pos_stop_loss position) = false →
     le price (pos_target position) = true →
     events = [LogTargetHit symbol price]
     ∧ hasActivePosition c' symbol = false).
Proof.
  intros Hpos Hlast price c' events.
  destruct (checkPositionStatus_symbol mkt c symbol position Hpos)
    as (_ & Hevents & _ & Hlookup).
  rewrite (position_event_price c mkt symbol position back Hlast)
    in Hevents, Hlookup.
  fold c' in Hevents, Hlookup. fold events in Hevents. fold price in Hevents, Hlookup.
  unfold exit_event in Hevents, Hlookup.
  repeat split.
  all: repeat match goal with
       | H : pos_action _ = _ |- _ =>
           rewrite H in Hevents, Hlookup; clear H
       | H : _ = true |- _ => rewrite H in Hevents, Hlookup; clear H
       | H : _ = false |- _ => rewrite H in Hevents, Hlookup; clear H
       end; simpl in Hevents, Hlookup.
  all: first [exact Hevents | by apply no_position_after].
Qed.

(** A Buy position with stop loss 100 and target 115, at a close of 99. *)
Lemma checkPositionStatus_exits_witness :
  let c := infy_holding "BUY" 100 115 in
  let c' := exec (checkPositionStatus (market_at 99)) c in
  filter (λ e, about "INFY" e = true) (new_events c c')
  = [LogStopLossHit "INFY" 99]
  ∧ hasActivePosition c' "INFY" = false.
Proof.
  intros c c'.
  pose proof (checkPositionStatus_exits (market_at 99) c "INFY"
                (mkPosition "INFY" "order-1" "" "" "BUY" 95 100 115 1
                   true true)
                (flat_candle 99) eq_refl eq_refl) as (Hstop & _).
  apply Hstop; reflexivity.
Defined.

(** C3 as stated fails where both levels are met: a Buy position with stop
    loss 100 and target 90 at a close of 95 has [close >= target], and the
    event logged is the stop-loss hit, not a target hit. *)
Lemma target_hit_shadowed_by_stop_loss :
  let c := infy_holding "BUY" 100 90 in
  let c' := exec (checkPositionStatus (market_at 95)) c in
  active_positions_ c !! "INFY"
  = Some (mkPosition "INFY" "order-1" "" "" "BUY" 95 100 90 1 true true)
  ∧ ge 95 90 = true
  ∧ new_events c c' = [LogStopLossHit "INFY" 95]
  ∧ LogTargetHit "INFY" 95 ∉ new_events c c'.
Proof.
  intros c c'.
  assert (new_events c c' = [LogStopLossHit "INFY" 95]) as Hnew
    by (vm_compute; reflexivity).
  repeat split; try reflexivity; try exact Hnew.
  rewrite Hnew. intros Hin. apply list_elem_of_singleton in Hin.
  discriminate.
Qed.

(** C9: when the fetched close meets the stop-loss test and the target test
    of the same position, the stop-loss branch alone fires: the one event
    logged for the symbol is a stop-loss hit, no target hit is logged, the
    symbol is queued for removal once and the position is removed. *)
Theorem stop_loss_takes_precedence (mkt : Market) (c : ZerodhaClient)
    (symbol : string) (position : ActivePosition) (back : CandleData) :
  active_positions_ c !! symbol = Some position →
  last (eval (getHistoricalData mkt symbol "5minute") c) = Some back →
  (pos_action position = "BUY"
   ∧ le (close back) (pos_stop_loss position) = true
   ∧ ge (close back) (pos_target position) = true)
  ∨ (pos_action position = "SELL"
     ∧ ge (close back) (pos_stop_loss position) = true
     ∧ le (close back) (pos_target position) = true) →
  let c' := exec (checkPositionStatus mkt) c in
  let positions_to_remove :=
    eval (check_positions mkt [] (positions_in_order (active_positions_ c))) c in
  filter (λ e, about symbol e = true) (new_events c c')
  = [LogStopLossHit symbol (close back)]
  ∧ (∀ price, LogTargetHit symbol price ∉ new_events c c')
  ∧ filter (λ s, s = symbol) positions_to_remove = [symbol]
  ∧ active_positions_ c' !! symbol = None
  ∧ hasActivePosition c' symbol = false.
Proof.
  intros Hpos Hlast Hboth c' positions_to_remove.
  destruct (checkPositionStatus_symbol mkt c symbol position Hpos)
    as (_ & Hevents & Hremoved & Hlookup).
  rewrite (position_event_price c mkt symbol position back Hlast)
    in Hevents, Hremoved, Hlookup.
  fold c' in Hevents, Hlookup. fold positions_to_remove in Hremoved.
  assert (exit_event symbol position (close back)
          = Some (LogStopLossHit symbol (close back))) as Hexit.
  { unfold exit_event.
    destruct Hboth as [(-> & -> & _) | (-> & -> & _)]; reflexivity. }
  rewrite Hexit in Hevents, Hremoved, Hlookup. simpl in *.
  split; [exact Hevents|]. split; [|split; [exact Hremoved|split]].
  - intros price Hin.
    assert (LogTargetHit symbol price
            ∈ filter (λ e, about symbol e = true) (new_events c c')) as Hin'.
    { apply list_elem_of_filter. split; [|exact Hin].
      simpl. apply String.eqb_refl. }
    rewrite Hevents in Hin'. apply list_elem_of_singleton in Hin'.
    discriminate.
  - exact Hlookup.
  - by apply no_position_after.
Qed.

(** The Buy position with stop loss 100 and target 90, at a close of 95. *)
Lemma stop_loss_takes_precedence_witness :
  let c := infy_holding "BUY" 100 90 in
  let c' := exec (checkPositionStatus (market_at 95)) c in
  filter (λ e, about "INFY" e = true) (new_events c c')
  = [LogStopLossHit "INFY" 95]
  ∧ hasActivePosition c' "INFY" = false.
Proof.
  intros c c'.
  pose proof (stop_loss_takes_precedence (market_at 95) c "INFY"
                (mkPosition "INFY" "order-1" "" "" "BUY" 95 100 90 1
                   true true)
                (flat_candle 95) eq_refl eq_refl
                (or_introl (conj eq_refl (conj eq_refl eq_refl))))
    as (Hevents & _ & _ & _ & Hgone).
  split; [exact Hevents | exact Hgone].
Defined.

(** ** Counting live positions *)

Lemma live_positions_nil (s : string) : live_positions s [] = 0%Z.
Proof. reflexivity. Qed.

Lemma live_positions_app (s : string) (l1 l2 : list LogEvent) :
  live_positions s (l1 ++ l2)
  = (live_positions s l1 + live_positions s l2)%Z.
Proof.
  unfold live_positions. rewrite !filter_app, !length_app. lia.
Qed.

Lemma live_positions_cons (s : string) (e : LogEvent) (l : list LogEvent) :
  live_positions s (e :: l)
  = ((if is_entry s e then 1 else 0) - (if is_exit s e then 1 else 0)
     + live_positions s l)%Z.
Proof.
  unfold live_positions. rewrite !filter_cons.
  destruct (is_entry s e), (is_exit s e); simpl; lia.
Qed.

Lemma live_positions_quiet (s : string) (l : list LogEvent) :
  Forall quiet l → live_positions s l = 0%Z.
Proof.
  induction 1 as [|e l He _ IH]; [reflexivity|].
  rewrite live_positions_cons, IH.
  destruct (He s) as [-> ->]. reflexivity.
Qed.

Lemma position_count_lookup (c : ZerodhaClient) (s : string) :
  position_count c s = if hasActivePosition c s then 1%nat else 0%nat.
Proof.
  unfold position_count, hasActivePosition.
  generalize (active_positions_ c). clear c. intros m.
  induction m as [|k p m Hk Hfirst IH] using map_first_key_ind.
  - rewrite map_to_list_empty, lookup_empty. reflexivity.
  - rewrite map_to_list_insert_first_key by done.
    rewrite filter_cons. simpl.
    destruct (decide (k = s)) as [->|Hne].
    + rewrite lookup_insert_eq.
      rewrite bool_decide_eq_true_2 by eauto. simpl.
      rewrite IH, Hk.
      by rewrite bool_decide_eq_false_2 by (by intros [? ?]).
    + rewrite lookup_insert_ne by done. exact IH.
Qed.

(** ** What the order functions change *)

Lemma quiet_leg (symbol action order_id : string) (price : double)
    (quantity : Z) (order_type : string) :
  order_type ≠ "ENTRY" →
  quiet (LogOrder symbol action order_id price quantity order_type).
Proof.
  intros Hty s. simpl. split; [|reflexivity].
  apply andb_false_iff. right. by apply String.eqb_neq.
Qed.

(** An order function that can only log a leg: the table is untouched and
    the log grows by quiet events. *)
Lemma handle_leg_response (what : string) (response : Response)
    (ev : string → LogEvent) (c : ZerodhaClient) :
  (∀ id, quiet (ev id)) →
  let r := handle_order_response what response (λ id, append_log (ev id)) c in
  active_positions_ r.2 = active_positions_ c
  ∧ ∃ evs, order_log r.2 = order_log c ++ evs ∧ Forall quiet evs.
Proof.
  intros Hquiet. unfold handle_order_response, report, append_log.
  destruct (status_code response =? 200)%Z; run_M;
    [|split; [done|exists []; by rewrite app_nil_r]].
  destruct (text response) as [|status [order_id|]]; run_M;
    try destruct (String.eqb status "success"); run_M;
    (split; [done|]);
    try (exists []; by rewrite app_nil_r).
  exists [ev order_id]. split; [done|]. by constructor.
Qed.

Lemma placeStopLossOrder_quiet (mkt : Market) (symbol action : string)
    (stop_loss : double) (quantity : Z) (c : ZerodhaClient) :
  let r := placeStopLossOrder mkt symbol action stop_loss quantity c in
  active_positions_ r.2 = active_positions_ c
  ∧ ∃ evs, order_log r.2 = order_log c ++ evs ∧ Forall quiet evs.
Proof.
  unfold placeStopLossOrder, logOrder. run_M.
  destruct (negb (isLoggedIn c)).
  - unfold report. run_M. split; [done|]. exists []. by rewrite app_nil_r.
  - unfold makePostRequest. run_M.
    match goal with
    | |- context [handle_order_response ?w ?r ?k ?c'] =>
        apply (handle_leg_response w r
                 (λ id, LogOrder symbol (opposite action) id stop_loss
                          quantity "STOPLOSS") c')
    end.
    intros id. by apply quiet_leg.
Qed.

Lemma placeTargetOrder_quiet (mkt : Market) (symbol action : string)
    (target : double) (quantity : Z) (c : ZerodhaClient) :
  let r := placeTargetOrder mkt symbol action target quantity c in
  active_positions_ r.2 = active_positions_ c
  ∧ ∃ evs, order_log r.2 = order_log c ++ evs ∧ Forall quiet evs.
Proof.
  unfold placeTargetOrder, logOrder. run_M.
  destruct (negb (isLoggedIn c)).
  - unfold report. run_M. split; [done|]. exists []. by rewrite app_nil_r.
  - unfold makePostRequest. run_M.
    match goal with
    | |- context [handle_order_response ?w ?r ?k ?c'] =>
        apply (handle_leg_response w r
                 (λ id, LogOrder symbol (opposite action) id target
                          quantity "TARGET") c')
    end.
    intros id. by apply quiet_leg.
Qed.

(** After an accepted entry: the two legs and the two flags. *)
Lemma protect_position (mkt : Market) (signal : TradeSignal)
    (c : ZerodhaClient) (p : ActivePosition) :
  active_positions_ c !! sig_symbol signal = Some p →
  let r :=
    (sl_ok ← placeStopLossOrder mkt (sig_symbol signal) (sig_action signal)
               (sig_stop_loss signal) (sig_quantity signal);
     (if sl_ok : bool
      then update_position (sig_symbol signal) set_stop_loss_placed
      else report (ErrOrderFailed "stop loss leg")) ;;
     tg_ok ← placeTargetOrder mkt (sig_symbol signal) (sig_action signal)
               (sig_target signal) (sig_quantity signal);
     (if tg_ok : bool
      then update_position (sig_symbol signal) set_target_placed
      else report (ErrOrderFailed "target leg"))) c in
  (∃ p', active_positions_ r.2
         = <[sig_symbol signal := p']> (active_positions_ c))
  ∧ ∃ evs, order_log r.2 = order_log c ++ evs ∧ Forall quiet evs.
Proof.
  intros Hp. run_M.
  pose proof (placeStopLossOrder_quiet mkt (sig_symbol signal)
    (sig_action signal) (sig_stop_loss signal) (sig_quantity signal) c)
    as Hsl.
  destruct (placeStopLossOrder _ _ _ _ _ c) as [sl_ok c1].
  simpl in Hsl. destruct Hsl as (Hpos1 & evs1 & Hlog1 & Hq1).
  destruct sl_ok; unfold update_position, report; run_M.
  all: match goal with
       | |- context [placeTargetOrder ?m ?s ?a ?t ?q ?c2] =>
           pose proof (placeTargetOrder_quiet m s a t q c2) as Htg;
           destruct (placeTargetOrder m s a t q c2) as [tg_ok c3]
       end;
       simpl in Htg; destruct Htg as (Hpos3 & evs3 & Hlog3 & Hq3).
  all: destruct tg_ok; run_M; rewrite ?Hpos3, ?Hlog3; simpl;
       rewrite ?Hpos1, ?Hlog1.
  all: split;
       [ rewrite ?insert_insert_eq;
         first [by eauto | exists p; by rewrite insert_id]
       | exists (evs1 ++ evs3);
         split; [by rewrite app_assoc | by apply Forall_app] ].
Qed.

Lemma placeOrder_book (mkt : Market) (signal : TradeSignal)
    (c : ZerodhaClient) :
  let c' := exec (placeOrder mkt signal) c in
  (active_positions_ c' = active_positions_ c ∧ order_log c' = order_log c)
  ∨ ∃ p id evs,
      active_positions_ c'
      = <[sig_symbol signal := p]> (active_positions_ c)
      ∧ order_log c'
        = order_log c
          ++ LogOrder (sig_symbol signal) (sig_action signal) id
               (sig_entry_price signal) (sig_quantity signal) "ENTRY"
             :: evs
      ∧ Forall quiet evs.
Proof.
  unfold placeOrder. run_M.
  destruct (negb (isLoggedIn c)); [by left|].
  destruct (String.eqb (sig_action signal) ""); [by left|].
  unfold makePostRequest, handle_order_response. run_M.
  destruct (status_code _ =? 200)%Z; [|by left].
  destruct (text _) as [|status [id|]]; [by left| |];
    (destruct (String.eqb status "success"); [|by left]); [|by left].
  right. unfold logOrder, append_log, addActivePosition. run_M.
  match goal with
  | |- context [placeStopLossOrder _ _ _ _ _ ?c3] =>
      pose proof (protect_position mkt signal c3
        (mkPosition (sig_symbol signal) id "" "" (sig_action signal)
           (sig_entry_price signal) (sig_stop_loss signal)
           (sig_target signal) (sig_quantity signal) false false)
        (lookup_insert_eq _ _ _)) as Hprot
  end.
  run_M. destruct Hprot as ((p' & Hpos) & evs & Hlog & Hquiet).
  exists p', id, evs.
  match goal with
  | |- context [let '(_, _) := ?call in _] =>
      destruct call as [[] c4]
  end.
  simpl in *. rewrite Hpos, Hlog, insert_insert_eq, <- app_assoc.
  done.
Qed.

(** ** The position invariant *)

Lemma book_consistent_fields (c c' : ZerodhaClient) :
  active_positions_ c' = active_positions_ c →
  order_log c' = order_log c →
  book_consistent c → book_consistent c'.
Proof.
  intros Hpos Hlog Hc s. unfold hasActivePosition.
  rewrite Hpos, Hlog. apply Hc.
Qed.

Lemma analyzeStrategy_symbol (symbol : string) (data : LastThreeCandles) :
  sig_symbol (analyzeStrategy symbol data) = symbol.
Proof.
  unfold analyzeStrategy.
  destruct (buy_conditions data); [reflexivity|].
  destruct (sell_conditions data); reflexivity.
Qed.

Lemma placeOrder_consistent (mkt : Market) (signal : TradeSignal)
    (c : ZerodhaClient) :
  hasActivePosition c (sig_symbol signal) = false →
  book_consistent c → book_consistent (exec (placeOrder mkt signal) c).
Proof.
  intros Hfree Hc.
  destruct (placeOrder_book mkt signal c)
    as [[Hpos Hlog] | (p & id & evs & Hpos & Hlog & Hquiet)].
  - by eapply book_consistent_fields.
  - intros s. unfold hasActivePosition. rewrite Hpos, Hlog.
    rewrite live_positions_app, live_positions_cons,
      (live_positions_quiet s evs Hquiet), (Hc s).
    simpl. rewrite andb_true_r.
    destruct (decide (sig_symbol signal = s)) as [<-|Hne].
    + rewrite Hfree, String.eqb_refl, lookup_insert_eq.
      by rewrite bool_decide_eq_true_2 by eauto.
    + rewrite (proj2 (String.eqb_neq _ _) Hne).
      rewrite lookup_insert_ne by done. unfold hasActivePosition. lia.
Qed.

(** The ways through the loop body: the symbol is skipped; or its candles
    are fetched, and then nothing more is done, or [std::stoi] throws on a
    timestamp, or a signal is handed to [placeOrder]. *)
Lemma process_symbol_cases (mkt : Market) (symbol : string)
    (c : ZerodhaClient) :
  let fetched :=
    complain (fetch_errors c mkt symbol (setting_for c symbol).1) c in
  (hasActivePosition c symbol = true
   ∧ process_symbol mkt symbol c = (Completed, c))
  ∨ (hasActivePosition c symbol = false
     ∧ (process_symbol mkt symbol c = (Completed, fetched)
        ∨ process_symbol mkt symbol c = (Thrown, fetched)
        ∨ ∃ last_three,
            sig_action (analyzeStrategy symbol last_three) ≠ ""
            ∧ process_symbol mkt symbol c
              = (Completed,
                 exec (placeOrder mkt (analyzeStrategy symbol last_three))
                   fetched))).
Proof.
  intros fetched. subst fetched. unfold process_symbol. run_M.
  destruct (hasActivePosition c symbol) eqn:Hhas; [by left|]. right.
  split; [done|].
  destruct (setting_for c symbol) as [timeframe ema_period]. cbn [fst].
  rewrite getHistoricalData_run. cbn iota beta.
  destruct (bool_decide _); [|by left].
  destruct (getLastThreeCandles _ _) as [last_three| |];
    [|by right; left|by left].
  destruct (negb _) eqn:Haction; [|by left].
  apply negb_true_iff, String.eqb_neq in Haction.
  right. right. exists last_three. split; [done|].
  by destruct (placeOrder mkt (analyzeStrategy symbol last_three) _).
Qed.

Lemma hasActivePosition_complain (errs : list ErrorReport)
    (c : ZerodhaClient) (symbol : string) :
  hasActivePosition (complain errs c) symbol = hasActivePosition c symbol.
Proof. reflexivity. Qed.

Lemma process_symbol_consistent (mkt : Market) (symbol : string)
    (c : ZerodhaClient) :
  book_consistent c → book_consistent (exec (process_symbol mkt symbol) c).
Proof.
  intros Hc. unfold exec.
  assert (∀ errs, book_consistent (complain errs c)) as Hfetched.
  { intros errs. by apply (book_consistent_fields c). }
  destruct (process_symbol_cases mkt symbol c)
    as [[_ ->] | [Hhas [-> | [-> | (last_three & _ & ->)]]]];
    cbn [snd]; try done.
  pose proof (placeOrder_consistent mkt (analyzeStrategy symbol last_three)
                (complain (fetch_errors c mkt symbol (setting_for c symbol).1)
                   c)) as Hplace.
  rewrite analyzeStrategy_symbol in Hplace. by apply Hplace.
Qed.

Lemma exit_events_count (c : ZerodhaClient) (mkt : Market)
    (entries : list (string * ActivePosition)) (s : string) :
  live_positions s (omap (position_event c mkt) entries)
  = (- Z.of_nat (length (filter (λ e, about s e = true)
                           (omap (position_event c mkt) entries))))%Z.
Proof.
  induction entries as [|entry rest IH]; csimpl; [reflexivity|].
  destruct (position_event c mkt entry) as [ev|] eqn:Hev; csimpl;
    [|exact IH].
  destruct (position_event_about c mkt entry ev s Hev)
    as (Habout & Hexit & Hentry).
  rewrite live_positions_cons, IH, filter_cons, Hentry, Hexit, Habout.
  destruct (String.eqb entry.1 s); simpl; lia.
Qed.

Lemma checkPositionStatus_log (mkt : Market) (c : ZerodhaClient) :
  order_log (exec (checkPositionStatus mkt) c)
  = order_log c
    ++ omap (position_event c mkt) (positions_in_order (active_positions_ c)).
Proof. unfold exec. by rewrite checkPositionStatus_run. Qed.

Lemma checkPositionStatus_absent (mkt : Market) (c : ZerodhaClient)
    (s : string) :
  active_positions_ c !! s = None →
  active_positions_ (exec (checkPositionStatus mkt) c) !! s = None.
Proof.
  intros Hpos. unfold exec. rewrite checkPositionStatus_run. simpl.
  rewrite lookup_remove_all, Hpos. by destruct (bool_decide _).
Qed.

Lemma checkPositionStatus_consistent (mkt : Market) (c : ZerodhaClient) :
  book_consistent c → book_consistent (exec (checkPositionStatus mkt) c).
Proof.
  intros Hc s.
  pose proof (positions_in_order_NoDup (active_positions_ c)) as Hnodup.
  rewrite checkPositionStatus_log, live_positions_app, exit_events_count,
    (Hc s).
  unfold hasActivePosition.
  destruct (active_positions_ c !! s) as [p|] eqn:Hpos.
  - destruct (checkPositionStatus_symbol mkt c s p Hpos)
      as (Hnew & Hevents & _ & Hlookup).
    rewrite Hnew in Hevents. rewrite Hevents, Hlookup.
    rewrite bool_decide_eq_true_2 by eauto.
    destruct (position_event c mkt (s, p)); simpl; lia.
  - rewrite events_about_symbol, (find_no_position _ _ Hpos) by done.
    rewrite (checkPositionStatus_absent mkt c s Hpos).
    by rewrite bool_decide_eq_false_2 by (by intros [? ?]).
Qed.

Lemma process_symbols_consistent (t : Tick) (symbols : list string)
    (i : nat) (c : ZerodhaClient) :
  book_consistent c → book_consistent (exec (process_symbols t i symbols) c).
Proof.
  revert i c. induction symbols as [|symbol rest IH]; intros i c Hc;
    [exact Hc|].
  simpl. run_M.
  pose proof (process_symbol_consistent (symbol_market t i) symbol c Hc)
    as Hstep.
  unfold exec in Hstep.
  destruct (process_symbol (symbol_market t i) symbol c) as [[] c1];
    [by apply IH | exact Hstep].
Qed.

Lemma trading_tick_consistent (t : Tick) (c : ZerodhaClient) :
  book_consistent c → book_consistent (exec (trading_tick t) c).
Proof.
  intros Hc. unfold trading_tick.
  destruct (market_closed t); [exact Hc|]. run_M.
  pose proof (checkPositionStatus_consistent (exit_market t) c Hc) as Hexit.
  unfold exec in Hexit.
  destruct (checkPositionStatus (exit_market t) c) as [[] c1].
  by apply process_symbols_consistent.
Qed.

Lemma run_step_consistent (step : LoopStep) (c : ZerodhaClient) :
  book_consistent c → book_consistent (exec (run_step step) c).
Proof.
  destruct step as [mkt | mkt symbol]; simpl.
  - intros Hc. pose proof (checkPositionStatus_consistent mkt c Hc) as Hexit.
    unfold exec in *. run_M.
    by destruct (checkPositionStatus mkt c) as [[] c1].
  - apply process_symbol_consistent.
Qed.

Lemma until_thrown_consistent {A} (body : A → M Ending) (l : list A)
    (c : ZerodhaClient) :
  (∀ x c, book_consistent c → book_consistent (exec (body x) c)) →
  book_consistent c → book_consistent (exec (until_thrown body l) c).
Proof.
  intros Hbody. revert c. induction l as [|x rest IH]; intros c Hc;
    [exact Hc|].
  simpl. run_M. pose proof (Hbody x c Hc) as Hstep. unfold exec in Hstep.
  destruct (body x c) as [[] c1]; [by apply IH | exact Hstep].
Qed.

Lemma initial_client_consistent (access_token : string)
    (settings : list TradeSetting) (instruments : gmap string Instrument) :
  book_consistent (initial_client access_token settings instruments).
Proof. intros s. reflexivity. Qed.

Lemma process_symbol_skips (mkt : Market) (symbol : string)
    (c : ZerodhaClient) :
  hasActivePosition c symbol = true →
  process_symbol mkt symbol c = (Completed, c).
Proof. intros Hhas. unfold process_symbol. run_M. by rewrite Hhas. Qed.

Lemma consistent_one_position (c : ZerodhaClient) (symbol : string) :
  book_consistent c → one_position c symbol.
Proof.
  intros Hc. unfold one_position.
  rewrite (Hc symbol), position_count_lookup.
  destruct (hasActivePosition c symbol); split; simpl; lia.
Qed.

(** C1: from the client with no position, after any sequence of loop steps
    (exit checks and symbol evaluations, in any order and under any market,
    up to the step an exception ends, if any) and after any number of
    iterations of the trading loop, a symbol has at most one position, in
    the table and by the count of logged entries not yet closed; and
    evaluating a symbol that has a position submits nothing: the check
    comes before any entry order. *)
Theorem one_position_per_symbol (access_token : string)
    (settings : list TradeSetting) (instruments : gmap string Instrument)
    (steps : list LoopStep) (ticks : list Tick) (symbol : string) :
  let start := initial_client access_token settings instruments in
  one_position (exec (until_thrown run_step steps) start) symbol
  ∧ one_position (exec (runTradingLoop ticks) start) symbol
  ∧ (∀ mkt c, hasActivePosition c symbol = true →
       process_symbol mkt symbol c = (Completed, c))
  ∧ (∀ mkt c,
       orders_posted (exec (process_symbol mkt symbol) c) ≠ orders_posted c →
       hasActivePosition c symbol = false).
Proof.
  intros start.
  pose proof (initial_client_consistent access_token settings instruments)
    as Hstart.
  split; [|split; [|split]].
  - apply consistent_one_position, until_thrown_consistent; [|exact Hstart].
    apply run_step_consistent.
  - apply consistent_one_position. unfold runTradingLoop.
    apply until_thrown_consistent; [|exact Hstart].
    apply trading_tick_consistent.
  - intros mkt c. apply process_symbol_skips.
  - intros mkt c Hposted.
    destruct (hasActivePosition c symbol) eqn:Hhas; [|reflexivity].
    exfalso. apply Hposted. unfold exec.
    by rewrite process_symbol_skips.
Qed.

(** ** Insufficient data *)

Lemma analyzeStrategy_default (symbol : string) :
  analyzeStrategy symbol LastThreeCandles_default
  = mkSignal symbol "" zero zero zero 1.
Proof. reflexivity. Qed.

(** C10: with fewer than three candles or EMA values the window is the
    default snapshot, every field 0; on it the signal generator returns the
    empty action, [0 < 0] and [0 > 0] being false; and the loop, given such
    data for a symbol, posts no order and leaves the client as it was, but
    for the lines [getHistoricalData] wrote to the error stream when the
    request was not served. *)
Theorem insufficient_data_places_no_order (mkt : Market) (c : ZerodhaClient)
    (symbol : string) (candles : list CandleData) (ema_values : list double) :
  (length candles < 3 ∨ length ema_values < 3)%nat →
  getLastThreeCandles candles ema_values = Snapshot LastThreeCandles_default
  ∧ Forall (λ field : LastThreeCandles → double,
              field LastThreeCandles_default = zero)
      [last_open; last_high; last_low; last_close; last_ema;
       second_open; second_high; second_low; second_close; second_ema;
       third_open; third_high; third_low; third_close; third_ema]
  ∧ lt zero zero = false ∧ gt zero zero = false
  ∧ sig_action (analyzeStrategy symbol LastThreeCandles_default) = ""
  ∧ (eval (getHistoricalData mkt symbol (setting_for c symbol).1) c = candles →
     calculateEMA (close <$> candles) (setting_for c symbol).2 = ema_values →
     process_symbol mkt symbol c
     = (Completed,
        complain
          (if hasActivePosition c symbol then []
           else fetch_errors c mkt symbol (setting_for c symbol).1) c)
     ∧ orders_posted (exec (process_symbol mkt symbol) c) = orders_posted c
     ∧ (isLoggedIn c = true → getInstrumentToken c symbol ≠ "" →
        historical mkt symbol (setting_for c symbol).1 = served candles →
        process_symbol mkt symbol c = (Completed, c))).
Proof.
  intros Hshort.
  pose proof (getLastThreeCandles_short candles ema_values Hshort) as Hwin.
  split; [exact Hwin|]. split; [repeat constructor|].
  split; [reflexivity|]. split; [reflexivity|]. split; [reflexivity|].
  intros Hcandles Hema.
  assert (process_symbol mkt symbol c
          = (Completed,
             complain
               (if hasActivePosition c symbol then []
                else fetch_errors c mkt symbol (setting_for c symbol).1) c))
    as Hrun.
  { destruct (hasActivePosition c symbol) eqn:Hhas.
    - by rewrite process_symbol_skips, complain_nil.
    - unfold process_symbol, mbind, M_bind, mret, M_ret, get. simpl.
      rewrite Hhas.
      destruct (setting_for c symbol) as [timeframe ema_period].
      cbn [fst snd] in *.
      rewrite getHistoricalData_run, Hcandles. cbn iota beta.
      destruct (bool_decide _); [|reflexivity].
      rewrite Hema, Hwin. reflexivity. }
  split; [exact Hrun|]. split.
  - unfold exec. by rewrite Hrun.
  - intros Hlogged Htoken Hserved. rewrite Hrun.
    rewrite (fetch_errors_served mkt symbol _ c candles) by done.
    destruct (hasActivePosition c symbol); by rewrite complain_nil.
Qed.

(** Two candles only. *)
Lemma insufficient_data_places_no_order_witness :
  let mkt := mkMarket (λ _ _, served [flat_candle 10; flat_candle 11])
               (λ _, mkResponse 200 (JsonObject "success" (Some "order-1"))) in
  getLastThreeCandles [flat_candle 10; flat_candle 11]
    (calculateEMA [10%float; 11%float] 20)
  = Snapshot LastThreeCandles_default
  ∧ exec (process_symbol mkt "INFY") infy_client = infy_client.
Proof.
  intros mkt.
  pose proof (insufficient_data_places_no_order mkt infy_client "INFY"
                [flat_candle 10; flat_candle 11]
                (calculateEMA [10%float; 11%float] 20)
                ltac:(left; simpl; lia))
    as (Hwin & _ & _ & _ & _ & Hrun).
  split; [exact Hwin|].
  destruct (Hrun eq_refl eq_refl) as (_ & _ & Hserved).
  unfold exec. by rewrite (Hserved eq_refl ltac:(discriminate) eq_refl).
Defined.

(** ** The quantity of a signal *)

(** C8 fails on the code: the INFY setting asks for 50 shares, and the
    signal, whatever the snapshot, carries the quantity 1; the entry order
    and its two legs are posted for 1 share. *)
Theorem signal_quantity_ignores_setting :
  ts_quantity <$> trade_settings_ infy_client = [50%Z]
  ∧ getMatchedSymbols infy_client = ["INFY"]
  ∧ (∀ symbol data, sig_quantity (analyzeStrategy symbol data) = 1%Z)
  ∧ ord_quantity <$>
      orders_posted (exec (process_symbol rising_market "INFY") infy_client)
    = [1%Z; 1%Z; 1%Z]
  ∧ ord_order_type <$>
      orders_posted (exec (process_symbol rising_market "INFY") infy_client)
    = ["MARKET"; "SL"; "LIMIT"]
  ∧ pos_quantity <$>
      active_positions_
        (exec (process_symbol rising_market "INFY") infy_client) !! "INFY"
    = Some 1%Z.
Proof.
  split; [reflexivity|]. split; [reflexivity|]. split.
  - intros symbol data. unfold analyzeStrategy.
    destruct (buy_conditions data); [reflexivity|].
    destruct (sell_conditions data); reflexivity.
  - repeat split; vm_compute; reflexivity.
Qed.

(** * Further properties *)

(** ** The paths of [placeOrder] *)

Lemma accepted_id_entry_accepted (r : Response) :
  entry_accepted r = bool_decide (is_Some (accepted_id r)).
Proof.
  unfold entry_accepted, accepted_id.
  destruct (status_code r =? 200)%Z; simpl; [|done].
  destruct (text r) as [|status [order_id|]]; try done.
  by destruct (String.eqb status "success").
Qed.

Lemma handle_order_response_accepted (what : string) (response : Response)
    (on_success : string → M unit) (c : ZerodhaClient) (order_id : string) :
  accepted_id response = Some order_id →
  handle_order_response what response on_success c
  = (true, exec (on_success order_id) c).
Proof.
  unfold accepted_id, handle_order_response, exec. intros Hid.
  destruct (status_code response =? 200)%Z; [|done].
  destruct (text response) as [|status [id|]]; try done.
  destruct (String.eqb status "success"); [|done].
  simplify_eq. run_M. by destruct (on_success order_id c).
Qed.

Lemma handle_order_response_rejected (what : string) (response : Response)
    (on_success : string → M unit) (c : ZerodhaClient) :
  accepted_id response = None →
  ∃ err,
    handle_order_response what response on_success c
    = (false, mkClient (access_token_ c) (trade_settings_ c)
                (instruments_cache_ c) (active_positions_ c) (order_log c)
                (orders_posted c) (cerr c ++ [err])).
Proof.
  intros Hid. apply handle_order_response_refused.
  rewrite accepted_id_entry_accepted, Hid.
  apply bool_decide_eq_false_2. by intros [? ?].
Qed.

Lemma placeStopLossOrder_run (mkt : Market) (signal : TradeSignal)
    (c : ZerodhaClient) :
  isLoggedIn c = true →
  let r := order_reply mkt (stop_loss_order signal) in
  ∃ errs,
    placeStopLossOrder mkt (sig_symbol signal) (sig_action signal)
      (sig_stop_loss signal) (sig_quantity signal) c
    = (bool_decide (is_Some (accepted_id r)),
       mkClient (access_token_ c) (trade_settings_ c) (instruments_cache_ c)
         (active_positions_ c)
         (order_log c ++ leg_event signal (sig_stop_loss signal) "STOPLOSS" r)
         (orders_posted c ++ [stop_loss_order signal]) (cerr c ++ errs)).
Proof.
  intros Hlogged r. unfold placeStopLossOrder. run_M. rewrite Hlogged. simpl.
  unfold makePostRequest. run_M. fold (stop_loss_order signal). fold r.
  unfold leg_event.
  destruct (accepted_id r) as [order_id|] eqn:Hid.
  - exists []. erewrite handle_order_response_accepted by exact Hid.
    rewrite bool_decide_eq_true_2 by eauto.
    unfold exec, logOrder, append_log. run_M. by rewrite app_nil_r.
  - match goal with
    | |- context [handle_order_response ?w ?r' ?k ?c'] =>
        destruct (handle_order_response_rejected w r' k c' Hid) as [err ->]
    end.
    exists [err]. rewrite bool_decide_eq_false_2 by (by intros [? ?]).
    simpl. by rewrite app_nil_r.
Qed.

Lemma placeTargetOrder_run (mkt : Market) (signal : TradeSignal)
    (c : ZerodhaClient) :
  isLoggedIn c = true →
  let r := order_reply mkt (target_order signal) in
  ∃ errs,
    placeTargetOrder mkt (sig_symbol signal) (sig_action signal)
      (sig_target signal) (sig_quantity signal) c
    = (bool_decide (is_Some (accepted_id r)),
       mkClient (access_token_ c) (trade_settings_ c) (instruments_cache_ c)
         (active_positions_ c)
         (order_log c ++ leg_event signal (sig_target signal) "TARGET" r)
         (orders_posted c ++ [target_order signal]) (cerr c ++ errs)).
Proof.
  intros Hlogged r. unfold placeTargetOrder. run_M. rewrite Hlogged. simpl.
  unfold makePostRequest. run_M. fold (target_order signal). fold r.
  unfold leg_event.
  destruct (accepted_id r) as [order_id|] eqn:Hid.
  - exists []. erewrite handle_order_response_accepted by exact Hid.
    rewrite bool_decide_eq_true_2 by eauto.
    unfold exec, logOrder, append_log. run_M. by rewrite app_nil_r.
  - match goal with
    | |- context [handle_order_response ?w ?r' ?k ?c'] =>
        destruct (handle_order_response_rejected w r' k c' Hid) as [err ->]
    end.
    exists [err]. rewrite bool_decide_eq_false_2 by (by intros [? ?]).
    simpl. by rewrite app_nil_r.
Qed.

(** The whole of an accepted entry. *)
Lemma placeOrder_accepted (mkt : Market) (signal : TradeSignal)
    (c : ZerodhaClient) (order_id : string) :
  isLoggedIn c = true → sig_action signal ≠ "" →
  accepted_id (order_reply mkt (entry_order signal)) = Some order_id →
  let sl := order_reply mkt (stop_loss_order signal) in
  let tg := order_reply mkt (target_order signal) in
  ∃ errs,
    placeOrder mkt signal c
    = (true,
       mkClient (access_token_ c) (trade_settings_ c) (instruments_cache_ c)
         (<[sig_symbol signal :=
              opened_position signal order_id
                (bool_decide (is_Some (accepted_id sl)))
                (bool_decide (is_Some (accepted_id tg)))]>
            (active_positions_ c))
         (order_log c
          ++ [LogOrder (sig_symbol signal) (sig_action signal) order_id
                (sig_entry_price signal) (sig_quantity signal) "ENTRY"]
          ++ leg_event signal (sig_stop_loss signal) "STOPLOSS" sl
          ++ leg_event signal (sig_target signal) "TARGET" tg)
         (orders_posted c
          ++ [entry_order signal; stop_loss_order signal; target_order signal])
         (cerr c ++ errs)).
Proof.
  intros Hlogged Haction Hid sl tg. unfold placeOrder. run_M.
  rewrite Hlogged. simpl.
  destruct (String.eqb (sig_action signal) "") eqn:Hempty;
    [by apply String.eqb_eq in Hempty|].
  unfold makePostRequest. run_M.
  erewrite handle_order_response_accepted by exact Hid.
  unfold exec, logOrder, append_log, addActivePosition. run_M.
  match goal with
  | |- context [placeStopLossOrder _ _ _ _ _ ?c1] =>
      destruct (placeStopLossOrder_run mkt signal c1 Hlogged) as [errs1 ->]
  end.
  fold sl. simpl.
  set (sl_ok := bool_decide (is_Some (accepted_id sl))).
  assert (∃ errs2 c2,
    (if sl_ok
     then update_position (sig_symbol signal) set_stop_loss_placed
     else report (ErrOrderFailed "stop loss leg"))
      (mkClient (access_token_ c) (trade_settings_ c) (instruments_cache_ c)
         (<[sig_symbol signal :=
              opened_position signal order_id false false]>
            (active_positions_ c))
         ((order_log c
           ++ [LogOrder (sig_symbol signal) (sig_action signal) order_id
                 (sig_entry_price signal) (sig_quantity signal) "ENTRY"])
          ++ leg_event signal (sig_stop_loss signal) "STOPLOSS" sl)
         ((orders_posted c ++ [entry_order signal])
          ++ [stop_loss_order signal]) (cerr c ++ errs1))
    = (tt, c2)
    ∧ c2 = mkClient (access_token_ c) (trade_settings_ c)
             (instruments_cache_ c)
             (<[sig_symbol signal :=
                  opened_position signal order_id sl_ok false]>
                (active_positions_ c))
             ((order_log c
               ++ [LogOrder (sig_symbol signal) (sig_action signal) order_id
                     (sig_entry_price signal) (sig_quantity signal) "ENTRY"])
              ++ leg_event signal (sig_stop_loss signal) "STOPLOSS" sl)
             ((orders_posted c ++ [entry_order signal])
              ++ [stop_loss_order signal]) (cerr c ++ errs2))
    as (errs2 & c2 & Hflag & ->).
  { destruct sl_ok; unfold update_position, report, set_positions; run_M.
    - exists errs1. eexists. split; [reflexivity|].
      by rewrite lookup_insert_eq, insert_insert_eq.
    - exists (errs1 ++ [ErrOrderFailed "stop loss leg"]). eexists.
      split; [reflexivity|]. by rewrite app_assoc. }
  unfold opened_position in Hflag. rewrite Hflag. clear Hflag.
  match goal with
  | |- context [placeTargetOrder _ _ _ _ _ ?c3] =>
      destruct (placeTargetOrder_run mkt signal c3 Hlogged) as [errs3 ->]
  end.
  fold tg. simpl.
  destruct (bool_decide (is_Some (accepted_id tg)));
    unfold update_position, report, set_positions; run_M.
  - exists (errs2 ++ errs3). unfold opened_position.
    rewrite lookup_insert_eq, insert_insert_eq. simpl.
    by rewrite <- !app_assoc.
  - exists ((errs2 ++ errs3) ++ [ErrOrderFailed "target leg"]).
    unfold opened_position. by rewrite <- !app_assoc.
Qed.

(** X1: an accepted entry.  Logged in, with a non-empty action and an
    entry order the gateway accepts, [placeOrder] returns true after
    posting three orders, the entry, the stop-loss leg and the target leg,
    each leg whatever became of the other; it logs the entry and the
    accepted legs, and stores for the symbol a position with the signal's
    levels, no leg order id, and the two flags telling which legs were
    accepted. *)
Theorem placeOrder_accepted_entry (mkt : Market) (signal : TradeSignal)
    (c : ZerodhaClient) (order_id : string) :
  isLoggedIn c = true → sig_action signal ≠ "" →
  accepted_id (order_reply mkt (entry_order signal)) = Some order_id →
  let sl := order_reply mkt (stop_loss_order signal) in
  let tg := order_reply mkt (target_order signal) in
  let c' := exec (placeOrder mkt signal) c in
  eval (placeOrder mkt signal) c = true
  ∧ orders_posted c'
    = orders_posted c
      ++ [entry_order signal; stop_loss_order signal; target_order signal]
  ∧ active_positions_ c'
    = <[sig_symbol signal :=
          opened_position signal order_id
            (bool_decide (is_Some (accepted_id sl)))
            (bool_decide (is_Some (accepted_id tg)))]>
        (active_positions_ c)
  ∧ order_log c'
    = order_log c
      ++ [LogOrder (sig_symbol signal) (sig_action signal) order_id
            (sig_entry_price signal) (sig_quantity signal) "ENTRY"]
      ++ leg_event signal (sig_stop_loss signal) "STOPLOSS" sl
      ++ leg_event signal (sig_target signal) "TARGET" tg
  ∧ hasActivePosition c' (sig_symbol signal) = true.
Proof.
  intros Hlogged Haction Hid sl tg c'.
  destruct (placeOrder_accepted mkt signal c order_id Hlogged Haction Hid)
    as [errs Hrun].
  subst c'. unfold exec, eval. rewrite Hrun. simpl.
  repeat split; try reflexivity.
  unfold hasActivePosition. simpl. rewrite lookup_insert_eq.
  by apply bool_decide_eq_true_2.
Qed.

(** A BUY signal whose stop-loss leg the gateway refuses: the position is
    held with [stop_loss_placed = false] and [target_placed = true]. *)
Lemma placeOrder_accepted_entry_witness :
  let signal := mkSignal "INFY" "BUY" 16 10.5 27 1 in
  let c' := exec (placeOrder stop_loss_refusing signal) infy_client in
  ord_order_type <$> orders_posted c' = ["MARKET"; "SL"; "LIMIT"]
  ∧ active_positions_ c' !! "INFY"
    = Some (mkPosition "INFY" "order-7" "" "" "BUY" 16 10.5 27 1 false true).
Proof.
  intros signal c'.
  pose proof (placeOrder_accepted_entry stop_loss_refusing signal infy_client
                "order-7" eq_refl ltac:(discriminate) eq_refl)
    as (_ & Hposted & Hpos & _).
  fold c' in Hposted, Hpos. rewrite Hposted, Hpos. split; reflexivity.
Defined.

Lemma placeOrder_no_action (mkt : Market) (signal : TradeSignal)
    (c : ZerodhaClient) :
  isLoggedIn c = true → sig_action signal = "" →
  placeOrder mkt signal c = (false, c).
Proof.
  intros Hlogged Haction. unfold placeOrder. run_M.
  by rewrite Hlogged, Haction.
Qed.

(** X2: logged out, or given a signal with the empty action, [placeOrder]
    returns false without posting anything; the table and the log are as
    before. *)
Theorem placeOrder_without_request (mkt : Market) (signal : TradeSignal)
    (c : ZerodhaClient) :
  isLoggedIn c = false ∨ sig_action signal = "" →
  let c' := exec (placeOrder mkt signal) c in
  eval (placeOrder mkt signal) c = false
  ∧ orders_posted c' = orders_posted c
  ∧ active_positions_ c' = active_positions_ c
  ∧ order_log c' = order_log c.
Proof.
  intros Hwhy c'. subst c'. unfold exec, eval.
  destruct (isLoggedIn c) eqn:Hlogged.
  - destruct Hwhy as [?|Haction]; [done|].
    by rewrite (placeOrder_no_action mkt signal c Hlogged Haction).
  - by rewrite (placeOrder_not_logged_in mkt signal c Hlogged).
Qed.

Lemma placeOrder_without_request_witness :
  let signal := mkSignal "INFY" "" 0 0 0 1 in
  eval (placeOrder rising_market signal) infy_client = false
  ∧ orders_posted (exec (placeOrder rising_market signal) infy_client) = [].
Proof.
  intros signal.
  pose proof (placeOrder_without_request rising_market signal infy_client
                (or_intror eq_refl)) as (Hret & Hposted & _).
  split; [exact Hret | exact Hposted].
Defined.

(** ** The exit check, beyond the hits *)

Lemma evolves_refl (c : ZerodhaClient) : evolves c c.
Proof. unfold evolves. by split_and!. Qed.

Lemma evolves_trans (c1 c2 c3 : ZerodhaClient) :
  evolves c1 c2 → evolves c2 c3 → evolves c1 c3.
Proof.
  intros (Ht & Hs & Hi & Hl & Hp & He) (Ht' & Hs' & Hi' & Hl' & Hp' & He').
  unfold evolves. split_and!; try congruence; by etrans.
Qed.

Lemma checkPositionStatus_fields (mkt : Market) (c : ZerodhaClient) :
  let c' := exec (checkPositionStatus mkt) c in
  access_token_ c' = access_token_ c
  ∧ trade_settings_ c' = trade_settings_ c
  ∧ instruments_cache_ c' = instruments_cache_ c
  ∧ orders_posted c' = orders_posted c
  ∧ cerr c'
    = cerr c
      ++ concat ((λ e, fetch_errors c mkt e.1 "5minute")
                   <$> positions_in_order (active_positions_ c)).
Proof. unfold exec. by rewrite checkPositionStatus_run. Qed.

Lemma checkPositionStatus_lookup (mkt : Market) (c : ZerodhaClient)
    (s : string) :
  active_positions_ (exec (checkPositionStatus mkt) c) !! s
  = match active_positions_ c !! s with
    | Some p =>
        if position_event c mkt (s, p) is Some _ then None else Some p
    | None => None
    end.
Proof.
  destruct (active_positions_ c !! s) as [p|] eqn:Hpos.
  - by destruct (checkPositionStatus_symbol mkt c s p Hpos) as (_ & _ & _ & ->).
  - by apply checkPositionStatus_absent.
Qed.

Lemma checkPositionStatus_no_position (mkt : Market) (c : ZerodhaClient) :
  active_positions_ c = ∅ → checkPositionStatus mkt c = (tt, c).
Proof.
  intros Hempty. rewrite checkPositionStatus_run, Hempty.
  assert (positions_in_order (∅ : gmap string ActivePosition) = []) as ->
    by (unfold positions_in_order; by rewrite map_to_list_empty).
  simpl. by rewrite app_nil_r, with_log_id, set_positions_id, complain_nil.
Qed.

Lemma concat_nil_Forall {A B} (f : A → list B) (l : list A) :
  Forall (λ x, f x = []) l → concat (f <$> l) = [].
Proof.
  induction 1 as [|x rest Hx _ IH]; [done|]. csimpl. by rewrite Hx, IH.
Qed.

(** X3: the exit check only logs and removes.  It posts no order (a
    detected hit cancels no pending leg and squares nothing off) and leaves
    login, settings and instruments alone.  To the error stream it adds,
    [OrderLog.txt] taken to open, exactly what its fetches write, one
    [getHistoricalData] call for each position in the order of the keys,
    which is nothing when the client is logged in and the request of every
    held symbol is served.  Each position
    is either removed or kept exactly as it was, no position appears; and
    on a client without positions it does nothing at all. *)
Theorem checkPositionStatus_only_removes (mkt : Market) (c : ZerodhaClient) :
  let c' := exec (checkPositionStatus mkt) c in
  orders_posted c' = orders_posted c
  ∧ cerr c'
    = cerr c
      ++ concat ((λ e, fetch_errors c mkt e.1 "5minute")
                   <$> positions_in_order (active_positions_ c))
  ∧ (isLoggedIn c = true →
     (∀ s, is_Some (active_positions_ c !! s) →
           getInstrumentToken c s ≠ ""
           ∧ ∃ candles, historical mkt s "5minute" = served candles) →
     cerr c' = cerr c)
  ∧ access_token_ c' = access_token_ c
  ∧ trade_settings_ c' = trade_settings_ c
  ∧ instruments_cache_ c' = instruments_cache_ c
  ∧ order_log c `prefix_of` order_log c'
  ∧ (∀ s p, active_positions_ c' !! s = Some p →
            active_positions_ c !! s = Some p)
  ∧ (active_positions_ c = ∅ → checkPositionStatus mkt c = (tt, c)).
Proof.
  intros c'.
  destruct (checkPositionStatus_fields mkt c) as (Ht & Hs & Hi & Hp & He).
  split_and!; try done.
  - intros Hlogged Hserved. subst c'. rewrite He.
    rewrite concat_nil_Forall; [by rewrite app_nil_r|].
    apply Forall_forall. intros [s p] He'.
    apply positions_in_order_elem in He'.
    destruct (Hserved s) as (Htoken & candles & Hcandles); [by eauto|].
    by eapply fetch_errors_served.
  - subst c'. rewrite checkPositionStatus_log. by apply prefix_app_r.
  - intros s p. subst c'. rewrite checkPositionStatus_lookup.
    destruct (active_positions_ c !! s) as [p'|]; [|done].
    by destruct (position_event c mkt (s, p')).
  - apply checkPositionStatus_no_position.
Qed.

Lemma le_nan_l (x y : double) : is_nan x = true → le x y = false.
Proof.
  unfold is_nan, le. rewrite FloatAxioms.leb_spec. unfold SFleb.
  by destruct (Prim2SF x).
Qed.

Lemma le_nan_r (x y : double) : is_nan y = true → le x y = false.
Proof.
  unfold is_nan, le. rewrite FloatAxioms.leb_spec. unfold SFleb.
  destruct (Prim2SF y); try done. by destruct (Prim2SF x).
Qed.

Lemma ge_nan_l (x y : double) : is_nan x = true → ge x y = false.
Proof. apply (le_nan_r y x). Qed.

Lemma getHistoricalData_nothing (mkt : Market) (c : ZerodhaClient)
    (symbol timeframe : string) :
  isLoggedIn c = false ∨ getInstrumentToken c symbol = "" →
  eval (getHistoricalData mkt symbol timeframe) c = [].
Proof.
  rewrite getHistoricalData_candles.
  destruct (isLoggedIn c); simpl; intros [?|Htoken]; try done.
  by rewrite Htoken.
Qed.

(** X4: what the exit check does not close.  A position stays in the
    table as it was, and nothing is logged for its symbol, when no candle
    was fetched for it (logged out, no instrument token, or an answer
    that yields no candle), when the fetched close is NaN, when its action is neither BUY
    nor SELL, and when the close is strictly between its two levels. *)
Theorem checkPositionStatus_keeps (mkt : Market) (c : ZerodhaClient)
    (symbol : string) (position : ActivePosition) :
  active_positions_ c !! symbol = Some position →
  (isLoggedIn c = false ∨ getInstrumentToken c symbol = ""
   ∨ candles_of (historical mkt symbol "5minute") = [])
  ∨ (∃ back,
       last (eval (getHistoricalData mkt symbol "5minute") c) = Some back
       ∧ (is_nan (close back) = true
          ∨ (pos_action position ≠ "BUY" ∧ pos_action position ≠ "SELL")
          ∨ (pos_action position = "BUY"
             ∧ le (close back) (pos_stop_loss position) = false
             ∧ ge (close back) (pos_target position) = false)
          ∨ (pos_action position = "SELL"
             ∧ ge (close back) (pos_stop_loss position) = false
             ∧ le (close back) (pos_target position) = false))) →
  let c' := exec (checkPositionStatus mkt) c in
  active_positions_ c' !! symbol = Some position
  ∧ filter (λ e, about symbol e = true) (new_events c c') = [].
Proof.
  intros Hpos Hwhy c'.
  destruct (checkPositionStatus_symbol mkt c symbol position Hpos)
    as (_ & Hevents & _ & Hlookup).
  fold c' in Hevents, Hlookup.
  assert (position_event c mkt (symbol, position) = None) as Hnone.
  { destruct Hwhy as [Hempty | (back & Hlast & Hwhy)].
    - unfold position_event. simpl.
      assert (eval (getHistoricalData mkt symbol "5minute") c = []) as ->;
        [|done].
      destruct Hempty as [Hout | [Htoken | Hnodata]];
        [apply getHistoricalData_nothing; by left
        |apply getHistoricalData_nothing; by right|].
      rewrite getHistoricalData_candles, Hnodata.
      destruct (negb (isLoggedIn c)); [done|].
      by destruct (String.eqb (getInstrumentToken c symbol) "").
    - rewrite (position_event_price c mkt symbol position back Hlast).
      unfold exit_event.
      destruct Hwhy as [Hnan | [[Hb Hs] | [(-> & -> & ->) | (-> & -> & ->)]]].
      + rewrite (le_nan_l _ (pos_stop_loss position) Hnan),
          (le_nan_l _ (pos_target position) Hnan),
          (ge_nan_l _ (pos_stop_loss position) Hnan),
          (ge_nan_l _ (pos_target position) Hnan).
        by rewrite !andb_false_r.
      + apply String.eqb_neq in Hb, Hs. by rewrite Hb, Hs.
      + reflexivity.
      + reflexivity. }
  rewrite Hnone in Hevents, Hlookup. by split.
Qed.

(** A BUY position with stop loss 90 and target 110: at a close of 100,
    and on a day the historical API answers with HTTP 500. *)
Lemma checkPositionStatus_keeps_witness :
  let c := infy_holding "BUY" 90 110 in
  let silent :=
    mkMarket (λ _ _, mkHistorical 500 CandlesFailed)
      (λ _, mkResponse 500 JsonThrows) in
  hasActivePosition (exec (checkPositionStatus (market_at 100)) c) "INFY"
  = true
  ∧ hasActivePosition (exec (checkPositionStatus silent) c) "INFY" = true.
Proof.
  intros c silent.
  pose proof (checkPositionStatus_keeps (market_at 100) c "INFY"
    (mkPosition "INFY" "order-1" "" "" "BUY" 95 90 110 1 true true) eq_refl
    (or_intror (ex_intro _ (flat_candle 100)
       (conj eq_refl
          (or_intror (or_intror (or_introl
             (conj eq_refl (conj eq_refl eq_refl))))))))) as [Hkept _].
  pose proof (checkPositionStatus_keeps silent c "INFY"
    (mkPosition "INFY" "order-1" "" "" "BUY" 95 90 110 1 true true) eq_refl
    (or_introl (or_intror (or_intror eq_refl)))) as [Hkept' _].
  unfold hasActivePosition. rewrite Hkept, Hkept'. split; reflexivity.
Defined.

(** ** The trading window *)

(** X5: the hours of the loop.  With the minute in 0..59, an iteration
    goes on to the exit check and the symbols exactly from 13:40 to 15:30
    local time, both included; at any other time it leaves the client as
    it was. *)
Theorem trading_window (t : Tick) :
  (0 ≤ tm_min t < 60)%Z →
  (market_closed t = false ↔
     (13 * 60 + 40 ≤ tm_hour t * 60 + tm_min t ≤ 15 * 60 + 30)%Z)
  ∧ (market_closed t = true → ∀ c, trading_tick t c = (Completed, c)).
Proof.
  intros Hmin. split.
  - unfold market_closed.
    rewrite !orb_false_iff, !andb_false_iff, !Z.ltb_ge, !Z.eqb_neq. lia.
  - intros Hclosed c. unfold trading_tick. by rewrite Hclosed.
Qed.

Lemma trading_window_witness :
  market_closed (mkTick 13 40 rising_market (λ _, rising_market)) = false
  ∧ market_closed (mkTick 15 31 rising_market (λ _, rising_market)) = true
  ∧ trading_tick (mkTick 9 15 rising_market (λ _, rising_market)) infy_client
    = (Completed, infy_client).
Proof.
  pose proof (trading_window (mkTick 13 40 rising_market (λ _, rising_market))
                ltac:(simpl; lia)) as [Hopen _].
  pose proof (trading_window (mkTick 15 31 rising_market (λ _, rising_market))
                ltac:(simpl; lia)) as [Hshut _].
  pose proof (trading_window (mkTick 9 15 rising_market (λ _, rising_market))
                ltac:(simpl; lia)) as [_ Hidle].
  split; [|split].
  - apply Hopen. simpl. lia.
  - destruct (market_closed _) eqn:Hc in |- *; [reflexivity|].
    apply Hshut in Hc. simpl in Hc. lia.
  - by apply Hidle.
Defined.

(** ** A client that is not logged in *)

Lemma position_event_logged_out (mkt : Market) (c : ZerodhaClient)
    (entry : string * ActivePosition) :
  isLoggedIn c = false → position_event c mkt entry = None.
Proof.
  intros Hout. unfold position_event.
  rewrite getHistoricalData_nothing by by left. reflexivity.
Qed.

Lemma fetch_errors_logged_out (mkt : Market) (symbol timeframe : string)
    (c : ZerodhaClient) :
  isLoggedIn c = false →
  fetch_errors c mkt symbol timeframe = [ErrNotLoggedIn "historical data"].
Proof.
  intros Hout. unfold fetch_errors, new_errors, exec, getHistoricalData, report.
  run_M. rewrite Hout. simpl. by rewrite drop_app_length.
Qed.

Lemma concat_const {A B} (x : B) (f : A → list B) (l : list A) :
  (∀ a, f a = [x]) → concat (f <$> l) = replicate (length l) x.
Proof.
  intros Hf. induction l as [|a rest IH]; [done|]. csimpl.
  by rewrite Hf, IH.
Qed.

Lemma positions_in_order_length (m : gmap string ActivePosition) :
  length (positions_in_order m) = size m.
Proof.
  unfold positions_in_order.
  by rewrite merge_sort_Permutation, length_map_to_list.
Qed.

Lemma checkPositionStatus_logged_out (mkt : Market) (c : ZerodhaClient) :
  isLoggedIn c = false →
  checkPositionStatus mkt c
  = (tt, complain (replicate (size (active_positions_ c))
                     (ErrNotLoggedIn "historical data")) c).
Proof.
  intros Hout. rewrite checkPositionStatus_run.
  assert (∀ entries : list (string * ActivePosition),
            omap (position_event c mkt) entries = []
            ∧ filter (λ e, is_Some (position_event c mkt e)) entries = [])
    as Hnone.
  { induction entries as [|entry rest [IH1 IH2]]; [done|]. csimpl.
    rewrite filter_cons, (position_event_logged_out mkt c entry Hout).
    rewrite decide_False by (by intros [? ?]). by split. }
  destruct (Hnone (positions_in_order (active_positions_ c))) as [-> ->].
  rewrite (concat_const (ErrNotLoggedIn "historical data"))
    by (intros e; by apply fetch_errors_logged_out).
  rewrite positions_in_order_length.
  simpl. by rewrite app_nil_r, with_log_id, set_positions_id.
Qed.

Lemma process_symbol_logged_out (mkt : Market) (symbol : string)
    (c : ZerodhaClient) :
  isLoggedIn c = false →
  process_symbol mkt symbol c
  = (Completed,
     complain (if hasActivePosition c symbol then []
               else [ErrNotLoggedIn "historical data"]) c).
Proof.
  intros Hout. unfold process_symbol, mbind, M_bind, mret, M_ret, get. simpl.
  destruct (hasActivePosition c symbol); [by rewrite complain_nil|].
  destruct (setting_for c symbol) as [timeframe ema_period].
  rewrite getHistoricalData_run, getHistoricalData_nothing by by left.
  by rewrite fetch_errors_logged_out.
Qed.

Lemma process_symbols_logged_out (t : Tick) (symbols : list string) (i : nat)
    (c : ZerodhaClient) :
  isLoggedIn c = false →
  process_symbols t i symbols c
  = (Completed,
     complain
       (replicate
          (length (filter (λ s, hasActivePosition c s = false) symbols))
          (ErrNotLoggedIn "historical data")) c).
Proof.
  revert i c. induction symbols as [|symbol rest IH]; intros i c Hout;
    [by rewrite complain_nil|].
  cbn [process_symbols]. unfold mbind, M_bind.
  rewrite process_symbol_logged_out by done.
  rewrite IH by done. rewrite complain_complain, filter_cons.
  f_equal. f_equal.
  destruct (hasActivePosition c symbol) eqn:Hhas.
  - by rewrite decide_False by done.
  - by rewrite decide_True by done.
Qed.

Lemma trading_tick_logged_out (t : Tick) (c : ZerodhaClient) :
  isLoggedIn c = false →
  trading_tick t c
  = (Completed,
     complain
       (replicate (if market_closed t then 0 else fetches_of_a_tick c)
          (ErrNotLoggedIn "historical data")) c).
Proof.
  intros Hout. unfold trading_tick, fetches_of_a_tick.
  destruct (market_closed t); [by rewrite complain_nil|].
  unfold mbind, M_bind, get.
  rewrite checkPositionStatus_logged_out by done.
  rewrite process_symbols_logged_out by done.
  by rewrite complain_complain, <- replicate_add.
Qed.

(** X6: without an access token the trading loop trades nothing and only
    complains.  Whatever the clock and the market, any number of iterations
    runs to its end and leaves login, settings, instruments, positions, the
    order log and the orders posted as they were: positions already held are
    never closed.  All it does is write, in every iteration inside the
    trading window, one "Not logged in" line to the error stream for each
    position held and one for each matched symbol without a position. *)
Theorem runTradingLoop_logged_out (ticks : list Tick) (c : ZerodhaClient) :
  isLoggedIn c = false →
  runTradingLoop ticks c
  = (Completed,
     complain
       (replicate
          (length (filter (λ t, market_closed t = false) ticks)
           * fetches_of_a_tick c)
          (ErrNotLoggedIn "historical data")) c).
Proof.
  unfold runTradingLoop. revert c.
  induction ticks as [|t rest IH]; intros c Hout;
    [by rewrite complain_nil|].
  cbn [until_thrown]. unfold mbind, M_bind.
  rewrite trading_tick_logged_out by done.
  rewrite IH by done. rewrite complain_complain, <- replicate_add.
  rewrite filter_cons. f_equal. f_equal.
  change (fetches_of_a_tick (complain _ c)) with (fetches_of_a_tick c).
  destruct (market_closed t).
  - by rewrite decide_False by done.
  - rewrite decide_True by done. f_equal; simpl; lia.
Qed.

(** One iteration at 14:00, logged out, with a position held for the only
    matched symbol: one line, from the exit check. *)
Lemma runTradingLoop_logged_out_witness :
  let c := mkClient "" [mkSetting "INFY" 50 "5minute" 20] infy_instruments
             (active_positions_ (infy_holding "BUY" 100 115)) [] [] [] in
  runTradingLoop [mkTick 14 0 (market_at 99) (λ _, rising_market)] c
  = (Completed, complain [ErrNotLoggedIn "historical data"] c).
Proof.
  intros c.
  exact (runTradingLoop_logged_out
           [mkTick 14 0 (market_at 99) (λ _, rising_market)] c eq_refl).
Defined.

(** ** What the loop keeps *)

Lemma keeps_discipline_refl (matched : list string) (c : ZerodhaClient) :
  keeps_discipline matched c c.
Proof. split; [apply evolves_refl | by split]. Qed.

Lemma keeps_discipline_complain (matched : list string)
    (errs : list ErrorReport) (c : ZerodhaClient) :
  keeps_discipline matched c (complain errs c).
Proof.
  unfold keeps_discipline, evolves, complain. simpl.
  split_and!; try done. by apply prefix_app_r.
Qed.

Lemma keeps_discipline_trans (matched : list string)
    (c1 c2 c3 : ZerodhaClient) :
  keeps_discipline matched c1 c2 → keeps_discipline matched c2 c3 →
  keeps_discipline matched c1 c3.
Proof.
  intros (He & Ho & Hp) (He' & Ho' & Hp').
  split; [by eapply evolves_trans | split; auto].
Qed.

Lemma evolves_matched (c c' : ZerodhaClient) :
  evolves c c' → getMatchedSymbols c' = getMatchedSymbols c.
Proof.
  intros (_ & Hs & Hi & _). unfold getMatchedSymbols. by rewrite Hs, Hi.
Qed.

Lemma opposite_side (action : string) :
  opposite action = "BUY" ∨ opposite action = "SELL".
Proof. unfold opposite. destruct (String.eqb action "BUY"); auto. Qed.

Lemma signal_orders_disciplined (matched : list string)
    (signal : TradeSignal) :
  sig_symbol signal ∈ matched →
  sig_action signal = "BUY" ∨ sig_action signal = "SELL" →
  Forall (loop_order matched)
    [entry_order signal; stop_loss_order signal; target_order signal].
Proof.
  intros Hin Haction.
  constructor; [|constructor; [|constructor; [|constructor]]].
  - unfold loop_order, entry_order. cbn [ord_tradingsymbol ord_exchange
      ord_product ord_validity ord_order_type ord_tag ord_trigger_price
      ord_price ord_transaction_type].
    split; [done|]. split; [done|]. split; [done|]. split; [done|].
    destruct Haction as [-> | ->]; (split; [by left | auto]).
  - unfold loop_order, stop_loss_order. cbn [ord_tradingsymbol ord_exchange
      ord_product ord_validity ord_order_type ord_tag ord_trigger_price
      ord_price ord_transaction_type].
    split; [done|]. split; [done|]. split; [done|]. split; [done|].
    split; [|apply opposite_side]. right. left. by eauto.
  - unfold loop_order, target_order. cbn [ord_tradingsymbol ord_exchange
      ord_product ord_validity ord_order_type ord_tag ord_trigger_price
      ord_price ord_transaction_type].
    split; [done|]. split; [done|]. split; [done|]. split; [done|].
    split; [|apply opposite_side]. right. right. by eauto.
Qed.

Lemma placeOrder_keeps_discipline (mkt : Market) (matched : list string)
    (signal : TradeSignal) (c : ZerodhaClient) :
  sig_symbol signal ∈ matched →
  loop_position matched (sig_symbol signal)
    (opened_position signal "" false false) →
  keeps_discipline matched c (exec (placeOrder mkt signal) c).
Proof.
  intros Hin Hshape.
  assert (sig_action signal = "BUY" ∨ sig_action signal = "SELL") as Haction.
  { destruct Hshape as (_ & _ & _ & _ & [[? _] | [? _]]); auto. }
  assert (sig_action signal ≠ "") as Hnonempty
    by (destruct Haction as [-> | ->]; discriminate).
  pose proof (signal_orders_disciplined matched signal Hin Haction) as Horders.
  unfold exec, keeps_discipline, evolves.
  destruct (isLoggedIn c) eqn:Hlogged.
  - destruct (accepted_id (order_reply mkt (entry_order signal)))
      as [order_id|] eqn:Hid.
    + destruct (placeOrder_accepted mkt signal c order_id Hlogged Hnonempty Hid)
        as [errs ->].
      cbn [snd access_token_ trade_settings_ instruments_cache_
             active_positions_ order_log orders_posted cerr].
      split_and!; try done; try by apply prefix_app_r.
      * intros Hold. apply Forall_app. by split.
      * intros Hold. apply map_Forall_insert_2; [|done].
        destruct Hshape as (? & ? & ? & ? & ?). by split_and!.
    + assert (entry_accepted (order_reply mkt (entry_order signal)) = false)
        as Hrefused.
      { rewrite accepted_id_entry_accepted, Hid.
        apply bool_decide_eq_false_2. by intros [? ?]. }
      destruct (placeOrder_refused mkt signal c Hlogged Hnonempty Hrefused)
        as [err ->].
      unfold refused.
      cbn [snd access_token_ trade_settings_ instruments_cache_
             active_positions_ order_log orders_posted cerr].
      split_and!; try done; try by apply prefix_app_r.
      intros Hold. apply Forall_app. split; [done|].
      apply Forall_cons_1 in Horders as [Hentry _].
      by apply Forall_singleton.
  - rewrite (placeOrder_not_logged_in mkt signal c Hlogged).
    cbn [snd access_token_ trade_settings_ instruments_cache_
           active_positions_ order_log orders_posted cerr].
    split_and!; try done. by apply prefix_app_r.
Qed.

Lemma analyzeStrategy_shape (matched : list string) (symbol : string)
    (data : LastThreeCandles) :
  symbol ∈ matched →
  sig_action (analyzeStrategy symbol data) ≠ "" →
  loop_position matched (sig_symbol (analyzeStrategy symbol data))
    (opened_position (analyzeStrategy symbol data) "" false false).
Proof.
  intros Hin Haction. rewrite analyzeStrategy_symbol.
  destruct (buy_conditions data) eqn:Hb.
  - rewrite (analyzeStrategy_buy symbol data Hb) in *.
    unfold loop_position, opened_position. simpl. split_and!; auto.
  - destruct (sell_conditions data) eqn:Hs.
    + rewrite (analyzeStrategy_sell symbol data Hs) in *.
      unfold loop_position, opened_position. simpl. split_and!; auto.
    + by rewrite (analyzeStrategy_none symbol data Hb Hs) in Haction.
Qed.

Lemma process_symbol_keeps_discipline (mkt : Market) (matched : list string)
    (symbol : string) (c : ZerodhaClient) :
  symbol ∈ matched →
  keeps_discipline matched c (exec (process_symbol mkt symbol) c).
Proof.
  intros Hin. unfold exec.
  destruct (process_symbol_cases mkt symbol c)
    as [[_ ->] | [_ [-> | [-> | (last_three & Haction & ->)]]]]; cbn [snd];
    [apply keeps_discipline_refl | apply keeps_discipline_complain
    |apply keeps_discipline_complain|].
  eapply keeps_discipline_trans; [apply keeps_discipline_complain|].
  apply placeOrder_keeps_discipline.
  - by rewrite analyzeStrategy_symbol.
  - by apply analyzeStrategy_shape.
Qed.

Lemma checkPositionStatus_keeps_discipline (mkt : Market)
    (matched : list string) (c : ZerodhaClient) :
  keeps_discipline matched c (exec (checkPositionStatus mkt) c).
Proof.
  destruct (checkPositionStatus_fields mkt c) as (Ht & Hs & Hi & Hp & He).
  unfold keeps_discipline, evolves. split_and!; try done.
  - rewrite checkPositionStatus_log. by apply prefix_app_r.
  - by rewrite Hp.
  - rewrite He. by apply prefix_app_r.
  - by rewrite Hp.
  - intros Hold s p. rewrite checkPositionStatus_lookup.
    destruct (active_positions_ c !! s) as [p'|] eqn:Hpos; [|done].
    destruct (position_event c mkt (s, p')); [done|].
    intros [= <-]. by apply (Hold s p').
Qed.

Lemma process_symbols_keeps_discipline (t : Tick) (matched : list string)
    (symbols : list string) (i : nat) (c : ZerodhaClient) :
  Forall (λ s, s ∈ matched) symbols →
  keeps_discipline matched c (exec (process_symbols t i symbols) c).
Proof.
  intros Hall. revert i c.
  induction Hall as [|symbol rest Hin _ IH]; intros i c;
    [apply keeps_discipline_refl|].
  simpl. unfold exec in *. run_M.
  pose proof (process_symbol_keeps_discipline (symbol_market t i) matched
                symbol c Hin) as Hstep.
  unfold exec in Hstep.
  destruct (process_symbol (symbol_market t i) symbol c) as [[] c1];
    [|exact Hstep].
  eapply keeps_discipline_trans; [exact Hstep | apply IH].
Qed.

Lemma trading_tick_keeps_discipline (t : Tick) (c : ZerodhaClient) :
  keeps_discipline (getMatchedSymbols c) c (exec (trading_tick t) c).
Proof.
  unfold trading_tick, exec.
  destruct (market_closed t); [apply keeps_discipline_refl|]. run_M.
  pose proof (checkPositionStatus_keeps_discipline (exit_market t)
                (getMatchedSymbols c) c) as Hexit.
  unfold exec in Hexit.
  destruct (checkPositionStatus (exit_market t) c) as [[] c1].
  eapply keeps_discipline_trans; [exact Hexit|].
  destruct Hexit as [Hev _].
  rewrite (evolves_matched c c1 Hev).
  apply process_symbols_keeps_discipline.
  rewrite <- (evolves_matched c c1 Hev). by apply Forall_forall.
Qed.

Lemma runTradingLoop_keeps_discipline (ticks : list Tick)
    (c : ZerodhaClient) :
  keeps_discipline (getMatchedSymbols c) c (exec (runTradingLoop ticks) c).
Proof.
  unfold runTradingLoop, exec. revert c.
  induction ticks as [|t rest IH]; intros c; [apply keeps_discipline_refl|].
  simpl. run_M.
  pose proof (trading_tick_keeps_discipline t c) as Hstep.
  unfold exec in Hstep. destruct (trading_tick t c) as [[] c1];
    [|exact Hstep].
  eapply keeps_discipline_trans; [exact Hstep|].
  destruct Hstep as [Hev _]. rewrite <- (evolves_matched c c1 Hev).
  apply IH.
Qed.

(** X7: the loop is append-only.  After any number of iterations from any
    client, the access token, the settings and the instruments are the
    same, and the order log, the orders posted and the error stream each
    start with what they held before. *)
Theorem runTradingLoop_append_only (ticks : list Tick) (c : ZerodhaClient) :
  let c' := exec (runTradingLoop ticks) c in
  access_token_ c' = access_token_ c
  ∧ trade_settings_ c' = trade_settings_ c
  ∧ instruments_cache_ c' = instruments_cache_ c
  ∧ order_log c `prefix_of` order_log c'
  ∧ orders_posted c `prefix_of` orders_posted c'
  ∧ cerr c `prefix_of` cerr c'.
Proof. by destruct (runTradingLoop_keeps_discipline ticks c) as [Hev _]. Qed.

(** X8: the orders of the loop.  From a client with no order posted, every
    order the loop ever posts is for a symbol that is both in the settings
    and among the instruments, on NSE, intraday (MIS) with DAY validity, a
    BUY or a SELL, and one of three kinds: a MARKET order without price
    tagged by its side, an SL order whose trigger is its price, or a LIMIT
    order with a price and no trigger. *)
Theorem runTradingLoop_orders (ticks : list Tick) (c : ZerodhaClient) :
  orders_posted c = [] →
  Forall (loop_order (getMatchedSymbols c))
    (orders_posted (exec (runTradingLoop ticks) c)).
Proof.
  intros Hnone.
  destruct (runTradingLoop_keeps_discipline ticks c) as (_ & Horders & _).
  apply Horders. rewrite Hnone. constructor.
Qed.

Lemma runTradingLoop_orders_witness :
  Forall (loop_order ["INFY"])
    (orders_posted
       (exec (runTradingLoop
                [mkTick 14 0 rising_market (λ _, rising_market)])
          infy_client)).
Proof.
  exact (runTradingLoop_orders
           [mkTick 14 0 rising_market (λ _, rising_market)] infy_client
           eq_refl).
Defined.

(** X9: the positions of the loop.  From a client with no position, every
    position the loop ever holds is filed under its own symbol, which is in
    the settings and among the instruments; it is a BUY or a SELL position
    whose target is [entry + 2 * (entry - stop)] or
    [entry - 2 * (stop - entry)]; and its two leg order ids are empty, the
    ids of the legs being logged and never stored. *)
Theorem runTradingLoop_positions (ticks : list Tick) (c : ZerodhaClient) :
  active_positions_ c = ∅ →
  map_Forall (loop_position (getMatchedSymbols c))
    (active_positions_ (exec (runTradingLoop ticks) c)).
Proof.
  intros Hnone.
  destruct (runTradingLoop_keeps_discipline ticks c) as (_ & _ & Hpos).
  apply Hpos. rewrite Hnone. apply map_Forall_empty.
Qed.

Lemma runTradingLoop_positions_witness :
  map_Forall (loop_position ["INFY"])
    (active_positions_
       (exec (runTradingLoop
                [mkTick 14 0 rising_market (λ _, rising_market)])
          infy_client)).
Proof.
  exact (runTradingLoop_positions
           [mkTick 14 0 rising_market (λ _, rising_market)] infy_client
           eq_refl).
Defined.

(** ** A refused entry *)

Lemma left_alone_refl (symbol : string) (n : nat) (c : ZerodhaClient) :
  left_alone symbol n c c.
Proof.
  split; [done|]. exists [], []. rewrite !app_nil_r.
  split_and!; try done. simpl. lia.
Qed.

Lemma left_alone_complain (symbol : string) (n : nat)
    (errs : list ErrorReport) (c : ZerodhaClient) :
  left_alone symbol n c (complain errs c).
Proof. apply (left_alone_refl symbol n c). Qed.

Lemma left_alone_trans (symbol : string) (n m : nat)
    (c1 c2 c3 : ZerodhaClient) :
  left_alone symbol n c1 c2 → left_alone symbol m c2 c3 →
  left_alone symbol (n + m) c1 c3.
Proof.
  intros (Hp & ev & os & Hl & Ho & He & Hn & Hm)
         (Hp' & ev' & os' & Hl' & Ho' & He' & Hn' & Hm').
  split; [congruence|]. exists (ev ++ ev'), (os ++ os').
  rewrite Hl', Hl, Ho', Ho, !app_assoc, !filter_app, He, He', length_app.
  split_and!; try done; [lia|]. by apply Forall_app.
Qed.

Lemma left_alone_more (symbol : string) (n m : nat) (c c' : ZerodhaClient) :
  (n ≤ m)%nat → left_alone symbol n c c' → left_alone symbol m c c'.
Proof.
  intros Hle (Hp & ev & os & Hl & Ho & He & Hn & Hm).
  split; [done|]. exists ev, os. split_and!; try done. lia.
Qed.

Lemma leg_event_other (symbol : string) (signal : TradeSignal)
    (price : double) (order_type : string) (r : Response) :
  sig_symbol signal ≠ symbol →
  filter (λ e, about symbol e = true) (leg_event signal price order_type r)
  = [].
Proof.
  intros Hne. unfold leg_event. destruct (accepted_id r); [|done].
  rewrite filter_cons, decide_False; [done|]. simpl.
  apply String.eqb_neq in Hne. by rewrite Hne.
Qed.

(** [placeOrder] for one symbol leaves every other symbol alone; and it
    leaves its own symbol alone, having posted the entry, when the gateway
    refuses. *)
Lemma placeOrder_left_alone (mkt : Market) (signal : TradeSignal)
    (symbol : string) (c : ZerodhaClient) :
  sig_action signal ≠ "" →
  (sig_symbol signal = symbol →
   entry_accepted (order_reply mkt (entry_order signal)) = false) →
  left_alone symbol (if bool_decide (sig_symbol signal = symbol) then 1 else 0)
    c (exec (placeOrder mkt signal) c).
Proof.
  intros Haction Hrefuse. unfold exec.
  destruct (isLoggedIn c) eqn:Hlogged.
  2:{ rewrite (placeOrder_not_logged_in mkt signal c Hlogged).
      apply (left_alone_complain symbol _ [_] c). }
  destruct (accepted_id (order_reply mkt (entry_order signal)))
    as [order_id|] eqn:Hid.
  - destruct (placeOrder_accepted mkt signal c order_id Hlogged Haction Hid)
      as [errs ->].
    assert (sig_symbol signal ≠ symbol) as Hne.
    { intros Heq. specialize (Hrefuse Heq).
      rewrite accepted_id_entry_accepted, Hid in Hrefuse.
      by rewrite bool_decide_eq_true_2 in Hrefuse. }
    rewrite bool_decide_eq_false_2 by done.
    split; [cbn [snd active_positions_]; by apply lookup_insert_ne|].
    eexists _, _. cbn [snd order_log orders_posted].
    split; [reflexivity|]. split; [reflexivity|]. split_and!.
    + rewrite !filter_app, !leg_event_other by done.
      rewrite filter_cons, decide_False; [done|]. simpl.
      apply String.eqb_neq in Hne. by rewrite Hne.
    + rewrite !filter_cons, !decide_False by done. simpl. lia.
    + by repeat constructor.
  - assert (entry_accepted (order_reply mkt (entry_order signal)) = false)
      as Hrefused.
    { rewrite accepted_id_entry_accepted, Hid.
      apply bool_decide_eq_false_2. by intros [? ?]. }
    destruct (placeOrder_refused mkt signal c Hlogged Haction Hrefused)
      as [err ->].
    split; [done|]. exists [], [entry_order signal].
    cbn [snd refused order_log orders_posted]. rewrite app_nil_r.
    split_and!; try done.
    + rewrite filter_cons. cbn [entry_order ord_tradingsymbol].
      destruct (decide (sig_symbol signal = symbol)) as [Heq|Hne].
      * by rewrite bool_decide_eq_true_2.
      * simpl. lia.
    + by repeat constructor.
Qed.

Lemma process_symbol_left_alone (mkt : Market) (s symbol : string)
    (c : ZerodhaClient) :
  (∀ signal, sig_symbol signal = symbol →
     entry_accepted (order_reply mkt (entry_order signal)) = false) →
  left_alone symbol (if bool_decide (s = symbol) then 1 else 0)
    c (exec (process_symbol mkt s) c).
Proof.
  intros Hrefuse. unfold exec.
  destruct (process_symbol_cases mkt s c)
    as [[_ ->] | [_ [-> | [-> | (last_three & Haction & ->)]]]]; cbn [snd];
    [apply left_alone_refl | apply left_alone_complain
    |apply left_alone_complain|].
  apply (left_alone_trans symbol 0 _ c _ _
           (left_alone_complain symbol 0
              (fetch_errors c mkt s (setting_for c s).1) c)).
  pose proof (placeOrder_left_alone mkt (analyzeStrategy s last_three) symbol
                (complain (fetch_errors c mkt s (setting_for c s).1) c)
                Haction (Hrefuse _)) as Hplace.
  by rewrite analyzeStrategy_symbol in Hplace.
Qed.

Lemma process_symbols_left_alone (t : Tick) (symbols : list string) (i : nat)
    (symbol : string) (c : ZerodhaClient) :
  (∀ i signal, sig_symbol signal = symbol →
     entry_accepted (order_reply (symbol_market t i) (entry_order signal))
     = false) →
  left_alone symbol (length (filter (λ s, s = symbol) symbols))
    c (exec (process_symbols t i symbols) c).
Proof.
  intros Hrefuse. revert i c.
  induction symbols as [|s rest IH]; intros i c; [apply left_alone_refl|].
  unfold exec in *. cbn [process_symbols]. unfold mbind, M_bind.
  pose proof (process_symbol_left_alone (symbol_market t i) s symbol c
                (Hrefuse i)) as Hstep.
  unfold exec in Hstep.
  assert (length (filter (λ s, s = symbol) (s :: rest))
          = ((if bool_decide (s = symbol) then 1 else 0)
             + length (filter (λ s, s = symbol) rest))%nat) as ->.
  { rewrite filter_cons. destruct (decide (s = symbol)).
    - by rewrite bool_decide_eq_true_2.
    - by rewrite bool_decide_eq_false_2. }
  destruct (process_symbol (symbol_market t i) s c) as [[] c1].
  - eapply left_alone_trans; [exact Hstep | apply IH].
  - eapply left_alone_more; [|exact Hstep]. lia.
Qed.

(** C7: when the gateway rejects or fails the entry order, [placeOrder]
    returns false, creates no position and leaves the table and the order
    log as they were; the failure goes to the error stream, and the order
    was posted once, with no second attempt.  Over one iteration of the
    loop, when the gateway refuses every entry for a symbol, the symbol's
    place in the table is as the exit check left it (a symbol without
    position stays without), nothing is logged for it after the exit
    check, and the orders posted for it are MARKET entries, at most one for
    each time the symbol occurs among the matched symbols: a symbol listed
    once has its entry posted at most once in the iteration. *)
Theorem placeOrder_failure_keeps_no_position (mkt : Market)
    (signal : TradeSignal) (t : Tick) (symbol : string) (c : ZerodhaClient) :
  (isLoggedIn c = true → sig_action signal ≠ "" →
   entry_accepted (order_reply mkt (entry_order signal)) = false →
   let c' := exec (placeOrder mkt signal) c in
   eval (placeOrder mkt signal) c = false
   ∧ active_positions_ c' = active_positions_ c
   ∧ hasActivePosition c' (sig_symbol signal)
     = hasActivePosition c (sig_symbol signal)
   ∧ order_log c' = order_log c
   ∧ orders_posted c' = orders_posted c ++ [entry_order signal]
   ∧ (∃ err, cerr c' = cerr c ++ [err]))
  ∧ ((∀ i signal', sig_symbol signal' = symbol →
        entry_accepted
          (order_reply (symbol_market t i) (entry_order signal')) = false) →
     let c1 := if market_closed t then c
               else exec (checkPositionStatus (exit_market t)) c in
     let c' := exec (trading_tick t) c in
     active_positions_ c' !! symbol = active_positions_ c1 !! symbol
     ∧ (hasActivePosition c symbol = false →
        hasActivePosition c' symbol = false)
     ∧ filter (λ e, about symbol e = true) (new_events c1 c') = []
     ∧ (length (filter (λ o, ord_tradingsymbol o = symbol) (new_orders c c'))
        ≤ length (filter (λ s, s = symbol) (getMatchedSymbols c)))%nat
     ∧ Forall (λ o, ord_tradingsymbol o = symbol → ord_order_type o = "MARKET")
         (new_orders c c')).
Proof.
  split.
  - intros Hlogged Haction Hrefused.
    destruct (placeOrder_refused mkt signal c Hlogged Haction Hrefused)
      as [err Hrun].
    unfold exec, eval. rewrite Hrun. simpl. repeat split; eauto.
  - intros Hrefuse c1 c'.
    assert (left_alone symbol
              (length (filter (λ s, s = symbol) (getMatchedSymbols c)))
              c1 c'
            ∧ orders_posted c1 = orders_posted c
            ∧ (active_positions_ c !! symbol = None →
               active_positions_ c1 !! symbol = None))
      as ((Hpos & events & orders & Hlog & Hposted & Hevents & Hcount & Hkind)
          & Hsame & Habsent).
    { subst c1 c'. unfold trading_tick, exec.
      destruct (market_closed t); [split; [apply left_alone_refl | done]|].
      unfold mbind, M_bind, get.
      destruct (checkPositionStatus_fields (exit_market t) c)
        as (Ht & Hs & Hi & Hp & _).
      pose proof (checkPositionStatus_absent (exit_market t) c symbol)
        as Habsent.
      unfold exec in Ht, Hs, Hi, Hp, Habsent.
      destruct (checkPositionStatus (exit_market t) c) as [[] c1].
      cbn [snd] in *. split; [|by split].
      replace (getMatchedSymbols c) with (getMatchedSymbols c1)
        by (unfold getMatchedSymbols; by rewrite Hs, Hi).
      by apply process_symbols_left_alone. }
    split_and!.
    + exact Hpos.
    + unfold hasActivePosition. rewrite !bool_decide_eq_false.
      intros Hnone. rewrite Hpos.
      rewrite Habsent; [by intros [? ?]|].
      destruct (active_positions_ c !! symbol) eqn:Hl; [|done].
      exfalso. apply Hnone. by eauto.
    + unfold new_events. by rewrite Hlog, drop_app_length.
    + unfold new_orders. by rewrite Hposted, Hsame, drop_app_length.
    + unfold new_orders. by rewrite Hposted, Hsame, drop_app_length.
Qed.

(** A BUY signal for INFY met by HTTP 500, and an iteration at 14:00 under
    the same gateway. *)
Lemma placeOrder_failure_keeps_no_position_witness :
  let mkt := mkMarket (λ _ _, served rising_candles)
               (λ _, mkResponse 500 JsonThrows) in
  let signal := mkSignal "INFY" "BUY" 16 10.5 27 1 in
  let c' := exec (trading_tick (mkTick 14 0 mkt (λ _, mkt))) infy_client in
  eval (placeOrder mkt signal) infy_client = false
  ∧ active_positions_ (exec (placeOrder mkt signal) infy_client) = ∅
  ∧ orders_posted (exec (placeOrder mkt signal) infy_client)
    = [entry_order signal]
  ∧ hasActivePosition c' "INFY" = false
  ∧ (length (filter (λ o, ord_tradingsymbol o = "INFY")
               (new_orders infy_client c')) ≤ 1)%nat.
Proof.
  intros mkt signal c'.
  pose proof (placeOrder_failure_keeps_no_position mkt signal
                (mkTick 14 0 mkt (λ _, mkt)) "INFY" infy_client)
    as [Hcall Htick].
  destruct (Hcall eq_refl ltac:(discriminate) eq_refl)
    as (Hret & Hpos & _ & _ & Hposted & _).
  destruct (Htick (λ _ _ _, eq_refl)) as (_ & Hnone & _ & Hcount & _).
  split; [exact Hret | split; [exact Hpos | split; [exact Hposted|]]].
  split; [exact (Hnone eq_refl) | exact Hcount].
Defined.

(** C7 as stated fails for a symbol that two settings bear: it is
    evaluated twice in one iteration, and its refused entry is posted
    again, here as two MARKET orders for INFY, each answered with HTTP 500,
    with no position at the end. *)
Lemma refused_entry_posted_again :
  let mkt := mkMarket (λ _ _, served rising_candles)
               (λ _, mkResponse 500 JsonThrows) in
  let c := initial_client "token"
             [mkSetting "INFY" 50 "5minute" 20;
              mkSetting "INFY" 25 "15minute" 50] infy_instruments in
  let c' := exec (trading_tick (mkTick 14 0 mkt (λ _, mkt))) c in
  getMatchedSymbols c = ["INFY"; "INFY"]
  ∧ ord_tradingsymbol <$> orders_posted c' = ["INFY"; "INFY"]
  ∧ ord_order_type <$> orders_posted c' = ["MARKET"; "MARKET"]
  ∧ active_positions_ c' = ∅
  ∧ cerr c' = [ErrOrderStatus "order" 500; ErrOrderStatus "order" 500].
Proof. by vm_compute. Qed.

(** ** The position table *)

Lemma hasActivePosition_lookup (c : ZerodhaClient) (s : string) :
  hasActivePosition c s = true ↔ is_Some (active_positions_ c !! s).
Proof. unfold hasActivePosition. apply bool_decide_eq_true. Qed.

(** X10: add, ask, remove.  After [addActivePosition] the symbol has a
    position, the one built from the signal with both flags off, and it
    replaces whatever was filed under the symbol; after
    [removeActivePosition] the symbol has none; neither touches another
    symbol; removing what was just added to a symbol that had no position
    gives the client back, and removing from a symbol without position
    changes nothing. *)
Theorem position_table_round_trip (symbol order_id : string)
    (signal : TradeSignal) (c : ZerodhaClient) :
  let added := exec (addActivePosition symbol order_id signal) c in
  let removed := exec (removeActivePosition symbol) c in
  active_positions_ added !! symbol
  = Some (mkPosition symbol order_id "" "" (sig_action signal)
            (sig_entry_price signal) (sig_stop_loss signal)
            (sig_target signal) (sig_quantity signal) false false)
  ∧ hasActivePosition added symbol = true
  ∧ hasActivePosition removed symbol = false
  ∧ (∀ s, s ≠ symbol →
       active_positions_ added !! s = active_positions_ c !! s
       ∧ active_positions_ removed !! s = active_positions_ c !! s)
  ∧ (∀ order_id' signal',
       exec (addActivePosition symbol order_id signal)
         (exec (addActivePosition symbol order_id' signal') c)
       = added)
  ∧ (hasActivePosition c symbol = false →
     exec (removeActivePosition symbol) added = c ∧ removed = c).
Proof.
  intros added removed. subst added removed.
  unfold exec. rewrite !removeActivePosition_run.
  unfold addActivePosition, set_positions. run_M.
  split; [by rewrite lookup_insert_eq|].
  split; [apply hasActivePosition_lookup; simpl;
          rewrite lookup_insert_eq; eauto|].
  split; [apply no_position_after; simpl; apply lookup_delete_eq|].
  split; [intros s Hne; split;
          [by apply lookup_insert_ne | by apply lookup_delete_ne]|].
  split; [intros order_id' signal'; by rewrite insert_insert_eq|].
  intros Hfree.
  assert (active_positions_ c !! symbol = None) as Hnone.
  { destruct (active_positions_ c !! symbol) eqn:Hl; [|done].
    assert (hasActivePosition c symbol = true) as Hhas
      by (apply hasActivePosition_lookup; rewrite Hl; eauto).
    congruence. }
  destruct c as [tok settings cache positions log posted err].
  simpl in *. split; f_equal.
  - by rewrite delete_insert_id.
  - by apply delete_id.
Qed.

(** ** Symbols, tokens and settings *)

(** X11: the symbols the loop works on.  [getMatchedSymbols] is the list
    of the setting symbols filtered by being a key of the instrument cache:
    it keeps their order and their repetitions, a symbol that is such a key
    occurring as many times as there are settings bearing it; for such a
    symbol
    [getInstrumentToken] answers from that key and never from the ["NSE:"]
    fallback; and a symbol found under neither key has the empty token, for
    which [getHistoricalData] returns no candle whatever the market. *)
Theorem matched_symbols_resolve (c : ZerodhaClient) :
  getMatchedSymbols c
  = filter (λ s, is_Some (instruments_cache_ c !! s))
      (ts_symbol <$> trade_settings_ c)
  ∧ (∀ s, length (filter (λ s', s' = s) (getMatchedSymbols c))
          = if bool_decide (is_Some (instruments_cache_ c !! s))
            then length (filter (λ setting, ts_symbol setting = s)
                           (trade_settings_ c))
            else 0%nat)
  ∧ getMatchedSymbols c `sublist_of` (ts_symbol <$> trade_settings_ c)
  ∧ (∀ s, s ∈ getMatchedSymbols c ↔
          s ∈ (ts_symbol <$> trade_settings_ c)
          ∧ is_Some (instruments_cache_ c !! s))
  ∧ (∀ s, s ∈ getMatchedSymbols c →
          ∃ inst, instruments_cache_ c !! s = Some inst
                  ∧ getInstrumentToken c s = instrument_token inst)
  ∧ (∀ s, instruments_cache_ c !! s = None →
          instruments_cache_ c !! ("NSE:" +:+ s) = None →
          getInstrumentToken c s = ""
          ∧ ∀ mkt timeframe,
              eval (getHistoricalData mkt s timeframe) c = []).
Proof.
  assert (∀ s, s ∈ getMatchedSymbols c ↔
               s ∈ (ts_symbol <$> trade_settings_ c)
               ∧ is_Some (instruments_cache_ c !! s)) as Hiff.
  { intros s. unfold getMatchedSymbols. rewrite !list_elem_of_fmap. split.
    - intros (setting & -> & Hin). apply list_elem_of_filter in Hin as [? ?].
      split; [by exists setting | done].
    - intros [(setting & -> & Hin) Hsome]. exists setting. split; [done|].
      by apply list_elem_of_filter. }
  assert (getMatchedSymbols c
          = filter (λ s, is_Some (instruments_cache_ c !! s))
              (ts_symbol <$> trade_settings_ c)) as Hfilter.
  { clear Hiff. unfold getMatchedSymbols.
    induction (trade_settings_ c) as [|setting rest IH]; [done|].
    csimpl. rewrite !filter_cons.
    destruct (decide (is_Some (instruments_cache_ c !! ts_symbol setting)));
      csimpl; by rewrite IH. }
  split; [exact Hfilter|split; [|split; [|split; [exact Hiff|split]]]].
  - intros s. rewrite Hfilter. clear Hiff Hfilter.
    induction (trade_settings_ c) as [|setting rest IH];
      [by destruct (bool_decide _)|].
    csimpl. rewrite !filter_cons.
    destruct (decide (ts_symbol setting = s)) as [<-|Hne].
    + destruct (decide (is_Some (instruments_cache_ c !! ts_symbol setting)))
        as [Hsome|Hnone].
      * rewrite filter_cons, decide_True by done.
        rewrite bool_decide_eq_true_2 in IH |- * by done.
        simpl. by rewrite IH.
      * rewrite bool_decide_eq_false_2 in IH |- * by done. exact IH.
    + destruct (decide (is_Some (instruments_cache_ c !! ts_symbol setting)));
        [rewrite filter_cons, decide_False by done|]; exact IH.
  - unfold getMatchedSymbols. apply fmap_sublist, sublist_filter.
  - intros s Hin. apply Hiff in Hin as [_ [inst Hinst]].
    exists inst. split; [done|]. unfold getInstrumentToken. by rewrite Hinst.
  - intros s Hnone Hnone'.
    assert (getInstrumentToken c s = "") as Htoken
      by (unfold getInstrumentToken; by rewrite Hnone, Hnone').
    split; [done|]. intros mkt timeframe.
    apply getHistoricalData_nothing. by right.
Qed.

(** X12: the setting of a matched symbol.  For a symbol of
    [getMatchedSymbols] the loop reads the timeframe and the EMA period of
    the first setting bearing that symbol, later ones being ignored; so the
    defaults ["5minute"] and 20, which it takes for a symbol without
    setting, are never used inside the loop. *)
Theorem matched_symbol_setting (c : ZerodhaClient) (symbol : string) :
  symbol ∈ getMatchedSymbols c →
  ∃ before setting after,
    trade_settings_ c = before ++ setting :: after
    ∧ Forall (λ earlier, ts_symbol earlier ≠ symbol) before
    ∧ ts_symbol setting = symbol
    ∧ setting_for c symbol = (ts_timeframe setting, ts_ema_period setting).
Proof.
  intros Hin.
  assert (symbol ∈ (ts_symbol <$> trade_settings_ c)) as Hset.
  { unfold getMatchedSymbols in Hin. apply list_elem_of_fmap in Hin
      as (setting & -> & Hin). apply list_elem_of_filter in Hin as [_ Hin].
    apply list_elem_of_fmap. by exists setting. }
  unfold setting_for. clear Hin.
  induction (trade_settings_ c) as [|first rest IH];
    [by apply elem_of_nil in Hset|].
  rewrite filter_cons. destruct (decide (ts_symbol first = symbol)) as [Heq|Hne].
  - exists [], first, rest. by repeat split.
  - rewrite fmap_cons in Hset. apply elem_of_cons in Hset as [Heq|Hset];
      [congruence|].
    destruct (IH Hset) as (before & setting & after & -> & Hbefore & Hs & Hfor).
    exists (first :: before), setting, after.
    repeat split; try done. by apply Forall_cons.
Qed.

Lemma matched_symbol_setting_witness :
  setting_for
    (initial_client "token"
       [mkSetting "TCS" 5 "15minute" 9; mkSetting "INFY" 50 "5minute" 20;
        mkSetting "INFY" 10 "day" 50]
       infy_instruments) "INFY"
  = ("5minute", 20%Z).
Proof.
  destruct (matched_symbol_setting
    (initial_client "token"
       [mkSetting "TCS" 5 "15minute" 9; mkSetting "INFY" 50 "5minute" 20;
        mkSetting "INFY" 10 "day" 50]
       infy_instruments) "INFY" ltac:(vm_compute; left))
    as (before & setting & after & Hsplit & Hbefore & Hsym & _).
  reflexivity.
Defined.

(** ** The side of the stop loss *)

Ltac split_compares :=
  repeat match goal with
         | |- context [Z.compare ?a ?b] => destruct (Z.compare_spec a b)
         | |- context [Pos.compare_cont Eq ?a ?b] =>
             change (Pos.compare_cont Eq a b) with (Pos.compare a b);
             destruct (Pos.compare_spec a b)
         end.

Lemma SFleb_ltb_trans (a b c : spec_float) :
  SFleb a b = true → SFltb b c = true → SFltb a c = true.
Proof.
  unfold SFleb, SFltb.
  destruct a as [sa|sa| |sa ma ea], b as [sb|sb| |sb mb eb],
    c as [sc|sc| |sc mc ec]; simpl; try done;
    try destruct sa; try destruct sb; try destruct sc; simpl; try done;
    split_compares; simpl; try done; intros; exfalso; lia.
Qed.

Lemma SFltb_leb_trans (a b c : spec_float) :
  SFltb a b = true → SFleb b c = true → SFltb a c = true.
Proof.
  unfold SFleb, SFltb.
  destruct a as [sa|sa| |sa ma ea], b as [sb|sb| |sb mb eb],
    c as [sc|sc| |sc mc ec]; simpl; try done;
    try destruct sa; try destruct sb; try destruct sc; simpl; try done;
    split_compares; simpl; try done; intros; exfalso; lia.
Qed.

Lemma le_lt_trans (a b c : double) :
  le a b = true → lt b c = true → lt a c = true.
Proof.
  unfold le, lt. rewrite FloatAxioms.leb_spec, !FloatAxioms.ltb_spec.
  apply SFleb_ltb_trans.
Qed.

Lemma lt_le_trans (a b c : double) :
  lt a b = true → le b c = true → lt a c = true.
Proof.
  unfold le, lt. rewrite FloatAxioms.leb_spec, !FloatAxioms.ltb_spec.
  apply SFltb_leb_trans.
Qed.

Lemma le_not_nan (a b : double) :
  le a b = true → is_nan a = false ∧ is_nan b = false.
Proof.
  intros Hle. split.
  - destruct (is_nan a) eqn:Hnan; [|done].
    by rewrite (le_nan_l a b Hnan) in Hle.
  - destruct (is_nan b) eqn:Hnan; [|done].
    by rewrite (le_nan_r a b Hnan) in Hle.
Qed.

Lemma std_min_le_left (a b : double) :
  is_nan a = false → le (std_min a b) a = true.
Proof.
  intros Ha. unfold std_min. destruct (lt b a) eqn:Hlt.
  - by apply lt_le.
  - by apply le_refl.
Qed.

Lemma std_max_ge_left (a b : double) :
  is_nan a = false → le a (std_max a b) = true.
Proof.
  intros Ha. unfold std_max. destruct (lt a b) eqn:Hlt.
  - by apply lt_le.
  - by apply le_refl.
Qed.

(** X13: the stop loss is on the losing side of the entry.  When the
    second candle is sound, [low <= high], a BUY signal has its stop loss
    strictly below its entry price and a SELL signal strictly above,
    whatever the other fields hold, NaN included. *)
Theorem stop_loss_beyond_entry (symbol : string) (data : LastThreeCandles) :
  le (second_low data) (second_high data) = true →
  let signal := analyzeStrategy symbol data in
  (sig_action signal = "BUY" →
   lt (sig_stop_loss signal) (sig_entry_price signal) = true)
  ∧ (sig_action signal = "SELL" →
     lt (sig_entry_price signal) (sig_stop_loss signal) = true).
Proof.
  intros Hsound signal. subst signal.
  destruct (le_not_nan _ _ Hsound) as [Hlow Hhigh].
  destruct (buy_conditions data) eqn:Hb.
  - rewrite (analyzeStrategy_buy symbol data Hb). simpl. split; [|done].
    intros _. apply buy_conditions_iff in Hb as (_ & _ & _ & _ & _ & Hbreak).
    rewrite gt_lt in Hbreak.
    eapply le_lt_trans; [by apply std_min_le_left|].
    by eapply le_lt_trans.
  - destruct (sell_conditions data) eqn:Hs.
    + rewrite (analyzeStrategy_sell symbol data Hs). simpl. split; [done|].
      intros _.
      apply sell_conditions_iff in Hs as (_ & _ & _ & _ & _ & Hbreak).
      eapply lt_le_trans; [|by apply std_max_ge_left].
      by eapply lt_le_trans.
    + by rewrite (analyzeStrategy_none symbol data Hb Hs).
Qed.

(** The rising candles: the stop loss 10.5 is below the entry 16. *)
Lemma stop_loss_beyond_entry_witness :
  lt (sig_stop_loss
        (analyzeStrategy "INFY"
           (mkLastThree 15 16.5 14.5 16 11 13 14.5 12.5 14 10.5
              11 12.5 10.5 12 10)))
     16 = true.
Proof.
  pose proof (stop_loss_beyond_entry "INFY"
                (mkLastThree 15 16.5 14.5 16 11 13 14.5 12.5 14 10.5
                   11 12.5 10.5 12 10) eq_refl) as [Hbuy _].
  exact (Hbuy eq_refl).
Defined.

(** ** The EMA looks back only *)

Lemma ema_loop_take (multiplier prev : double) (prices : list double)
    (n : nat) :
  take n (ema_loop multiplier prev prices)
  = ema_loop multiplier prev (take n prices).
Proof.
  revert prev n. induction prices as [|p rest IH]; intros prev n.
  - by destruct n.
  - destruct n as [|n]; [reflexivity|]. simpl. by rewrite IH.
Qed.

(** X14: the EMA is causal.  The first [n] values of the EMA of a series
    are the EMA of its first [n] prices, so a value never depends on later
    prices: the EMA of a series extended by new prices starts with the EMA
    of the series. *)
Theorem calculateEMA_causal (prices more : list double) (period : Z)
    (n : nat) :
  take n (calculateEMA prices period) = calculateEMA (take n prices) period
  ∧ calculateEMA prices period `prefix_of`
      calculateEMA (prices ++ more) period.
Proof.
  assert (∀ l k, take k (calculateEMA l period)
                 = calculateEMA (take k l) period) as Htake.
  { intros l k. destruct l as [|first rest]; [by destruct k|].
    destruct k as [|k]; [reflexivity|]. simpl.
    destruct (period <=? 0)%Z; [reflexivity|]. simpl.
    by rewrite ema_loop_take. }
  split; [apply Htake|].
  exists (drop (length prices) (calculateEMA (prices ++ more) period)).
  rewrite <- (take_drop (length prices) (calculateEMA (prices ++ more) period))
    at 1.
  f_equal. rewrite Htake. by rewrite take_app_length.
Qed.

(** ** Reading text *)

Lemma getline_free (delim : Ascii.ascii) (s : string) :
  free_of delim s = true → getline delim s = (s, None).
Proof.
  induction s as [|a rest IH]; [reflexivity|]. simpl.
  intros [Ha Hrest]%andb_true_iff. apply negb_true_iff in Ha.
  by rewrite Ha, IH.
Qed.

Lemma getline_delim (delim : Ascii.ascii) (part rest : string) :
  free_of delim part = true →
  getline delim (part +:+ String delim rest) = (part, Some rest).
Proof.
  induction part as [|a part IH]; simpl.
  - intros _. by rewrite Ascii.eqb_refl.
  - intros [Ha Hpart]%andb_true_iff. apply negb_true_iff in Ha.
    by rewrite Ha, IH.
Qed.

(** What [getline] returns: a part free of the delimiter, and the stream
    taken apart. *)
Lemma getline_spec (delim : Ascii.ascii) (s : string) :
  let '(part, after) := getline delim s in
  free_of delim part = true
  ∧ s = match after with
        | Some rest => part +:+ String delim rest
        | None => part
        end.
Proof.
  induction s as [|a rest IH]; [done|]. simpl.
  destruct (Ascii.eqb a delim) eqn:Ha.
  - apply Ascii.eqb_eq in Ha as ->. done.
  - destruct (getline delim rest) as [part after]. destruct IH as [Hfree ->].
    simpl. rewrite Ha. split; [done|]. by destruct after.
Qed.

Lemma length_append (s1 s2 : string) :
  String.length (s1 +:+ s2) = (String.length s1 + String.length s2)%nat.
Proof. induction s1 as [|a s1 IH]; simpl; [done | by rewrite IH]. Qed.

(** Enough fuel is enough. *)
Lemma read_all_fuel (delim : Ascii.ascii) (s : string) (fuel fuel' : nat) :
  (String.length s < fuel)%nat → (String.length s < fuel')%nat →
  read_all delim fuel s = read_all delim fuel' s.
Proof.
  revert s fuel'. induction fuel as [|fuel IH]; intros s fuel' Hf Hf'; [lia|].
  destruct fuel' as [|fuel']; [lia|].
  destruct s as [|a rest]; [reflexivity|].
  cbn [read_all].
  pose proof (getline_spec delim (String a rest)) as Hspec.
  destruct (getline delim (String a rest)) as [part [after|]]; [|done].
  destruct Hspec as [_ Hs]. f_equal. apply IH.
  - apply (f_equal String.length) in Hs. rewrite length_append in Hs.
    simpl in *. lia.
  - apply (f_equal String.length) in Hs. rewrite length_append in Hs.
    simpl in *. lia.
Qed.

Lemma read_all_cons (delim : Ascii.ascii) (part rest : string) (fuel : nat) :
  free_of delim part = true →
  (String.length (part +:+ String delim rest) < fuel)%nat →
  read_all delim fuel (part +:+ String delim rest)
  = part :: read_all delim (S (String.length rest)) rest.
Proof.
  intros Hfree Hfuel. destruct fuel as [|fuel]; [lia|].
  rewrite (read_all_fuel delim rest (S (String.length rest)) fuel);
    [|lia|rewrite length_append in Hfuel; simpl in Hfuel; lia].
  cbn [read_all].
  destruct (part +:+ String delim rest) as [|a s] eqn:Hs.
  { by destruct part. }
  by rewrite <- Hs, (getline_delim delim part rest Hfree).
Qed.

Lemma read_all_last (delim : Ascii.ascii) (part : string) (fuel : nat) :
  free_of delim part = true → part ≠ EmptyString → (0 < fuel)%nat →
  read_all delim fuel part = [part].
Proof.
  intros Hfree Hne Hfuel. destruct fuel as [|fuel]; [lia|].
  cbn [read_all]. destruct part as [|a s]; [done|].
  by rewrite (getline_free delim _ Hfree).
Qed.

Lemma append_cons (a : Ascii.ascii) (s1 s2 : string) :
  String a s1 +:+ s2 = String a (s1 +:+ s2).
Proof. reflexivity. Qed.

Lemma append_assoc (s1 s2 s3 : string) :
  (s1 +:+ s2) +:+ s3 = s1 +:+ (s2 +:+ s3).
Proof.
  induction s1 as [|a s1 IH]; [done|]. rewrite !append_cons. by f_equal.
Qed.

Lemma append_nil_r (s : string) : s +:+ EmptyString = s.
Proof.
  induction s as [|a s IH]; [done|]. rewrite append_cons. by f_equal.
Qed.

Lemma free_of_append (a : Ascii.ascii) (s1 s2 : string) :
  free_of a (s1 +:+ s2) = free_of a s1 && free_of a s2.
Proof.
  induction s1 as [|b s1 IH]; [done|]. rewrite append_cons. cbn [free_of].
  by rewrite IH, andb_assoc.
Qed.

Lemma read_all_nil (delim : Ascii.ascii) (fuel : nat) (s : string) :
  (0 < fuel)%nat → read_all delim fuel s = [] → s = EmptyString.
Proof.
  intros Hfuel. destruct fuel as [|fuel]; [lia|]. destruct s; [done|].
  cbn [read_all]. by destruct (getline delim _).
Qed.

(** What the reading loop returns: parts free of the delimiter which, joined
    again, give the text back, up to one closing delimiter. *)
Lemma read_all_spec (delim : Ascii.ascii) (fuel : nat) (s : string) :
  (String.length s < fuel)%nat →
  Forall (λ part, free_of delim part = true) (read_all delim fuel s)
  ∧ (s = join_with delim (read_all delim fuel s)
     ∨ s = join_with delim (read_all delim fuel s)
           +:+ String delim EmptyString).
Proof.
  revert s. induction fuel as [|fuel IH]; intros s Hfuel; [lia|].
  destruct s as [|a r]; [by split; [constructor | left]|].
  cbn [read_all].
  pose proof (getline_spec delim (String a r)) as Hspec.
  destruct (getline delim (String a r)) as [part [rest|]].
  - destruct Hspec as [Hfree Hs].
    assert (String.length rest < fuel)%nat as Hrest.
    { apply (f_equal String.length) in Hs. rewrite length_append in Hs.
      simpl in *. lia. }
    destruct (IH rest Hrest) as [Hall Hjoin]. split; [by constructor|].
    rewrite Hs. destruct (read_all delim fuel rest) as [|f fs] eqn:Hfs.
    + apply read_all_nil in Hfs as ->; [|lia]. by right.
    + destruct Hjoin as [->| ->]; [by left|].
      right. change (join_with delim (part :: f :: fs))
        with (part +:+ String delim (join_with delim (f :: fs))).
      by rewrite append_assoc.
  - destruct Hspec as [Hfree Hs]. split; [by repeat constructor|]. by left.
Qed.

(** Parts free of the delimiter, the last one not empty, are read back as
    they were written. *)
Lemma read_all_join (delim : Ascii.ascii) (parts : list string) (fuel : nat) :
  Forall (λ part, free_of delim part = true) parts →
  last parts ≠ Some EmptyString →
  (String.length (join_with delim parts) < fuel)%nat →
  read_all delim fuel (join_with delim parts) = parts.
Proof.
  revert fuel. induction parts as [|part rest IH]; intros fuel Hall Hlast Hfuel.
  { by destruct fuel. }
  apply Forall_cons_1 in Hall as [Hpart Hrest].
  destruct rest as [|next rest].
  - apply read_all_last; [done| |lia]. simpl in Hlast. congruence.
  - change (join_with delim (part :: next :: rest))
      with (part +:+ String delim (join_with delim (next :: rest))) in *.
    rewrite read_all_cons by done. f_equal. apply IH; [done| |lia].
    by rewrite last_cons_cons in Hlast.
Qed.

(** A text that ends with the delimiter: the part after it is not read. *)
Lemma read_all_join_closed (delim : Ascii.ascii) (parts : list string)
    (fuel : nat) :
  Forall (λ part, free_of delim part = true) parts → parts ≠ [] →
  (String.length (join_with delim parts +:+ String delim EmptyString) < fuel)%nat →
  read_all delim fuel (join_with delim parts +:+ String delim EmptyString)
  = parts.
Proof.
  revert fuel. induction parts as [|part rest IH]; intros fuel Hall Hne Hfuel;
    [done|].
  apply Forall_cons_1 in Hall as [Hpart Hrest].
  destruct rest as [|next rest].
  - cbn [join_with] in *. by rewrite read_all_cons.
  - change (join_with delim (part :: next :: rest))
      with (part +:+ String delim (join_with delim (next :: rest))) in *.
    rewrite append_assoc, append_cons in *.
    rewrite read_all_cons by done. f_equal. apply IH; [done|done|lia].
Qed.

(** The last part read is empty only if a delimiter closed it. *)
Lemma read_all_shape (delim : Ascii.ascii) (fuel : nat) (s : string) :
  (String.length s < fuel)%nat →
  (s = join_with delim (read_all delim fuel s)
   ∧ last (read_all delim fuel s) ≠ Some EmptyString)
  ∨ (s = join_with delim (read_all delim fuel s) +:+ String delim EmptyString
     ∧ read_all delim fuel s ≠ []).
Proof.
  revert s. induction fuel as [|fuel IH]; intros s Hfuel; [lia|].
  destruct s as [|a r]; [by left|].
  cbn [read_all].
  pose proof (getline_spec delim (String a r)) as Hspec.
  destruct (getline delim (String a r)) as [part [rest|]].
  - destruct Hspec as [Hfree Hs].
    assert (String.length rest < fuel)%nat as Hrest.
    { apply (f_equal String.length) in Hs. rewrite length_append in Hs.
      simpl in *. lia. }
    specialize (IH rest Hrest).
    rewrite Hs. destruct (read_all delim fuel rest) as [|f fs] eqn:Hfs.
    + apply read_all_nil in Hfs as ->; [|lia]. by right.
    + change (join_with delim (part :: f :: fs))
        with (part +:+ String delim (join_with delim (f :: fs))).
      rewrite last_cons_cons.
      destruct IH as [[-> Hlast] | [-> _]]; [by left|].
      right. by rewrite append_assoc.
  - destruct Hspec as [Hfree Hs]. left. cbn [join_with last].
    split; [done|]. rewrite <- Hs. congruence.
Qed.

(** X15: what [splitCSVLine] returns, exactly.  Its fields are the one list
    of strings without a comma which, written again with commas between
    them, gives the line back in one of two ways: as it is, the last field
    not being empty, or short of one closing comma, there being at least one
    field.  So a comma closing the line is lost: an empty field after the
    last comma is never returned. *)
Theorem splitCSVLine_fields (line : string) (fields : list string) :
  splitCSVLine line = fields ↔
  Forall (λ field, free_of comma field = true) fields
  ∧ ((line = join_fields fields ∧ last fields ≠ Some EmptyString)
     ∨ (line = join_fields fields +:+ String comma EmptyString
        ∧ fields ≠ [])).
Proof.
  unfold splitCSVLine, join_fields. split.
  - intros <-. split.
    + apply read_all_spec. lia.
    + apply read_all_shape. lia.
  - intros [Hfree [[-> Hlast] | [-> Hne]]].
    + apply read_all_join; [done|done|lia].
    + apply read_all_join_closed; [done|done|lia].
Qed.

(** X16: fields without a comma, the last of them not empty, come back from
    [splitCSVLine] as they were written. *)
Theorem splitCSVLine_join_fields (fields : list string) :
  Forall (λ field, free_of comma field = true) fields →
  last fields ≠ Some EmptyString →
  splitCSVLine (join_fields fields) = fields.
Proof.
  intros Hfree Hlast. unfold splitCSVLine, join_fields.
  apply read_all_join; [done..|lia].
Qed.

Lemma splitCSVLine_join_fields_witness :
  splitCSVLine (join_fields ["INFY"; ""; "NSE"]) = ["INFY"; ""; "NSE"].
Proof.
  apply splitCSVLine_join_fields.
  - by repeat constructor.
  - simpl. congruence.
Defined.

(** ** [trim] *)

Lemma find_first_last_None (s : string) :
  find_first_not_of s = None ↔ find_last_not_of s = None.
Proof.
  induction s as [|a s IH]; [done|]. cbn [find_first_not_of find_last_not_of].
  destruct (is_space a).
  - destruct (find_first_not_of s), (find_last_not_of s); csimpl;
      try done; destruct IH; naive_solver.
  - by destruct (find_last_not_of s).
Qed.

Lemma find_first_all_space (s : string) :
  find_first_not_of s = None ↔ all_space s = true.
Proof.
  induction s as [|a s IH]; [done|]. cbn [find_first_not_of all_space].
  destruct (is_space a); [|done].
  destruct (find_first_not_of s); csimpl; [|naive_solver].
  split; [done|]. intros H. by apply IH in H.
Qed.

Lemma lstrip_all_space (s : string) :
  all_space s = true → lstrip s = EmptyString.
Proof.
  induction s as [|a s IH]; [done|]. cbn [all_space lstrip].
  destruct (is_space a); [done|done].
Qed.

Lemma substring_lstrip (s : string) (n m : nat) :
  find_first_not_of s = Some n →
  String.substring n m s = String.substring 0 m (lstrip s).
Proof.
  revert n. induction s as [|a s IH]; intros n; [done|].
  cbn [find_first_not_of lstrip]. destruct (is_space a).
  - destruct (find_first_not_of s) as [n'|]; csimpl; [|done].
    intros [= <-]. cbn [String.substring]. by apply IH.
  - by intros [= <-].
Qed.

Lemma find_last_lstrip (s : string) (n e : nat) :
  find_first_not_of s = Some n → find_last_not_of s = Some e →
  (n ≤ e)%nat ∧ find_last_not_of (lstrip s) = Some (e - n)%nat.
Proof.
  revert n e. induction s as [|a s IH]; intros n e; [done|].
  cbn [find_first_not_of lstrip]. destruct (is_space a) eqn:Ha.
  - destruct (find_first_not_of s) as [n'|] eqn:Hfirst; csimpl; [|done].
    intros [= <-]. cbn [find_last_not_of].
    destruct (find_last_not_of s) as [e'|] eqn:Hlast.
    + intros [= <-]. destruct (IH n' e' eq_refl eq_refl) as [Hle ->].
      split; [lia|]. f_equal.
    + by rewrite Ha.
  - intros [= <-] He. split; [lia|]. by rewrite Nat.sub_0_r.
Qed.

Lemma rstrip_nil (t : string) :
  rstrip t = EmptyString ↔ find_last_not_of t = None.
Proof.
  induction t as [|a t IH]; [done|]. cbn [rstrip find_last_not_of].
  destruct (rstrip t) eqn:Hr, (find_last_not_of t) eqn:Hl.
  - destruct IH as [IH _]. by specialize (IH eq_refl).
  - by destruct (is_space a).
  - done.
  - destruct IH as [_ IH]. by specialize (IH eq_refl).
Qed.

Lemma substring_rstrip (t : string) (e : nat) :
  find_last_not_of t = Some e →
  String.substring 0 (e + 1) t = rstrip t.
Proof.
  revert e. induction t as [|a t IH]; intros e; [done|].
  cbn [find_last_not_of rstrip].
  destruct (find_last_not_of t) as [i|] eqn:Hlast.
  - intros [= <-]. cbn [Nat.add String.substring]. rewrite (IH i eq_refl).
    destruct (rstrip t) eqn:Hr; [|done].
    apply rstrip_nil in Hr. congruence.
  - apply rstrip_nil in Hlast as ->.
    destruct (is_space a); [done|]. intros [= <-].
    cbn [Nat.add String.substring]. by destruct t.
Qed.

(** [trim] takes the whitespace off the left, then off the right. *)
Lemma trim_strip (s : string) : trim s = rstrip (lstrip s).
Proof.
  unfold trim. destruct (find_first_not_of s) as [n|] eqn:Hfirst.
  - destruct (find_last_not_of s) as [e|] eqn:Hlast.
    + destruct (find_last_lstrip s n e Hfirst Hlast) as [Hle Hl].
      rewrite (substring_lstrip s n _ Hfirst).
      replace (e - n + 1)%nat with ((e - n) + 1)%nat by lia.
      by apply substring_rstrip.
    + apply find_first_last_None in Hlast. congruence.
  - apply find_first_all_space in Hfirst. by rewrite lstrip_all_space.
Qed.

Lemma lstrip_split (s : string) :
  ∃ pre, s = pre +:+ lstrip s ∧ all_space pre = true.
Proof.
  induction s as [|a s (pre & Hs & Hpre)]; [by exists EmptyString|].
  cbn [lstrip]. destruct (is_space a) eqn:Ha.
  - exists (String a pre). rewrite append_cons, <- Hs. split; [done|].
    cbn [all_space]. by rewrite Ha.
  - by exists EmptyString.
Qed.

Lemma rstrip_split (t : string) :
  ∃ post, t = rstrip t +:+ post ∧ all_space post = true.
Proof.
  induction t as [|a t (post & Ht & Hpost)]; [by exists EmptyString|].
  cbn [rstrip]. destruct (rstrip t) as [|b kept] eqn:Hr.
  - destruct (is_space a) eqn:Ha.
    + exists (String a t). split; [done|]. cbn [all_space]. rewrite Ha.
      rewrite Ht. done.
    + exists t. split; [done|]. by rewrite Ht.
  - exists post. split; [|done]. rewrite append_cons. by f_equal.
Qed.

Lemma lstrip_starts_clean (s : string) : starts_clean (lstrip s) = true.
Proof.
  induction s as [|a s IH]; [done|]. cbn [lstrip].
  destruct (is_space a) eqn:Ha; [done|]. cbn [starts_clean]. by rewrite Ha.
Qed.

Lemma rstrip_starts_clean (t : string) :
  starts_clean t = true → starts_clean (rstrip t) = true.
Proof.
  destruct t as [|a t]; [done|]. cbn [starts_clean rstrip].
  intros Ha. destruct (rstrip t); [|exact Ha].
  apply negb_true_iff in Ha. rewrite Ha. cbn [starts_clean]. by rewrite Ha.
Qed.

Lemma rstrip_ends_clean (t : string) : ends_clean (rstrip t) = true.
Proof.
  induction t as [|a t IH]; [done|]. cbn [rstrip].
  destruct (rstrip t) as [|b kept] eqn:Hr.
  - destruct (is_space a) eqn:Ha; [done|]. cbn [ends_clean]. by rewrite Ha.
  - done.
Qed.

Lemma lstrip_clean (s : string) : starts_clean s = true → lstrip s = s.
Proof.
  destruct s as [|a s]; [done|]. cbn [starts_clean lstrip].
  intros Ha. apply negb_true_iff in Ha. by rewrite Ha.
Qed.

Lemma rstrip_clean (s : string) : ends_clean s = true → rstrip s = s.
Proof.
  induction s as [|a s IH]; [done|]. cbn [rstrip].
  destruct s as [|b s].
  - cbn [ends_clean rstrip]. intros Ha. apply negb_true_iff in Ha.
    by rewrite Ha.
  - intros Hs. change (ends_clean (String b s) = true) in Hs.
    by rewrite (IH Hs).
Qed.

Lemma trim_is_trimmed (s : string) : trimmed (trim s) = true.
Proof.
  rewrite trim_strip. unfold trimmed.
  rewrite rstrip_starts_clean by apply lstrip_starts_clean.
  by rewrite rstrip_ends_clean.
Qed.

Lemma trim_of_trimmed (s : string) : trimmed s = true → trim s = s.
Proof.
  intros [Hstart Hend]%andb_true_iff. rewrite trim_strip.
  rewrite (lstrip_clean s Hstart). by apply rstrip_clean.
Qed.

Lemma trim_split (s : string) :
  ∃ pre post, s = pre +:+ trim s +:+ post
    ∧ all_space pre = true ∧ all_space post = true.
Proof.
  destruct (lstrip_split s) as (pre & Hs & Hpre).
  destruct (rstrip_split (lstrip s)) as (post & Ht & Hpost).
  exists pre, post. rewrite trim_strip, <- Ht. done.
Qed.

(** X17: [trim] takes away whitespace and nothing else, and all of it at
    both ends: the string is whitespace, then [trim] of it, then
    whitespace, and [trim] of it neither starts nor ends with whitespace. *)
Theorem trim_spec (s : string) :
  trimmed (trim s) = true
  ∧ ∃ pre post, s = pre +:+ trim s +:+ post
      ∧ all_space pre = true ∧ all_space post = true.
Proof.
  split; [apply trim_is_trimmed | apply trim_split].
Qed.

(** X18: [trim] leaves a string as it is exactly when the string neither
    starts nor ends with whitespace; so trimming twice is trimming once. *)
Theorem trim_fixed (s : string) :
  (trim s = s ↔ trimmed s = true) ∧ trim (trim s) = trim s.
Proof.
  split; [split|].
  - intros <-. apply trim_is_trimmed.
  - apply trim_of_trimmed.
  - apply trim_of_trimmed, trim_is_trimmed.
Qed.

(** ** The instruments file *)

Lemma free_of_join_with (a delim : Ascii.ascii) (parts : list string) :
  Ascii.eqb delim a = false →
  Forall (λ part, free_of a part = true) parts →
  free_of a (join_with delim parts) = true.
Proof.
  intros Hdelim. induction 1 as [|part rest Hpart Hrest IH]; [done|].
  destruct rest as [|next rest]; [done|].
  change (join_with delim (part :: next :: rest))
    with (part +:+ String delim (join_with delim (next :: rest))).
  rewrite free_of_append, Hpart. cbn [free_of]. by rewrite Hdelim, IH.
Qed.

Lemma read_all_write_lines (lines : list string) (fuel : nat) :
  Forall (λ line, free_of newline line = true) lines →
  (String.length (write_lines lines) < fuel)%nat →
  read_all newline fuel (write_lines lines) = lines.
Proof.
  intros Hall. revert fuel.
  induction Hall as [|line rest Hline Hrest IH]; intros fuel Hfuel.
  { by destruct fuel. }
  cbn [write_lines] in *. rewrite read_all_cons by done. f_equal.
  apply IH. lia.
Qed.

Lemma quoted_free_of (a : Ascii.ascii) (name : string) :
  Ascii.eqb quote a = false → free_of a name = true →
  free_of a (quoted name) = true.
Proof.
  intros Hquote Hname. unfold quoted. cbn [free_of].
  rewrite free_of_append, Hname. cbn [free_of]. by rewrite Hquote.
Qed.

Ltac split_safe H :=
  unfold instrument_safe, csv_safe in H;
  repeat match goal with
         | H' : _ && _ = true |- _ => apply andb_true_iff in H' as [? ?]
         end.

Lemma instrument_fields_comma_free (inst : Instrument) :
  instrument_safe inst = true →
  Forall (λ field, free_of comma field = true) (instrument_fields inst).
Proof.
  intros Hsafe. split_safe Hsafe. unfold instrument_fields.
  repeat constructor; try done. by apply quoted_free_of.
Qed.

Lemma instrument_fields_newline_free (inst : Instrument) :
  instrument_safe inst = true →
  free_of newline (join_fields (instrument_fields inst)) = true.
Proof.
  intros Hsafe. split_safe Hsafe. apply free_of_join_with; [done|].
  unfold instrument_fields.
  repeat constructor; try done. by apply quoted_free_of.
Qed.

Lemma instrument_line_not_empty (inst : Instrument) :
  join_fields (instrument_fields inst) ≠ EmptyString.
Proof.
  unfold join_fields, instrument_fields. cbn [join_with].
  by destruct (instrument_token inst).
Qed.

(** One line of the file, read back. *)
Lemma line_instrument_fields (inst : Instrument) :
  instrument_safe inst = true →
  line_instrument (join_fields (instrument_fields inst)) = Some (reloaded inst).
Proof.
  intros Hsafe. unfold line_instrument, splitCSVLine, join_fields.
  rewrite read_all_join; [done| |done|lia].
  by apply instrument_fields_comma_free.
Qed.

Lemma foldl_add_line (entries : list (string * Instrument))
    (cache : gmap string Instrument) :
  Forall (λ entry, instrument_safe entry.2 = true) entries →
  foldl add_line cache
    (filter (λ line, line ≠ EmptyString)
       ((λ pair, join_fields (instrument_fields pair.2)) <$> entries))
  = foldl (λ cache entry, add_instrument cache (reloaded entry.2)) cache entries.
Proof.
  intros Hall. revert cache.
  induction Hall as [|entry rest Hsafe Hrest IH]; intros cache; [done|].
  csimpl. rewrite filter_cons_True by apply instrument_line_not_empty.
  cbn [foldl]. unfold add_line at 2.
  rewrite (line_instrument_fields _ Hsafe). apply IH.
Qed.

Lemma foldl_add_reloaded (entries : list (string * Instrument))
    (cache : gmap string Instrument) (symbol : string) :
  NoDup entries.*1 →
  Forall (λ entry, tradingsymbol entry.2 = entry.1) entries →
  foldl (λ cache entry, add_instrument cache (reloaded entry.2)) cache entries
    !! symbol
  = match (list_to_map entries : gmap string Instrument) !! symbol with
    | Some inst => Some (reloaded inst)
    | None => cache !! symbol
    end.
Proof.
  intros Hnodup Hkeys. revert cache.
  induction Hkeys as [|[key inst] rest Hkey Hrest IH]; intros cache.
  { by rewrite list_to_map_nil, lookup_empty. }
  apply NoDup_cons in Hnodup as [Hfresh Hnodup]. cbn [foldl].
  rewrite (IH Hnodup), list_to_map_cons. unfold add_instrument.
  cbn [fst snd reloaded tradingsymbol] in *. rewrite Hkey.
  destruct (decide (symbol = key)) as [->|Hne].
  - by rewrite (not_elem_of_list_to_map_1 _ _ Hfresh), !lookup_insert_eq.
  - by rewrite !lookup_insert_ne.
Qed.

Lemma instruments_in_order_elem (m : gmap string Instrument)
    (s : string) (inst : Instrument) :
  (s, inst) ∈ instruments_in_order m ↔ m !! s = Some inst.
Proof.
  unfold instruments_in_order. rewrite merge_sort_Permutation.
  apply elem_of_map_to_list.
Qed.

Lemma instruments_in_order_NoDup (m : gmap string Instrument) :
  NoDup (instruments_in_order m).*1.
Proof.
  unfold instruments_in_order. rewrite merge_sort_Permutation.
  apply NoDup_fst_map_to_list.
Qed.

Lemma instruments_in_order_map (m : gmap string Instrument) :
  list_to_map (instruments_in_order m) = m.
Proof.
  rewrite <- (list_to_map_to_list m) at 2.
  apply list_to_map_proper; [apply instruments_in_order_NoDup|].
  apply merge_sort_Permutation.
Qed.

Lemma loadInstrumentsFromCSV_saved (c c' : ZerodhaClient) :
  instruments_cache_ c ≠ ∅ →
  map_Forall (λ symbol inst,
    tradingsymbol inst = symbol ∧ instrument_safe inst = true)
    (instruments_cache_ c) →
  loadInstrumentsFromCSV (saveInstrumentsToCSV c) c'
  = (true, set_instruments (λ _, reloaded <$> instruments_cache_ c) c').
Proof.
  intros Hne Hall. unfold saveInstrumentsToCSV.
  rewrite bool_decide_eq_false_2 by done.
  unfold loadInstrumentsFromCSV. cbn [write_lines].
  rewrite getline_delim by done. cbn [snd]. unfold read_lines.
  set (entries := instruments_in_order (instruments_cache_ c)).
  assert (Forall (λ entry, tradingsymbol entry.2 = entry.1
                           ∧ instrument_safe entry.2 = true) entries) as Hent.
  { apply Forall_forall. intros [s inst] Hin.
    apply instruments_in_order_elem in Hin. by apply (Hall s inst). }
  apply Forall_and in Hent as [Hkeys Hsafe].
  rewrite read_all_write_lines; [| |lia].
  2:{ apply Forall_fmap. eapply Forall_impl; [exact Hsafe|].
      intros entry. apply instrument_fields_newline_free. }
  rewrite (foldl_add_line entries ∅ Hsafe). run_M. f_equal.
  unfold set_instruments. f_equal. apply map_eq. intros symbol.
  rewrite (foldl_add_reloaded entries ∅ symbol);
    [|apply instruments_in_order_NoDup|done].
  unfold entries. rewrite instruments_in_order_map, lookup_fmap, lookup_empty.
  by destruct (instruments_cache_ c !! symbol).
Qed.

Lemma getInstrumentToken_reloaded (c c' : ZerodhaClient) (symbol : string) :
  instruments_cache_ c' = reloaded <$> instruments_cache_ c →
  getInstrumentToken c' symbol = getInstrumentToken c symbol.
Proof.
  intros Hcache. unfold getInstrumentToken. rewrite Hcache, !lookup_fmap.
  destruct (instruments_cache_ c !! symbol); [done|]. csimpl.
  by destruct (instruments_cache_ c !! _).
Qed.

(** X19: a cache that is not empty, each instrument filed under its own
    trading symbol and no field holding a comma or a newline, written by
    [saveInstrumentsToCSV] and read by [loadInstrumentsFromCSV], comes back
    with every name wrapped in the quotes it was written in and nothing
    else changed; the tokens [getInstrumentToken] finds are the same. *)
Theorem instruments_file_round_trip (c c' : ZerodhaClient) :
  instruments_cache_ c ≠ ∅ →
  map_Forall (λ symbol inst,
    tradingsymbol inst = symbol ∧ instrument_safe inst = true)
    (instruments_cache_ c) →
  loadInstrumentsFromCSV (saveInstrumentsToCSV c) c'
  = (true, set_instruments (λ _, reloaded <$> instruments_cache_ c) c')
  ∧ ∀ symbol,
      getInstrumentToken
        (exec (loadInstrumentsFromCSV (saveInstrumentsToCSV c)) c') symbol
      = getInstrumentToken c symbol.
Proof.
  intros Hne Hall.
  pose proof (loadInstrumentsFromCSV_saved c c' Hne Hall) as Hload.
  split; [done|]. intros symbol. apply getInstrumentToken_reloaded.
  unfold exec. by rewrite Hload.
Qed.

Lemma instruments_file_round_trip_witness :
  loadInstrumentsFromCSV (saveInstrumentsToCSV infy_client) infy_client
  = (true, set_instruments (λ _, reloaded <$> infy_instruments) infy_client)
  ∧ ∀ symbol,
      getInstrumentToken
        (exec (loadInstrumentsFromCSV (saveInstrumentsToCSV infy_client))
           infy_client) symbol
      = getInstrumentToken infy_client symbol.
Proof.
  apply (instruments_file_round_trip infy_client infy_client).
  - apply map_non_empty_singleton.
  - apply map_Forall_singleton. by vm_compute.
Defined.

(** ** The cells of a CSV text *)

Lemma free_of_join_with_inv (a delim : Ascii.ascii) (parts : list string) :
  free_of a (join_with delim parts) = true →
  Forall (λ part, free_of a part = true) parts.
Proof.
  induction parts as [|part rest IH]; [by constructor|].
  destruct rest as [|next rest]; [by repeat constructor|].
  change (join_with delim (part :: next :: rest))
    with (part +:+ String delim (join_with delim (next :: rest))).
  rewrite free_of_append. cbn [free_of].
  intros [Hpart [_ Hrest]%andb_true_iff]%andb_true_iff.
  constructor; [done | by apply IH].
Qed.

(** The parts of a text hold no character the text does not hold. *)
Lemma read_all_free (a delim : Ascii.ascii) (fuel : nat) (s : string) :
  (String.length s < fuel)%nat → free_of a s = true →
  Forall (λ part, free_of a part = true) (read_all delim fuel s).
Proof.
  intros Hfuel Hfree.
  destruct (read_all_spec delim fuel s Hfuel) as [_ [Hs|Hs]];
    rewrite Hs in Hfree.
  - by apply free_of_join_with_inv in Hfree.
  - rewrite free_of_append in Hfree.
    apply andb_true_iff in Hfree as [Hfree _].
    by apply free_of_join_with_inv in Hfree.
Qed.

Lemma trim_free_of (a : Ascii.ascii) (s : string) :
  free_of a s = true → free_of a (trim s) = true.
Proof.
  intros Hfree. destruct (trim_split s) as (pre & post & Hs & _).
  rewrite Hs, !free_of_append in Hfree.
  by apply andb_true_iff in Hfree as [_ [Hfree _]%andb_true_iff].
Qed.

Lemma read_lines_free (content : string) :
  Forall (λ line, free_of newline line = true) (read_lines content).
Proof. apply read_all_spec. lia. Qed.

Lemma splitCSVLine_clean (line : string) :
  free_of newline line = true →
  Forall (λ field, clean_cell (trim field) = true) (splitCSVLine line).
Proof.
  intros Hline.
  pose proof (read_all_spec comma (S (String.length line)) line
                ltac:(lia)) as [Hcomma _].
  pose proof (read_all_free newline comma (S (String.length line)) line
                ltac:(lia) Hline) as Hnewline.
  pose proof (conj Hcomma Hnewline) as Hboth. apply Forall_and in Hboth.
  clear Hcomma Hnewline.
  eapply Forall_impl; [exact Hboth|]. intros field [Hcomma Hnewline].
  unfold clean_cell, csv_safe.
  by rewrite !trim_free_of, trim_is_trimmed.
Qed.

Lemma zip_cells {A B} (P : A → Prop) (Q : B → Prop) (l : list A) (k : list B) :
  Forall P l → Forall Q k → Forall (λ cell, P cell.1 ∧ Q cell.2) (zip l k).
Proof.
  intros Hl. revert k. induction Hl as [|x l Hx _ IH]; intros k Hk; [done|].
  destruct Hk as [|y k Hy Hk]; [done|]. constructor; [done|]. by apply IH.
Qed.

Lemma csv_row_clean (headers parts : list string) :
  Forall (λ header, clean_cell header = true) headers →
  Forall (λ part, clean_cell (trim part) = true) parts →
  map_Forall (λ header value,
    clean_cell header = true ∧ clean_cell value = true)
    (csv_row headers parts).
Proof.
  intros Hheaders Hparts. unfold csv_row.
  pose proof (zip_cells _ _ _ _ Hheaders Hparts) as Hcells.
  generalize (∅ : gmap string string) (map_Forall_empty (M:=gmap string)
    (λ header value, clean_cell header = true ∧ clean_cell value = true)).
  induction Hcells as [|[header part] cells [Hh Hp] _ IH]; intros row Hrow;
    [done|].
  cbn [foldl]. apply IH. by apply map_Forall_insert_2.
Qed.

Lemma Forall_filter_keep {A} (P Q : A → Prop) `{!∀ x, Decision (Q x)}
    (l : list A) :
  Forall P l → Forall P (filter Q l).
Proof.
  rewrite !Forall_forall. intros Hl x [_ Hx]%list_elem_of_filter.
  by apply Hl.
Qed.

Lemma parseCSVString_clean (csvText : string) :
  Forall (map_Forall (λ header value,
            clean_cell header = true ∧ clean_cell value = true))
    (parseCSVString csvText).
Proof.
  unfold parseCSVString.
  pose proof (read_lines_free csvText) as Hlines.
  apply (Forall_filter_keep _ (λ line, line ≠ EmptyString)) in Hlines.
  destruct Hlines as [|first_line lines Hfirst Hlines]; [done|].
  apply Forall_fmap. eapply Forall_impl; [exact Hlines|].
  intros line Hline. cbn. apply csv_row_clean.
  - apply Forall_fmap. by apply splitCSVLine_clean.
  - by apply splitCSVLine_clean.
Qed.

(** X20: every row [parseCSVString] returns maps headers to values that
    hold no comma, no newline and no whitespace at their ends; and there is
    one row for each line that is not empty, the first of them, which gives
    the headers, left aside. *)
Theorem parseCSVString_rows (csvText : string) :
  Forall (map_Forall (λ header value,
            clean_cell header = true ∧ clean_cell value = true))
    (parseCSVString csvText)
  ∧ length (parseCSVString csvText)
    = pred (length (filter (λ line, line ≠ EmptyString)
                      (read_lines csvText))).
Proof.
  split; [apply parseCSVString_clean|]. unfold parseCSVString.
  destruct (filter _ _); [done|]. by rewrite length_fmap.
Qed.

Lemma clean_cell_safe (s : string) : clean_cell s = true → csv_safe s = true.
Proof. unfold clean_cell. by intros [? _]%andb_true_iff. Qed.

Lemma row_cell_safe (row : gmap string string) (header : string) :
  map_Forall (λ header value,
    clean_cell header = true ∧ clean_cell value = true) row →
  csv_safe (default EmptyString (row !! header)) = true.
Proof.
  intros Hrow. destruct (row !! header) as [value|] eqn:Hvalue; [|done].
  apply clean_cell_safe. by apply (Hrow header value).
Qed.

Lemma row_instrument_safe (row : gmap string string) (inst : Instrument) :
  map_Forall (λ header value,
    clean_cell header = true ∧ clean_cell value = true) row →
  row_instrument row = Some inst → instrument_safe inst = true.
Proof.
  intros Hrow. unfold row_instrument.
  destruct (row !! "instrument_token") as [token|] eqn:Htoken; [|done].
  destruct (row !! "tradingsymbol") as [symbol|] eqn:Hsymbol; [|done].
  intros [= <-]. unfold instrument_safe.
  cbn [instrument_token tradingsymbol inst_name exchange instrument_type].
  rewrite !(row_cell_safe row) by done.
  apply Hrow in Htoken as [_ ->%clean_cell_safe].
  by apply Hrow in Hsymbol as [_ ->%clean_cell_safe].
Qed.

(** ** Instruments from the API *)

Lemma set_instruments_set (f g : gmap string Instrument → gmap string Instrument)
    (c : ZerodhaClient) :
  set_instruments f (set_instruments g c) = set_instruments (f ∘ g) c.
Proof. done. Qed.

Lemma set_instruments_same (c : ZerodhaClient) :
  c = set_instruments (λ _, instruments_cache_ c) c.
Proof. by destruct c. Qed.

Lemma nse_equities_add (cache : gmap string Instrument) (inst : Instrument) :
  is_nse_equity inst = true → nse_equities cache →
  nse_equities (add_instrument cache inst).
Proof. intros Hinst Hcache. by apply map_Forall_insert_2. Qed.

Lemma nse_equities_add_row (cache : gmap string Instrument)
    (row : gmap string string) :
  nse_equities cache → nse_equities (add_row cache row).
Proof.
  intros Hcache. unfold add_row. destruct (row_instrument row) as [inst|]; [|done].
  destruct (is_nse_equity inst) eqn:Hinst; [|done]. by apply nse_equities_add.
Qed.

Lemma nse_equities_rows (rows : list (gmap string string))
    (cache : gmap string Instrument) :
  nse_equities cache → nse_equities (foldl add_row cache rows).
Proof.
  revert cache. induction rows as [|row rows IH]; intros cache Hcache; [done|].
  apply IH. by apply nse_equities_add_row.
Qed.

Lemma nse_equities_instruments (insts : list Instrument)
    (cache : gmap string Instrument) :
  Forall (λ inst, is_nse_equity inst = true) insts →
  nse_equities cache → nse_equities (foldl add_instrument cache insts).
Proof.
  intros Hall. revert cache.
  induction Hall as [|inst insts Hinst _ IH]; intros cache Hcache; [done|].
  apply IH. by apply nse_equities_add.
Qed.

Lemma file_safe_rows (rows : list (gmap string string))
    (cache : gmap string Instrument) :
  Forall (map_Forall (λ header value,
            clean_cell header = true ∧ clean_cell value = true)) rows →
  file_safe cache → file_safe (foldl add_row cache rows).
Proof.
  intros Hrows. revert cache.
  induction Hrows as [|row rows Hrow _ IH]; intros cache Hcache; [done|].
  apply IH. unfold add_row.
  destruct (row_instrument row) as [inst|] eqn:Hinst; [|done].
  destruct (is_nse_equity inst); [|done].
  apply map_Forall_insert_2; [|done]. by apply (row_instrument_safe row).
Qed.

Lemma file_safe_instruments (insts : list Instrument)
    (cache : gmap string Instrument) :
  Forall (λ inst, instrument_safe inst = true) insts →
  file_safe cache → file_safe (foldl add_instrument cache insts).
Proof.
  intros Hall. revert cache.
  induction Hall as [|inst insts Hinst _ IH]; intros cache Hcache; [done|].
  apply IH. by apply map_Forall_insert_2.
Qed.

Lemma parseInstrumentsResponse_run (response_text : string) (c : ZerodhaClient) :
  parseInstrumentsResponse response_text c
  = match parseCSVString response_text with
    | [] => (false, complain [ErrInstrumentsResponse] c)
    | rows =>
        (negb (bool_decide (foldl add_row ∅ rows = ∅)),
         set_instruments (λ _, foldl add_row ∅ rows) c)
    end.
Proof.
  unfold parseInstrumentsResponse. by destruct (parseCSVString response_text).
Qed.

(** X21: when the text has no data row, [parseInstrumentsResponse] answers
    [false], leaves the cache as it is and writes one line, "Instrument CSV
    response is empty or invalid", to the error stream.  With a data row
    the old cache is gone whatever the answer: the new one holds NSE
    equities only, each under its own trading symbol, the answer is [true]
    exactly when it is not empty, and nothing but the cache is written, the
    error stream included. *)
Theorem parseInstrumentsResponse_cache (response_text : string)
    (c : ZerodhaClient) :
  let parsed := eval (parseInstrumentsResponse response_text) c in
  let c' := exec (parseInstrumentsResponse response_text) c in
  (parseCSVString response_text = [] →
   parsed = false ∧ c' = complain [ErrInstrumentsResponse] c)
  ∧ (parseCSVString response_text ≠ [] →
     instruments_cache_ c'
       = foldl add_row ∅ (parseCSVString response_text)
     ∧ (parsed = true ↔ instruments_cache_ c' ≠ ∅)
     ∧ c' = set_instruments (λ _, instruments_cache_ c') c)
  ∧ (parsed = true → nse_equities (instruments_cache_ c')).
Proof.
  unfold eval, exec. rewrite parseInstrumentsResponse_run.
  destruct (parseCSVString response_text) as [|row rows] eqn:Hrows.
  - cbn [fst snd]. by split_and!.
  - cbn [fst snd set_instruments instruments_cache_]. split_and!; try done.
    + intros _. split; [done|]. split; [|done].
      rewrite negb_true_iff, bool_decide_eq_false. done.
    + intros _. apply nse_equities_rows. apply map_Forall_empty.
Qed.

Lemma parseInstrumentsResponse_parsed (response_text : string)
    (c : ZerodhaClient) :
  let parsed := (parseInstrumentsResponse response_text c).1 in
  let c' := (parseInstrumentsResponse response_text c).2 in
  (parsed = true →
   instruments_cache_ c' ≠ ∅ ∧ nse_equities (instruments_cache_ c')
   ∧ file_safe (instruments_cache_ c'))
  ∧ ∃ k, (k ≤ 1)%nat
         ∧ c' = complain (replicate k ErrInstrumentsResponse)
                  (set_instruments (λ _, instruments_cache_ c') c).
Proof.
  rewrite parseInstrumentsResponse_run.
  pose proof (parseCSVString_clean response_text) as Hclean.
  destruct (parseCSVString response_text) as [|row rows] eqn:Hrows.
  - cbn [fst snd]. split; [done|]. exists 1%nat. split; [lia|].
    by destruct c.
  - cbn [fst snd set_instruments instruments_cache_]. split.
    + rewrite negb_true_iff, bool_decide_eq_false. intros Hne. split_and!.
      * done.
      * apply nse_equities_rows, map_Forall_empty.
      * apply file_safe_rows; [done | apply map_Forall_empty].
    + exists 0%nat. split; [lia|]. unfold complain. simpl.
      by rewrite app_nil_r.
Qed.

(** The loop over the URLs: if it ends with [return true], the cache is a
    non-empty set of NSE equities; it writes the cache and, for each answer
    without a data row, one line to the error stream. *)
Lemma try_urls_found (http : string → HttpReply) (urls : list string)
    (c : ZerodhaClient) :
  let found := (try_urls http urls c).1 in
  let c' := (try_urls http urls c).2 in
  (found = true →
   instruments_cache_ c' ≠ ∅ ∧ nse_equities (instruments_cache_ c')
   ∧ file_safe (instruments_cache_ c'))
  ∧ ∃ k, (k ≤ length urls)%nat
         ∧ c' = complain (replicate k ErrInstrumentsResponse)
                  (set_instruments (λ _, instruments_cache_ c') c).
Proof.
  revert c. induction urls as [|url urls IH]; intros c.
  { cbn. split; [done|]. exists 0%nat. split; [lia|].
    destruct c. unfold complain. simpl. by rewrite app_nil_r. }
  cbn [try_urls].
  destruct (_ && _ && _).
  2:{ destruct (IH c) as [Hfound (k & Hk & Hc)]. split; [done|].
      exists k. split; [simpl; lia | done]. }
  pose proof (parseInstrumentsResponse_parsed (reply_text (http url)) c)
    as [Hparsed (k & Hk & Hc)].
  unfold mbind, M_bind.
  destruct (parseInstrumentsResponse (reply_text (http url)) c)
    as [parsed c1]. cbn [fst snd] in *.
  destruct parsed.
  - cbn [mret M_ret fst snd]. split; [intros _; by apply Hparsed|].
    exists k. split; [simpl; lia | done].
  - destruct (IH c1) as [Hfound (k' & Hk' & Hc')]. split; [done|].
    exists (k + k')%nat. split; [simpl; lia|].
    rewrite Hc' at 1. rewrite Hc, replicate_add.
    unfold complain, set_instruments. simpl. by rewrite app_assoc.
Qed.

Lemma fallback_instruments :
  Forall (λ inst, is_nse_equity inst = true)
    (imap fallback_instrument common_symbols).
Proof. by repeat constructor. Qed.

Lemma fallback_not_empty :
  foldl add_instrument ∅ (imap fallback_instrument common_symbols) ≠ ∅.
Proof.
  intros Hempty. apply (f_equal (lookup "RELIANCE")) in Hempty.
  by vm_compute in Hempty.
Qed.

Lemma fallback_safe :
  Forall (λ inst, instrument_safe inst = true)
    (imap fallback_instrument common_symbols).
Proof. by repeat constructor. Qed.

Lemma fetchInstruments_fetched (http : string → HttpReply)
    (c : ZerodhaClient) :
  isLoggedIn c = true →
  let c' := (fetchInstruments http c).2 in
  (fetchInstruments http c).1 = true
  ∧ instruments_cache_ c' ≠ ∅
  ∧ nse_equities (instruments_cache_ c')
  ∧ file_safe (instruments_cache_ c')
  ∧ ∃ (k : nat) (fallback : bool),
      (k ≤ 3)%nat
      ∧ c' = complain
               (replicate k ErrInstrumentsResponse
                ++ (if fallback then [ErrInstrumentsFetch] else []))
               (set_instruments (λ _, instruments_cache_ c') c)
      ∧ (fallback = true →
         instruments_cache_ c'
         = foldl add_instrument ∅ (imap fallback_instrument common_symbols)).
Proof.
  intros Hlogged. unfold fetchInstruments.
  unfold mbind, M_bind, get. rewrite Hlogged. cbn [negb].
  pose proof (try_urls_found http urls_to_try c) as [Hfound (k & Hk & Hc)].
  destruct (try_urls http urls_to_try c) as [found c1]. cbn [fst snd] in *.
  destruct found.
  - cbn [mret M_ret fst snd]. destruct (Hfound eq_refl) as (? & ? & ?).
    split_and!; try done. exists k, false. by rewrite app_nil_r.
  - unfold report.
    cbn [modify mret M_ret fst snd set_instruments instruments_cache_].
    split_and!; [done|apply fallback_not_empty| | |].
    + apply nse_equities_instruments;
        [apply fallback_instruments|apply map_Forall_empty].
    + apply file_safe_instruments;
        [apply fallback_safe|apply map_Forall_empty].
    + exists k, true. split; [done|]. split; [|done].
      destruct c1 as [t1 s1 i1 p1 l1 o1 e1], c as [t s i p l o e].
      unfold complain, set_instruments in *. simpl in *.
      inversion Hc; subst. by rewrite <- app_assoc.
Qed.



(** Not logged in, [fetchInstruments] answers [false] and only writes
    "Not logged in" to the error stream. *)
Lemma fetchInstruments_logged_out (http : string → HttpReply)
    (c : ZerodhaClient) :
  isLoggedIn c = false →
  fetchInstruments http c = (false, complain [ErrNotLoggedIn "instruments"] c).
Proof.
  intros Hlogged. unfold fetchInstruments, mbind, M_bind, get.
  by rewrite Hlogged.
Qed.

(** ** Credentials *)

Lemma credentials_line_pair (credentials : gmap string string)
    (key value : string) :
  clean_cell key = true → clean_cell value = true →
  value ≠ EmptyString →
  credentials_line credentials (join_fields [key; value])
  = <[key := value]> credentials.
Proof.
  unfold clean_cell, csv_safe.
  intros [[Hkey _]%andb_true_iff Hkey']%andb_true_iff.
  intros [[Hvalue _]%andb_true_iff Hvalue']%andb_true_iff Hne.
  unfold credentials_line, splitCSVLine, join_fields.
  rewrite read_all_join; [|by repeat constructor|simpl; congruence|lia].
  by rewrite !trim_of_trimmed.
Qed.

Lemma foldl_credentials_line (pairs : list (string * string))
    (credentials : gmap string string) :
  Forall (λ pair, clean_cell pair.1 = true
                  ∧ clean_cell pair.2 = true
                  ∧ pair.2 ≠ EmptyString) pairs →
  foldl credentials_line credentials
    (filter (λ line, line ≠ EmptyString)
       ((λ pair, join_fields [pair.1; pair.2]) <$> pairs))
  = foldl (λ credentials pair, <[pair.1 := pair.2]> credentials)
      credentials pairs.
Proof.
  intros Hall. revert credentials.
  induction Hall as [|[key value] rest (Hkey & Hvalue & Hne) _ IH];
    intros credentials; [done|].
  csimpl. rewrite filter_cons_True.
  2:{ unfold join_fields. cbn [join_with fst snd]. by destruct key. }
  cbn [foldl fst snd] in *. by rewrite credentials_line_pair.
Qed.

Lemma parseCredentials_file (pairs : list (string * string)) :
  Forall (λ pair, clean_cell pair.1 = true
                  ∧ clean_cell pair.2 = true
                  ∧ pair.2 ≠ EmptyString) pairs →
  parseCredentials (Some (credentials_file pairs))
  = foldl (λ credentials pair, <[pair.1 := pair.2]> credentials) ∅ pairs.
Proof.
  intros Hall. unfold parseCredentials, credentials_file, read_lines.
  rewrite read_all_write_lines; [by apply foldl_credentials_line| |lia].
  apply Forall_fmap. eapply Forall_impl; [exact Hall|].
  intros [key value] (Hkey & Hvalue & _). unfold clean_cell, csv_safe in *.
  apply andb_true_iff in Hkey as [[_ Hkey]%andb_true_iff _].
  apply andb_true_iff in Hvalue as [[_ Hvalue]%andb_true_iff _].
  apply free_of_join_with; [done|]. by repeat constructor.
Qed.

Lemma foldl_insert_other (pairs : list (string * string))
    (credentials : gmap string string) (key : string) :
  key ∉ pairs.*1 →
  foldl (λ credentials pair, <[pair.1 := pair.2]> credentials)
    credentials pairs !! key
  = credentials !! key.
Proof.
  revert credentials.
  induction pairs as [|[k v] pairs IH]; intros credentials Hkey; [done|].
  apply not_elem_of_cons in Hkey as [Hne Hkey]. cbn [foldl fst snd].
  rewrite IH by done. by apply lookup_insert_ne.
Qed.

(** X23: a credentials file of lines [key,value], keys and values without a
    comma, a newline or whitespace at their ends and no value empty, is read
    by [parseCredentials] as the assignments [credentials[key] = value] made
    line after line: a key has the value of the last line that names it. *)
Theorem parseCredentials_written (pairs : list (string * string)) :
  Forall (λ pair, clean_cell pair.1 = true
                  ∧ clean_cell pair.2 = true
                  ∧ pair.2 ≠ EmptyString) pairs →
  parseCredentials (Some (credentials_file pairs))
  = foldl (λ credentials pair, <[pair.1 := pair.2]> credentials) ∅ pairs
  ∧ ∀ key value before after,
      pairs = before ++ (key, value) :: after → key ∉ after.*1 →
      parseCredentials (Some (credentials_file pairs)) !! key = Some value.
Proof.
  intros Hall. pose proof (parseCredentials_file pairs Hall) as Hparse.
  split; [done|]. intros key value before after -> Hlast.
  rewrite Hparse, foldl_app. cbn [foldl fst snd].
  rewrite foldl_insert_other by done. apply lookup_insert_eq.
Qed.

Lemma parseCredentials_written_witness :
  let pairs := [("API_KEY", "old"); ("API_SECRET", "s3cret");
                ("API_KEY", "new")] in
  parseCredentials (Some (credentials_file pairs))
  = foldl (λ credentials pair, <[pair.1 := pair.2]> credentials) ∅ pairs
  ∧ ∀ key value before after,
      pairs = before ++ (key, value) :: after → key ∉ after.*1 →
      parseCredentials (Some (credentials_file pairs)) !! key = Some value.
Proof.
  apply (parseCredentials_written
           [("API_KEY", "old"); ("API_SECRET", "s3cret"); ("API_KEY", "new")]).
  repeat constructor; by vm_compute.
Defined.

(** X24: a line that ends with its first comma, the value left empty, makes
    no assignment: [splitCSVLine] returns the key alone. *)
Theorem credentials_line_empty_value (credentials : gmap string string)
    (key : string) :
  free_of comma key = true →
  credentials_line credentials (key +:+ String comma EmptyString)
  = credentials.
Proof.
  intros Hkey. unfold credentials_line, splitCSVLine.
  rewrite read_all_cons; [done|done|lia].
Qed.

Lemma credentials_line_empty_value_witness :
  credentials_line {[ "API_KEY" := "key" ]}
    ("API_SECRET" +:+ String comma EmptyString)
  = {[ "API_KEY" := "key" ]}.
Proof. by apply (credentials_line_empty_value _ "API_SECRET"). Defined.

(** X25: [loadCredentials] answers [true] exactly when the file gave both
    [API_KEY] and [API_SECRET].  When it answers [false] the secret is as it
    was, but the key is not: it has been replaced whenever the file gave
    an [API_KEY]. *)
Theorem loadCredentials_outcome (file : option string) (client : Credentials) :
  let credentials := parseCredentials file in
  let loaded := (loadCredentials file client).1 in
  let client' := (loadCredentials file client).2 in
  (loaded = true ↔
   is_Some (credentials !! "API_KEY") ∧ is_Some (credentials !! "API_SECRET"))
  ∧ (loaded = false → api_secret_ client' = api_secret_ client)
  ∧ (∀ key, credentials !! "API_KEY" = Some key → api_key_ client' = key)
  ∧ (credentials !! "API_KEY" = None → client' = client).
Proof.
  unfold loadCredentials.
  destruct (parseCredentials file !! "API_KEY") as [key|];
    [destruct (parseCredentials file !! "API_SECRET") as [secret|]|];
    cbn [fst snd api_key_ api_secret_]; split_and!; try done;
    try (by intros ? [= <-]); try (by split).
  - split; [done|]. by intros [_ ?%is_Some_None].
  - split; [done|]. by intros [?%is_Some_None _].
Qed.

(** ** Start-up: fetch, save, load *)

Lemma getMatchedSymbols_reloaded (c c' : ZerodhaClient) :
  instruments_cache_ c' = reloaded <$> instruments_cache_ c →
  trade_settings_ c' = trade_settings_ c →
  getMatchedSymbols c' = getMatchedSymbols c.
Proof.
  intros Hcache Hsettings. unfold getMatchedSymbols.
  rewrite Hcache, Hsettings. f_equal. apply list_filter_iff.
  intros setting. by rewrite lookup_fmap, fmap_is_Some.
Qed.

(** X26: the first three steps of [main] on a logged-in client.  The
    cache [fetchInstruments] leaves can always be saved, and loading the
    file saved succeeds and gives the same instruments under the same
    symbols, the names now in quotes: [getMatchedSymbols] and
    [getInstrumentToken] answer as before. *)
Theorem fetched_instruments_reload (http : string → HttpReply)
    (c : ZerodhaClient) :
  isLoggedIn c = true →
  let c1 := exec (fetchInstruments http) c in
  let c2 := exec (loadInstrumentsFromCSV (saveInstrumentsToCSV c1)) c1 in
  is_Some (saveInstrumentsToCSV c1)
  ∧ eval (loadInstrumentsFromCSV (saveInstrumentsToCSV c1)) c1 = true
  ∧ instruments_cache_ c2 = reloaded <$> instruments_cache_ c1
  ∧ getMatchedSymbols c2 = getMatchedSymbols c1
  ∧ ∀ symbol, getInstrumentToken c2 symbol = getInstrumentToken c1 symbol.
Proof.
  intros Hlogged. unfold exec, eval.
  destruct (fetchInstruments_fetched http c Hlogged)
    as (_ & Hne & Hnse & Hsafe & _).
  set (c1 := (fetchInstruments http c).2) in *.
  assert (map_Forall (λ symbol inst,
            tradingsymbol inst = symbol ∧ instrument_safe inst = true)
            (instruments_cache_ c1)) as Hall.
  { intros symbol inst Hinst. split.
    - by apply (Hnse symbol inst Hinst).
    - by apply (Hsafe symbol inst Hinst). }
  rewrite (loadInstrumentsFromCSV_saved c1 c1 Hne Hall). cbn [fst snd].
  split_and!.
  - unfold saveInstrumentsToCSV. by rewrite bool_decide_eq_false_2.
  - done.
  - done.
  - by apply getMatchedSymbols_reloaded.
  - intros symbol. by apply getInstrumentToken_reloaded.
Qed.

Lemma fetched_instruments_reload_witness :
  let http := λ _, mkReply 200
    "instrument_token,exchange_token,tradingsymbol,name,exchange,instrument_type
408065,1594,INFY,INFOSYS,NSE,EQ
" in
  let c1 := exec (fetchInstruments http) infy_client in
  let c2 := exec (loadInstrumentsFromCSV (saveInstrumentsToCSV c1)) c1 in
  is_Some (saveInstrumentsToCSV c1)
  ∧ eval (loadInstrumentsFromCSV (saveInstrumentsToCSV c1)) c1 = true
  ∧ instruments_cache_ c2 = reloaded <$> instruments_cache_ c1
  ∧ getMatchedSymbols c2 = getMatchedSymbols c1
  ∧ ∀ symbol, getInstrumentToken c2 symbol = getInstrumentToken c1 symbol.
Proof.
  apply (fetched_instruments_reload _ infy_client). reflexivity.
Defined.

(** ** [std::stoi] *)

Lemma read_digits_stop (value : Z) (s : string) :
  starts_with_digit s = false → read_digits value s = value.
Proof.
  destruct s as [|a s]; [done|]. cbn [starts_with_digit read_digits].
  by destruct (Ascii.is_nat a).
Qed.

Lemma read_digits_uint_acc (d : Decimal.uint) (p : positive) (tail : string) :
  starts_with_digit tail = false →
  read_digits (Zpos p) (DecimalString.NilEmpty.string_of_uint d +:+ tail)
  = Zpos (Pos.of_uint_acc d p).
Proof.
  intros Htail. revert p.
  induction d as [|d IH|d IH|d IH|d IH|d IH|d IH|d IH|d IH|d IH|d IH];
    intros p; cbn [DecimalString.NilEmpty.string_of_uint Pos.of_uint_acc];
    [by apply read_digits_stop|..];
    rewrite append_cons; cbn [read_digits Ascii.is_nat];
    rewrite <- IH; f_equal; lia.
Qed.

Lemma read_digits_uint (d : Decimal.uint) (tail : string) :
  starts_with_digit tail = false →
  read_digits 0 (DecimalString.NilEmpty.string_of_uint d +:+ tail)
  = Z.of_N (Pos.of_uint d).
Proof.
  intros Htail.
  induction d as [|d IH|d IH|d IH|d IH|d IH|d IH|d IH|d IH|d IH|d IH];
    cbn [DecimalString.NilEmpty.string_of_uint Pos.of_uint];
    [by apply read_digits_stop|by rewrite append_cons|..];
    rewrite append_cons; cbn [read_digits Ascii.is_nat Z.of_N];
    by rewrite <- (read_digits_uint_acc d _ tail Htail).
Qed.

(** The digits [std::to_string] writes, read back. *)
Lemma read_digits_to_string (n : N) (tail : string) :
  starts_with_digit tail = false →
  starts_with_digit (to_string n +:+ tail) = true
  ∧ read_digits 0 (to_string n +:+ tail) = Z.of_N n.
Proof.
  intros Htail. unfold to_string, DecimalString.NilZero.string_of_uint.
  rewrite <- (DecimalN.Unsigned.of_to n) at 3. unfold N.of_uint.
  destruct (N.to_uint n) as [|d|d|d|d|d|d|d|d|d|d] eqn:Hd.
  { split; [done|]. rewrite append_cons. cbn [read_digits Ascii.is_nat].
    by apply read_digits_stop. }
  all: split; [done | by apply read_digits_uint].
Qed.

Lemma to_string_head (n : N) :
  ∃ a rest, to_string n = String a rest
    ∧ isspace a = false ∧ Ascii.eqb a Char.minus = false
    ∧ Ascii.eqb a Char.plus = false.
Proof.
  unfold to_string, DecimalString.NilZero.string_of_uint.
  destruct (N.to_uint n); cbn [DecimalString.NilEmpty.string_of_uint];
    by eexists _, _.
Qed.

Lemma stoi_number_to_string (negative : bool) (n : N) (tail : string) :
  starts_with_digit tail = false →
  let value := if negative then - Z.of_N n else Z.of_N n in
  is_int value = true →
  stoi_number negative (to_string n +:+ tail) = Some value.
Proof.
  intros Htail value Hint. unfold stoi_number.
  destruct (read_digits_to_string n tail Htail) as [-> ->].
  fold value. unfold is_int in Hint. by rewrite Hint.
Qed.

Lemma stoi_to_string_int (z : Z) (tail : string) :
  starts_with_digit tail = false → is_int z = true →
  stoi (to_string_int z +:+ tail) = Some z.
Proof.
  intros Htail Hint. unfold stoi, to_string_int.
  destruct (z <? 0) eqn:Hz.
  - rewrite append_cons. cbn [skip_spaces]. cbn.
    rewrite (stoi_number_to_string true (Z.to_N (- z)) tail Htail).
    + f_equal. lia.
    + replace (- Z.of_N (Z.to_N (- z))) with z by lia. done.
  - destruct (to_string_head (Z.to_N z)) as (a & rest & Hs & Ha & Hm & Hp).
    pose proof (stoi_number_to_string false (Z.to_N z) tail Htail) as Hn.
    rewrite Hs in *. rewrite append_cons in *. cbn [skip_spaces].
    rewrite Ha, Hm, Hp. cbn zeta in Hn. rewrite Hn.
    + f_equal. lia.
    + replace (Z.of_N (Z.to_N z)) with z by lia. done.
Qed.

(** X27: [std::stoi] reads back what [std::to_string] writes for an
    [int], whatever follows it, provided that is not one more digit: the
    rest of the field is ignored. *)
Theorem stoi_to_string (z : Z) (tail : string) :
  starts_with_digit tail = false →
  INT_MIN ≤ z ≤ INT_MAX →
  stoi (to_string_int z +:+ tail) = Some z.
Proof.
  intros Htail [Hmin Hmax]. apply stoi_to_string_int; [done|].
  unfold is_int. apply andb_true_iff. split; by apply Z.leb_le.
Qed.

Lemma stoi_to_string_witness :
  stoi (to_string_int (-20) +:+ String Char.carriage_return EmptyString)
  = Some (-20).
Proof.
  apply (stoi_to_string (-20) (String Char.carriage_return EmptyString)).
  - reflexivity.
  - unfold INT_MIN, INT_MAX. lia.
Defined.

(** ** [loadTradeSettings] *)

Lemma read_all_S (delim a : Ascii.ascii) (fuel : nat) (s : string) :
  read_all delim (S fuel) (String a s)
  = let '(part, after) := getline delim (String a s) in
    part :: match after with
            | Some rest => read_all delim fuel rest
            | None => []
            end.
Proof. reflexivity. Qed.

Lemma fields_from_next (stream : option string) :
  fields_from stream
  = match next_field stream with
    | Some (part, after) => part :: fields_from after
    | None => []
    end.
Proof.
  destruct stream as [[|a s]|]; [done| |done].
  unfold fields_from, next_field, splitCSVLine. rewrite read_all_S.
  pose proof (getline_spec comma (String a s)) as Hspec.
  destruct (getline comma (String a s)) as [part [rest|]]; [|done].
  destruct Hspec as [_ Hs]. f_equal.
  apply (f_equal String.length) in Hs. rewrite length_append in Hs.
  apply read_all_fuel; simpl in *; lia.
Qed.

Lemma read_setting_split (line : string) :
  read_setting line
  = match splitCSVLine line with
    | symbol :: quantity_str :: timeframe :: ema_period_str :: _ =>
        read_numbers symbol quantity_str timeframe ema_period_str
    | _ => LineSkipped
    end.
Proof.
  change (splitCSVLine line) with (fields_from (Some line)).
  unfold read_setting. rewrite fields_from_next.
  destruct (next_field (Some line)) as [[symbol s1]|]; [|done].
  rewrite (fields_from_next s1).
  destruct (next_field s1) as [[quantity_str s2]|]; [|done].
  rewrite (fields_from_next s2).
  destruct (next_field s2) as [[timeframe s3]|]; [|done].
  rewrite (fields_from_next s3).
  by destruct (next_field s3) as [[ema_period_str s4]|].
Qed.

(** X28: the four reads [loadTradeSettings] makes on a line give the first
    four fields [splitCSVLine] finds in it, fields beyond the fourth being
    ignored; the line is passed over exactly when [splitCSVLine] finds
    fewer than four, as when the line ends with its third comma. *)
Theorem read_setting_fields (line : string) :
  read_setting line
  = match splitCSVLine line with
    | symbol :: quantity_str :: timeframe :: ema_period_str :: _ =>
        read_numbers symbol quantity_str timeframe ema_period_str
    | _ => LineSkipped
    end
  ∧ (read_setting line = LineSkipped ↔ (length (splitCSVLine line) < 4)%nat).
Proof.
  split; [apply read_setting_split|]. rewrite read_setting_split.
  destruct (splitCSVLine line) as [|a [|b [|c [|d rest]]]]; simpl;
    try (split; [lia|done]).
  split; [|lia]. unfold read_numbers. by repeat case_match.
Qed.

Lemma uint_string_free (a : Ascii.ascii) (d : Decimal.uint) :
  Ascii.is_nat a = None →
  free_of a (DecimalString.NilEmpty.string_of_uint d) = true.
Proof.
  intros Ha.
  induction d as [|d IH|d IH|d IH|d IH|d IH|d IH|d IH|d IH|d IH|d IH];
    cbn [DecimalString.NilEmpty.string_of_uint free_of]; [done|..];
    rewrite IH, andb_true_r; apply negb_true_iff, Ascii.eqb_neq;
    by intros <-.
Qed.

Lemma to_string_free (a : Ascii.ascii) (n : N) :
  Ascii.is_nat a = None → free_of a (to_string n) = true.
Proof.
  intros Ha. unfold to_string, DecimalString.NilZero.string_of_uint.
  destruct (N.to_uint n) eqn:Hd; try (rewrite <- Hd; by apply uint_string_free);
    try by apply (uint_string_free a (Decimal.D0 Decimal.Nil)).
  all: by apply (uint_string_free a _).
Qed.

Lemma to_string_int_free (a : Ascii.ascii) (z : Z) :
  Ascii.is_nat a = None → Ascii.eqb Char.minus a = false →
  free_of a (to_string_int z) = true.
Proof.
  intros Ha Hminus. unfold to_string_int. destruct (z <? 0).
  - cbn [free_of]. by rewrite Hminus, to_string_free.
  - by apply to_string_free.
Qed.

Lemma to_string_int_not_empty (z : Z) : to_string_int z ≠ EmptyString.
Proof.
  unfold to_string_int. destruct (z <? 0); [done|].
  by destruct (to_string_head (Z.to_N z)) as (a & rest & -> & _).
Qed.

Lemma setting_fields_free (a : Ascii.ascii) (setting : TradeSetting) :
  Ascii.is_nat a = None → Ascii.eqb Char.minus a = false →
  free_of a (ts_symbol setting) = true →
  free_of a (ts_timeframe setting) = true →
  Forall (λ field, free_of a field = true) (setting_fields setting).
Proof.
  intros Ha Hminus Hsymbol Htimeframe. unfold setting_fields.
  repeat constructor; try done; by apply to_string_int_free.
Qed.

Ltac split_setting H :=
  unfold setting_safe, csv_safe in H;
  repeat match goal with
         | H' : _ && _ = true |- _ => apply andb_true_iff in H' as [? ?]
         end.

(** One line of the settings file, read back. *)
Lemma read_setting_written (setting : TradeSetting) :
  setting_safe setting = true →
  read_setting (join_fields (setting_fields setting)) = LineSetting setting.
Proof.
  intros Hsafe. split_setting Hsafe. rewrite read_setting_split.
  unfold splitCSVLine, join_fields. rewrite read_all_join; [| | |lia].
  - unfold setting_fields, read_numbers.
    rewrite <- (append_nil_r (to_string_int (ts_quantity setting))).
    rewrite <- (append_nil_r (to_string_int (ts_ema_period setting))).
    rewrite !stoi_to_string_int by done. by destruct setting.
  - by apply setting_fields_free.
  - unfold setting_fields. cbn [last].
    intros [= Hempty]. by apply to_string_int_not_empty in Hempty.
Qed.

Lemma setting_line_free (setting : TradeSetting) :
  setting_safe setting = true →
  free_of newline (join_fields (setting_fields setting)) = true.
Proof.
  intros Hsafe. split_setting Hsafe. apply free_of_join_with; [done|].
  by apply setting_fields_free.
Qed.

Lemma setting_line_not_empty (setting : TradeSetting) :
  join_fields (setting_fields setting) ≠ EmptyString.
Proof.
  unfold join_fields, setting_fields. cbn [join_with].
  by destruct (ts_symbol setting).
Qed.

Lemma set_trade_settings_set (f g : list TradeSetting → list TradeSetting)
    (c : ZerodhaClient) :
  set_trade_settings f (set_trade_settings g c) = set_trade_settings (f ∘ g) c.
Proof. done. Qed.

(** The loop over written lines, followed by any others. *)
Lemma read_settings_written (settings : list TradeSetting)
    (others : list string) (c : ZerodhaClient) :
  Forall (λ setting, setting_safe setting = true) settings →
  read_settings
    (filter (λ line, line ≠ EmptyString)
       ((join_fields ∘ setting_fields <$> settings) ++ others)) c
  = read_settings (filter (λ line, line ≠ EmptyString) others)
      (set_trade_settings (λ loaded, loaded ++ settings) c).
Proof.
  intros Hall. revert c.
  induction Hall as [|setting settings Hsafe _ IH]; intros c.
  { cbn. f_equal. destruct c. unfold set_trade_settings. cbn.
    by rewrite app_nil_r. }
  csimpl. rewrite filter_cons_True by apply setting_line_not_empty.
  cbn [read_settings]. rewrite (read_setting_written _ Hsafe).
  unfold mbind, M_bind, modify. rewrite IH, set_trade_settings_set.
  f_equal. unfold set_trade_settings. f_equal. cbn.
  by rewrite <- app_assoc.
Qed.

Lemma loadTradeSettings_file (header : string) (settings : list TradeSetting)
    (others : list string) (c : ZerodhaClient) :
  free_of newline header = true →
  Forall (λ setting, setting_safe setting = true) settings →
  Forall (λ line, free_of newline line = true) others →
  loadTradeSettings
    (Some (write_lines
             (header :: (join_fields ∘ setting_fields <$> settings) ++ others)))
    c
  = let completed :=
      read_settings (filter (λ line, line ≠ EmptyString) others)
        (set_trade_settings (λ _, settings) c) in
    (if completed.1 then Some true else None, completed.2).
Proof.
  intros Hheader Hall Hothers. unfold loadTradeSettings. cbn [write_lines].
  rewrite getline_delim by done. cbn [snd]. unfold read_lines.
  rewrite read_all_write_lines; [| |lia].
  2:{ apply Forall_app. split; [|done]. apply Forall_fmap.
      eapply Forall_impl; [exact Hall|]. intros setting.
      apply setting_line_free. }
  unfold mbind, M_bind, modify.
  rewrite (read_settings_written settings others _ Hall).
  rewrite set_trade_settings_set. cbn zeta.
  by destruct (read_settings _ _) as [[] c'].
Qed.

(** X29: a settings file laid out as [loadTradeSettings] reads it, a first
    line and then [symbol,quantity,timeframe,ema_period] for each setting
    with the numbers as [std::to_string] writes them, loads as exactly those
    settings in the order of the file, in place of the ones held before.
    The first line is dropped whatever it holds. *)
Theorem loadTradeSettings_written (header : string)
    (settings : list TradeSetting) (c : ZerodhaClient) :
  free_of newline header = true →
  Forall (λ setting, setting_safe setting = true) settings →
  loadTradeSettings (Some (settings_file header settings)) c
  = (Some true, set_trade_settings (λ _, settings) c).
Proof.
  intros Hheader Hall. unfold settings_file.
  rewrite <- (app_nil_r (join_fields ∘ setting_fields <$> settings)).
  by rewrite (loadTradeSettings_file header settings [] c Hheader Hall).
Qed.

Lemma loadTradeSettings_written_witness :
  loadTradeSettings
    (Some (settings_file "INFY,50,5minute,20"
             [mkSetting "TCS" 1 "15minute" 9; mkSetting "INFY" 50 "5minute" 20]))
    infy_client
  = (Some true,
     set_trade_settings
       (λ _, [mkSetting "TCS" 1 "15minute" 9; mkSetting "INFY" 50 "5minute" 20])
       infy_client).
Proof.
  apply (loadTradeSettings_written "INFY,50,5minute,20"
           [mkSetting "TCS" 1 "15minute" 9; mkSetting "INFY" 50 "5minute" 20]
           infy_client).
  - reflexivity.
  - by repeat constructor.
Defined.

(** X30: when a line of the file makes [std::stoi] throw, a quantity or an
    EMA period that is no number in a line of four fields,
    [loadTradeSettings] returns neither [true] nor [false]: the exception
    leaves it, with the settings of the lines before in the client and the
    lines after unread. *)
Theorem loadTradeSettings_throws (header bad : string)
    (settings : list TradeSetting) (others : list string) (c : ZerodhaClient) :
  free_of newline header = true →
  Forall (λ setting, setting_safe setting = true) settings →
  free_of newline bad = true →
  Forall (λ line, free_of newline line = true) others →
  read_setting bad = LineThrows →
  loadTradeSettings
    (Some (write_lines
             (header :: (join_fields ∘ setting_fields <$> settings)
                        ++ bad :: others))) c
  = (None, set_trade_settings (λ _, settings) c).
Proof.
  intros Hheader Hall Hbad Hothers Hthrows.
  rewrite (loadTradeSettings_file header settings (bad :: others) c);
    [|done|done|by constructor].
  rewrite filter_cons_True; [|by intros ->].
  cbn [read_settings]. by rewrite Hthrows.
Qed.

Lemma loadTradeSettings_throws_witness :
  loadTradeSettings
    (Some (write_lines
             ("Symbol,Quantity,Timeframe,EMA_Period"
              :: (join_fields ∘ setting_fields
                    <$> [mkSetting "TCS" 1 "15minute" 9])
                 ++ "INFY,fifty,5minute,20" :: ["SBIN,5,5minute,20"])))
    infy_client
  = (None,
     set_trade_settings (λ _, [mkSetting "TCS" 1 "15minute" 9]) infy_client).
Proof.
  apply (loadTradeSettings_throws "Symbol,Quantity,Timeframe,EMA_Period"
           "INFY,fifty,5minute,20" [mkSetting "TCS" 1 "15minute" 9]
           ["SBIN,5,5minute,20"] infy_client).
  - reflexivity.
  - by repeat constructor.
  - reflexivity.
  - by repeat constructor.
  - reflexivity.
Defined.
